(** * Shadow DOM builder (tools/shadow_builder.py): model and verification

    The Python module rebuilds a document tree from a flat list of probe
    records, gives every node one or two rectangles and renders the tree as
    text and as an HTML overlay.

    The embedding follows the Python code:
    - probe records, payloads and locations are the values json.loads
      produces, so they are modelled by the type [json]; an operation that
      raises in Python returns [Err] here;
    - [ShadowNode] objects live in a store (a list indexed by allocation
      order) and are referred to by index, because the build stack and the
      [children] lists alias the same objects;
    - an int is a [Z]; a float is an IEEE 754 binary64 number, with its
      infinities and NaN, and float arithmetic rounds as the machine does
      (the library's specification of floats, [SpecFloat]); an int that
      meets a float is converted first, which raises [OverflowError] when
      the int is too large;
    - object identity is not modelled: two values are the same member of a
      set, or the same key of a dict, when [==] holds between them. *)

From Stdlib Require Import QArith Qminmax Lqa.
From Stdlib Require SpecFloat.
From stdpp Require Import base option list strings pretty.

Set Warnings "-register-all".

(** ** Python exceptions and the error monad *)

Inductive exn :=
| AttributeError | TypeError | KeyError | IndexError | ValueError
| OverflowError
| RecursionError  (* the recursion went deeper than the interpreter allows *)
| StaleRef        (* a store index without an object; Python has no such
                     reference, and the builder never makes one *).

Inductive result (A : Type) :=
| Ok (a : A)
| Err (e : exn).
Arguments Ok {A} a.
Arguments Err {A} e.

#[global] Instance result_ret : MRet result := fun A a => Ok a.
#[global] Instance result_bind : MBind result := fun A B f m =>
  match m with Ok a => f a | Err e => Err e end.

(** ** Floats *)

(** A Python float is a binary64 number: the library's [spec_float] at
    precision 53 and exponent bound 1024. *)
Abbreviation float := SpecFloat.spec_float.

Definition fsub : float → float → float := SpecFloat.SFsub 53 1024.
Definition fadd : float → float → float := SpecFloat.SFadd 53 1024.

(** The float of an integer constant, as [842.0]. *)
Definition float_const (z : Z) : float := SpecFloat.binary_normalize 53 1024 z 0 false.

(** [float(z)] as arithmetic does it when an int meets a float: the
    nearest float, ties to even; an int that would round to 2^1024 or
    beyond raises. *)
Definition FLOAT_INT_LIMIT : Z := 2 ^ 1024 - 2 ^ 970.

Definition float_of_int (z : Z) : result float :=
  if (Z.abs z <? FLOAT_INT_LIMIT)%Z
  then Ok (SpecFloat.binary_normalize 53 1024 z 0 false)
  else Err OverflowError.


(** The value of a number as comparisons see it: a rational, an infinity
    or NaN. *)
Inductive xnum := XNaN | XInf (neg : bool) | XFin (q : Q).

Definition float_xnum (f : float) : xnum :=
  match f with
  | SpecFloat.S754_nan => XNaN
  | SpecFloat.S754_infinity s => XInf s
  | SpecFloat.S754_zero _ => XFin 0
  | SpecFloat.S754_finite s m e =>
      let v := match e with
               | Z0 => inject_Z (Zpos m)
               | Zpos p => inject_Z (Zpos m * 2 ^ Zpos p)
               | Zneg p => Qmake (Zpos m) (2 ^ p)%positive
               end in
      XFin (if s then (- v)%Q else v)
  end.

(** [a == b] and [a < b] between two such values; NaN is equal to nothing
    and below nothing. *)
Definition xnum_eqb (a b : xnum) : bool :=
  match a, b with
  | XFin p, XFin q => Qeq_bool p q
  | XInf s, XInf t => Bool.eqb s t
  | _, _ => false
  end.

Definition xnum_ltb (a b : xnum) : bool :=
  match a, b with
  | XFin p, XFin q => if Qlt_le_dec p q then true else false
  | XInf s, XInf t => s && negb t
  | XInf s, XFin _ => s
  | XFin _, XInf t => negb t
  | _, _ => false
  end.


(** ** JSON values as Python sees them *)

Inductive json :=
| JNull
| JBool (b : bool)
| JInt (n : Z)
| JFloat (f : float)
| JStr (s : string)
| JList (l : list json)
| JDict (d : list (string * json)).

(** A dict is an association list with pairwise distinct keys; [assoc] is
    the lookup. *)
Fixpoint assoc {A} (k : string) (d : list (string * A)) : option A :=
  match d with
  | [] => None
  | (k', v) :: d' => if String.eqb k k' then Some v else assoc k d'
  end.

(** [d[k] = v] *)
Fixpoint dict_set {A} (k : string) (v : A) (d : list (string * A)) : list (string * A) :=
  match d with
  | [] => [(k, v)]
  | (k', v') :: d' => if String.eqb k k' then (k, v) :: d' else (k', v') :: dict_set k v d'
  end.

(** [d.get(k, default)] on a dict *)
Definition dict_get {A} (d : list (string * A)) (k : string) (default : A) : A :=
  match assoc k d with Some v => v | None => default end.

(** [o.get(k, default)] on an arbitrary value: only dicts have [get]. *)
Definition py_get (o : json) (k : string) (default : json) : result json :=
  match o with
  | JDict d => Ok (dict_get d k default)
  | _ => Err AttributeError
  end.

(** The value of a number; [bool] is a subclass of [int]. *)
Definition xnum_of (v : json) : option xnum :=
  match v with
  | JBool b => Some (XFin (if b then 1%Q else 0%Q))
  | JInt n => Some (XFin (inject_Z n))
  | JFloat f => Some (float_xnum f)
  | _ => None
  end.

(** The value of a finite number. *)
Definition num_val (v : json) : option Q :=
  match xnum_of v with
  | Some (XFin q) => Some q
  | _ => None
  end.

Definition int_val (v : json) : option Z :=
  match v with
  | JBool b => Some (if b then 1%Z else 0%Z)
  | JInt n => Some n
  | _ => None
  end.

(** [a == b] *)
Fixpoint py_eq (a b : json) {struct a} : bool :=
  match a, b with
  | JNull, JNull => true
  | JStr s, JStr t => String.eqb s t
  | JList l, JList m =>
      (fix go (l m : list json) : bool :=
         match l, m with
         | [], [] => true
         | x :: l', y :: m' => py_eq x y && go l' m'
         | _, _ => false
         end) l m
  | JDict d, JDict e =>
      Nat.eqb (length d) (length e) &&
      (fix go (d : list (string * json)) : bool :=
         match d with
         | [] => true
         | (k, v) :: d' =>
             match assoc k e with Some w => py_eq v w | None => false end && go d'
         end) d
  | _, _ =>
      match xnum_of a, xnum_of b with
      | Some x, Some y => xnum_eqb x y
      | _, _ => false
      end
  end.

(** The float an operand of mixed arithmetic stands for. *)
Definition as_float (v : json) : result float :=
  match v with
  | JFloat f => Ok f
  | _ =>
      match int_val v with
      | Some z => float_of_int z
      | None => Err TypeError
      end
  end.

Definition is_numeric (v : json) : bool :=
  match xnum_of v with Some _ => true | None => false end.

(** [a - b]: int - int is an int; when a float is involved, both operands
    are taken as floats and the difference is rounded. *)
Definition py_sub (a b : json) : result json :=
  match int_val a, int_val b with
  | Some x, Some y => Ok (JInt (x - y))
  | _, _ =>
      if is_numeric a && is_numeric b
      then x ← as_float a; y ← as_float b; mret (JFloat (fsub x y))
      else Err TypeError
  end.

(** [a + b] *)
Definition py_add (a b : json) : result json :=
  match a, b with
  | JStr s, JStr t => Ok (JStr (s +:+ t))
  | JList l, JList m => Ok (JList (l ++ m))
  | _, _ =>
      match int_val a, int_val b with
      | Some x, Some y => Ok (JInt (x + y))
      | _, _ =>
          if is_numeric a && is_numeric b
          then x ← as_float a; y ← as_float b; mret (JFloat (fadd x y))
          else Err TypeError
      end
  end.

(** [max(a, b)] for two numbers: [a] unless [b > a].  Every call in the
    module passes an int constant for [b]. *)
Definition py_max (a b : json) : result json :=
  match xnum_of a, xnum_of b with
  | Some x, Some y => Ok (if xnum_ltb x y then b else a)
  | _, _ => Err TypeError
  end.

(** Truth value of [v] *)
Definition py_truthy (v : json) : bool :=
  match v with
  | JNull => false
  | JBool b => b
  | JInt n => negb (n =? 0)%Z
  | JFloat f => match f with SpecFloat.S754_zero _ => false | _ => true end
  | JStr s => negb (String.eqb s "")
  | JList l => negb (Nat.eqb (length l) 0)
  | JDict d => negb (Nat.eqb (length d) 0)
  end.

Definition py_hashable (v : json) : bool :=
  match v with
  | JList _ | JDict _ => false
  | _ => true
  end.

(** ** Strings *)

(** [sub in s] *)
Fixpoint str_contains (sub s : string) : bool :=
  String.prefix sub s ||
  match s with
  | EmptyString => false
  | String _ s' => str_contains sub s'
  end.

(** Index of the first occurrence of [sub] in [s], as [s.find(sub)]. *)
Fixpoint str_find (sub s : string) : option nat :=
  if String.prefix sub s then Some 0
  else match s with
       | EmptyString => None
       | String _ s' => S <$> str_find sub s'
       end.

(** [s.replace(old, new)] for a non-empty [old]: scan from the left; where
    [old] starts, emit [new] and drop the whole match, else copy one
    character.  [skip] counts the characters of the current match that are
    still to be dropped. *)
Fixpoint replace_from (old new : string) (skip : nat) (s : string) : string :=
  match s with
  | EmptyString => EmptyString
  | String c s' =>
      match skip with
      | S k => replace_from old new k s'
      | O =>
          if String.prefix old s
          then new +:+ replace_from old new (String.length old - 1) s'
          else String c (replace_from old new 0 s')
      end
  end.

Definition str_replace (s old new : string) : string := replace_from old new 0 s.

(** [v.replace(old, new)] on an arbitrary value: only [str] has it. *)
Definition py_replace (v : json) (old new : string) : result json :=
  match v with
  | JStr s => Ok (JStr (str_replace s old new))
  | _ => Err AttributeError
  end.

(** [k in o] *)
Definition py_in (k : string) (o : json) : result bool :=
  match o with
  | JDict d => Ok (bool_decide (is_Some (assoc k d)))
  | JStr s => Ok (str_contains k s)
  | JList l => Ok (existsb (fun v => py_eq v (JStr k)) l)
  | _ => Err TypeError
  end.

(** [o[k]] for a string key *)
Definition py_getitem (o : json) (k : string) : result json :=
  match o with
  | JDict d => match assoc k d with Some v => Ok v | None => Err KeyError end
  | _ => Err TypeError
  end.

(** [o[k] = v] for a string key *)
Definition py_setitem (o : json) (k : string) (v : json) : result json :=
  match o with
  | JDict d => Ok (JDict (dict_set k v d))
  | _ => Err TypeError
  end.

(** A Python set of hashable values, kept without [==]-duplicates. *)
Definition set_add (v : json) (s : list json) : result (list json) :=
  if py_hashable v
  then Ok (if existsb (py_eq v) s then s else s ++ [v])
  else Err TypeError.

(** ** Constants *)

(** A4 page dimensions in points *)
Definition A4_WIDTH_PT : json := JFloat (float_const 595).
Definition A4_HEIGHT_PT : json := JFloat (float_const 842).

(** Default rect width for visualization (probes do not capture width) *)
Definition DEFAULT_RECT_WIDTH : json := JFloat (float_const 400).

(** The default [0.0] of the start position. *)
Definition FLOAT_ZERO : json := JFloat (SpecFloat.S754_zero false).

(** ** Data structures *)

(** A single rectangle on a specific page. *)
Module Rect.
Record t := mk {
  page : json;
  x : json;
  y : json;
  w : json;
  h : json
}.
End Rect.

(** A reference to a [ShadowNode] object: its index in the store. *)
Abbreviation ref := nat.

Module ShadowNode.
Record t := mk {
  kind : json;
  id : json;
  seq_start : json;
  children : list ref;
  rects : list Rect.t;
  payload : json;
  is_atomic : bool;
  _start_page : json;
  _start_x : json;
  _start_y : json
}.

(** The dataclass constructor with the defaults of the fields it is not
    given. *)
Definition new (kind id seq_start payload : json) (is_atomic : bool) : t :=
  mk kind id seq_start [] [] payload is_atomic (JInt 1) FLOAT_ZERO FLOAT_ZERO.

Definition with_rects (self : t) (rs : list Rect.t) : t :=
  mk (kind self) (id self) (seq_start self) (children self) rs (payload self)
     (is_atomic self) (_start_page self) (_start_x self) (_start_y self).

Definition with_payload (self : t) (p : json) : t :=
  mk (kind self) (id self) (seq_start self) (children self) (rects self) p
     (is_atomic self) (_start_page self) (_start_x self) (_start_y self).

(** [self.children.append(node)] *)
Definition add_child (self : t) (node : ref) : t :=
  mk (kind self) (id self) (seq_start self) (children self ++ [node]) (rects self)
     (payload self) (is_atomic self) (_start_page self) (_start_x self) (_start_y self).

(** Record start position for later split calculation. *)
Definition set_start (self : t) (location : json) : result t :=
  p ← py_get location "page" (JInt 1);
  sx ← py_get location "x" (JInt 0);
  sy ← py_get location "y" (JInt 0);
  mret (mk (kind self) (id self) (seq_start self) (children self) (rects self)
           (payload self) (is_atomic self) p sx sy).

(** Close node and calculate geometry: one rect when the node starts and
    ends on the same page, two rects otherwise. *)
Definition close (self : t) (end_location : json) : result t :=
  end_page ← py_get end_location "page" (JInt 1);
  end_x ← py_get end_location "x" (JInt 0);
  end_y ← py_get end_location "y" (JInt 0);
  if py_eq (_start_page self) end_page then
    d ← py_sub end_y (_start_y self);
    h ← py_max d (JInt 15);
    mret (with_rects self
            (rects self ++
             [Rect.mk (_start_page self) (_start_x self) (_start_y self)
                      DEFAULT_RECT_WIDTH h]))
  else
    d ← py_sub A4_HEIGHT_PT (_start_y self);
    h1 ← py_sub d (JInt 50);
    hh1 ← py_max h1 (JInt 50);
    let rects1 :=
      rects self ++
      [Rect.mk (_start_page self) (_start_x self) (_start_y self)
               DEFAULT_RECT_WIDTH hh1] in
    d2 ← py_sub end_y (JInt 50);
    hh2 ← py_max d2 (JInt 50);
    mret (with_rects self
            (rects1 ++ [Rect.mk end_page end_x (JInt 50) DEFAULT_RECT_WIDTH hh2])).

(** Add a single rect for atomic (non-paired) probes. *)
Definition add_atomic_rect (self : t) (location : json) : result t :=
  p ← py_get location "page" (JInt 1);
  ax ← py_get location "x" (JInt 0);
  ay ← py_get location "y" (JInt 0);
  mret (with_rects self (rects self ++ [Rect.mk p ax ay (JInt 10) (JInt 10)])).
End ShadowNode.

(** ** The object store *)

Abbreviation store := (list ShadowNode.t).

(** Apply a method to the object behind [r], in place. *)
Definition modify (r : ref) (f : ShadowNode.t → result ShadowNode.t) (s : store)
  : result store :=
  match s !! r with
  | Some n => n' ← f n; mret (<[r := n']> s)
  | None => Err StaleRef
  end.

(** ** Core algorithm *)

(** The local state of [build_shadow_dom]: the objects allocated so far, the
    stack (its head is Python's [stack[-1]]), the set [pages_seen], and two
    counters that record how often [stack.append] and [stack.pop] ran. *)
Record build_state := BuildState {
  objs : store;
  stack : list ref;
  pages_seen : list json;
  pushes : nat;
  pops : nat
}.

Definition probe := list (string * json).

Definition root_ref : ref := 0.

Definition root_node : ShadowNode.t :=
  ShadowNode.new (JStr "DOCUMENT") (JStr "ROOT") (JInt 0) (JDict []) false.

Definition init_state : build_state :=
  BuildState [root_node] [root_ref] [] 0 0.

(** [if "page" in location: pages_seen.add(location["page"])] *)
Definition note_page (location : json) (seen : list json) : result (list json) :=
  has_page ← py_in "page" location;
  if has_page : bool
  then pg ← py_getitem location "page"; set_add pg seen
  else mret seen.

(** One iteration of the loop over the probes.  A new object gets the next
    free index [r] of the store; [current_parent.add_child(node)] appends
    [r] to the children of the object on top of the stack. *)
Definition step (st : build_state) (p : probe) : result build_state :=
  let probe_id := dict_get p "id" (JStr "unknown") in
  let payload := dict_get p "payload" (JDict []) in
  let location := dict_get p "location" (JDict []) in
  let seq := dict_get p "_seq" (JInt 0) in
  kind ← py_get payload "kind" (dict_get p "kind" (JStr "marker"));
  edge ← py_get payload "edge" JNull;
  seen ← note_page location (pages_seen st);
  match stack st with
  | [] => Err IndexError
  | current_parent :: below =>
      if py_eq edge (JStr "start") then
        new_id ← py_replace probe_id "-start" "";
        node ← ShadowNode.set_start (ShadowNode.new kind new_id seq payload false) location;
        let r := length (objs st) in
        objs' ← modify current_parent (fun par => mret (ShadowNode.add_child par r))
                       (objs st);
        mret (BuildState (objs' ++ [node]) (r :: stack st) seen (S (pushes st)) (pops st))
      else if py_eq edge (JStr "end") then
        if (1 <? length (stack st))%nat then
          objs' ← modify current_parent (fun closed => ShadowNode.close closed location)
                         (objs st);
          mret (BuildState objs' below seen (pushes st) (S (pops st)))
        else
          mret (BuildState (objs st) (stack st) seen (pushes st) (pops st))
      else
        node ← ShadowNode.add_atomic_rect
                 (ShadowNode.new kind probe_id seq payload true) location;
        let r := length (objs st) in
        objs' ← modify current_parent (fun par => mret (ShadowNode.add_child par r))
                       (objs st);
        mret (BuildState (objs' ++ [node]) (stack st) seen (pushes st) (pops st))
  end.

(** The loop. *)
Fixpoint run (st : build_state) (probes : list probe) : result build_state :=
  match probes with
  | [] => mret st
  | p :: rest => st' ← step st p; run st' rest
  end.

(** Build tree with fragmented geometry support: the final store and the
    reference to the root. *)
Definition build_shadow_dom (probes : list probe) : result (store * ref) :=
  st ← run init_state probes;
  objs' ← modify root_ref
            (fun root =>
               pl ← py_setitem (ShadowNode.payload root) "pages"
                      (JInt (Z.of_nat (length (pages_seen st))));
               mret (ShadowNode.with_payload root pl))
            (objs st);
  mret (objs', root_ref).

(** ** Vocabulary of the specification *)

(** The three roles of a probe, as the loop body tells them apart: the
    value under [payload["edge"]] compared with ["start"] and ["end"]. *)
Inductive marker := MStart | MEnd | MAtomic.

Definition classify (edge : json) : marker :=
  if py_eq edge (JStr "start") then MStart
  else if py_eq edge (JStr "end") then MEnd
  else MAtomic.

Definition probe_payload (p : probe) : json := dict_get p "payload" (JDict []).
Definition probe_location (p : probe) : json := dict_get p "location" (JDict []).

(** The fields of a probe the loop body reads, with their defaults. *)
Definition probe_id (p : probe) : json := dict_get p "id" (JStr "unknown").
Definition probe_seq (p : probe) : json := dict_get p "_seq" (JInt 0).
Definition probe_kind (p : probe) (d : list (string * json)) : json :=
  dict_get d "kind" (dict_get p "kind" (JStr "marker")).

(** The components of a location, with the defaults of the code. *)
Definition loc_page (d : list (string * json)) : json := dict_get d "page" (JInt 1).
Definition loc_x (d : list (string * json)) : json := dict_get d "x" (JInt 0).
Definition loc_y (d : list (string * json)) : json := dict_get d "y" (JInt 0).

(** The object the atomic branch creates for probe [p] with payload [d]
    and location [l]. *)
Definition atomic_node (p : probe) (d l : list (string * json)) : ShadowNode.t :=
  ShadowNode.mk (probe_kind p d) (probe_id p) (probe_seq p) []
    [Rect.mk (loc_page l) (loc_x l) (loc_y l) (JInt 10) (JInt 10)]
    (JDict d) true (JInt 1) FLOAT_ZERO FLOAT_ZERO.

(** The store after a new object [node] was allocated and appended to the
    children of [par], the object behind [top]. *)
Definition attach (s : store) (top : ref) (par node : ShadowNode.t) : store :=
  <[top := ShadowNode.add_child par (length s)]> s ++ [node].

(** The role of probe [p]; a probe whose payload is no object has none
    (the builder raises on it). *)
Definition marker_of (p : probe) : marker :=
  match probe_payload p with
  | JDict d => classify (dict_get d "edge" JNull)
  | _ => MAtomic
  end.

(** A well-nested sequence: read left to right, every [end] finds a
    [start] that is still open (so it closes the most recent one), and at
    the end of the sequence nothing is left open.  [depth] is the number of
    open [start]s. *)
Fixpoint well_nested_from (depth : nat) (probes : list probe) : bool :=
  match probes with
  | [] => Nat.eqb depth 0
  | p :: rest =>
      match marker_of p with
      | MStart => well_nested_from (S depth) rest
      | MEnd =>
          match depth with
          | O => false
          | S d => well_nested_from d rest
          end
      | MAtomic => well_nested_from depth rest
      end
  end.

Definition well_nested (probes : list probe) : bool := well_nested_from 0 probes.

(** The same as a grammar over the markers: nothing, an atomic probe
    before a balanced sequence, or a balanced sequence between a [start]
    and its [end], followed by a balanced sequence. *)
Inductive balanced : list marker → Prop :=
| balanced_nil : balanced []
| balanced_atomic l : balanced l → balanced (MAtomic :: l)
| balanced_pair l1 l2 :
    balanced l1 → balanced l2 → balanced (MStart :: l1 ++ MEnd :: l2).

(** A sequence that never closes more than it opened: the [start]s that
    are open before it stay open. *)
Fixpoint stays_open_from (depth : nat) (probes : list probe) : bool :=
  match probes with
  | [] => true
  | p :: rest =>
      match marker_of p with
      | MStart => stays_open_from (S depth) rest
      | MEnd =>
          match depth with
          | O => false
          | S d => stays_open_from d rest
          end
      | MAtomic => stays_open_from depth rest
      end
  end.

(** The shape of a probe record the producer promises: the identifier a
    string, payload and location objects, the page an integer, x and y
    numbers; every field may be missing. *)
Definition opt_all (P : json → bool) (o : option json) : bool :=
  match o with Some v => P v | None => true end.

Definition is_number (v : json) : bool :=
  match v with JInt _ | JFloat _ => true | _ => false end.
Definition is_int (v : json) : bool :=
  match v with JInt _ => true | _ => false end.
Definition is_str (v : json) : bool :=
  match v with JStr _ => true | _ => false end.
Definition is_dict (v : json) : bool :=
  match v with JDict _ => true | _ => false end.

Definition location_wf (l : json) : bool :=
  match l with
  | JDict d =>
      opt_all is_int (assoc "page" d) && opt_all is_number (assoc "x" d)
      && opt_all is_number (assoc "y" d)
  | _ => false
  end.

Definition probe_wf (p : probe) : bool :=
  opt_all is_str (assoc "id" p) && opt_all is_dict (assoc "payload" p)
  && opt_all location_wf (assoc "location" p).

(** [reach s a b]: object [b] is found from object [a] by following
    [children]. *)
Inductive reach (s : store) : ref → ref → Prop :=
| reach_here a n : s !! a = Some n → reach s a a
| reach_child a n c b :
    s !! a = Some n → c ∈ ShadowNode.children n → reach s c b → reach s a b.

(** [extends s s']: every object of [s] is an object of [s'], with the
    children it has in [s] and possibly more after them. *)
Definition extends (s s' : store) : Prop :=
  ∀ r n, s !! r = Some n →
         ∃ n', s' !! r = Some n'
               ∧ ∃ extra, ShadowNode.children n' = ShadowNode.children n ++ extra.

(** [same_but_children n n']: [n'] is [n] with more children at the end;
    this is all that happens to an object while it is open. *)
Definition same_but_children (n n' : ShadowNode.t) : Prop :=
  ∃ extra,
    n' = ShadowNode.mk (ShadowNode.kind n) (ShadowNode.id n) (ShadowNode.seq_start n)
           (ShadowNode.children n ++ extra) (ShadowNode.rects n) (ShadowNode.payload n)
           (ShadowNode.is_atomic n) (ShadowNode._start_page n) (ShadowNode._start_x n)
           (ShadowNode._start_y n).

(** Every child is allocated after its parent, and is in the store. *)
Definition children_ok (s : store) : Prop :=
  ∀ r n c, s !! r = Some n → c ∈ ShadowNode.children n → r < c < length s.

(** Every object of the store is found from the root. *)
Definition all_reach (s : store) : Prop :=
  ∀ r, r < length s → reach s root_ref r.

(** What holds between two iterations of the loop: the root is the bottom
    of the stack, no object is on the stack twice, the objects on the stack
    are open (no rectangle yet, not atomic), every other object has its one
    or two rectangles, the counters differ by the number of open nodes, and
    the store is a forest hanging from the root. *)
Record inv (st : build_state) : Prop := Inv {
  inv_root : last (stack st) = Some root_ref;
  inv_nodup : NoDup (stack st);
  inv_bound : ∀ r, r ∈ stack st → r < length (objs st);
  inv_open : ∀ r n, r ∈ stack st → objs st !! r = Some n →
             ShadowNode.rects n = [] ∧ ShadowNode.is_atomic n = false;
  inv_done : ∀ r n, r ∉ stack st → objs st !! r = Some n →
             length (ShadowNode.rects n) = 1
             ∨ (ShadowNode.is_atomic n = false ∧ length (ShadowNode.rects n) = 2);
  inv_count : pushes st + 1 = pops st + length (stack st);
  inv_children : children_ok (objs st);
  inv_reach : all_reach (objs st)
}.

(** The root object stays what the builder made it; only its children
    grow. *)
Definition root_kept (s : store) : Prop :=
  ∃ n, s !! root_ref = Some n
       ∧ ShadowNode.kind n = JStr "DOCUMENT" ∧ ShadowNode.id n = JStr "ROOT"
       ∧ ShadowNode.payload n = JDict [] ∧ ShadowNode.rects n = [].

(** Is this float NaN? *)
Definition is_nan (f : float) : bool :=
  match f with SpecFloat.S754_nan => true | _ => false end.



(** A [y] the split arithmetic accepts: a float, or an int that can be
    taken as a float. *)
Definition y_ok (v : json) : bool :=
  match v with
  | JInt z => (Z.abs z <? FLOAT_INT_LIMIT)%Z
  | JFloat _ => true
  | _ => false
  end.

Definition probe_y_ok (p : probe) : bool :=
  match probe_location p with
  | JDict d => opt_all y_ok (assoc "y" d)
  | _ => true
  end.

(** The open nodes other than the root were opened at such a [y]. *)
Definition open_numeric (st : build_state) : Prop :=
  ∀ r n, r ∈ stack st → r ≠ root_ref → objs st !! r = Some n →
         y_ok (ShadowNode._start_y n) = true.

(** [v] is a number and [v < c] is false: it is [c] or more, or NaN. *)
Definition not_below (c : Z) (v : json) : Prop :=
  ∃ x, xnum_of v = Some x ∧ xnum_ltb x (XFin (inject_Z c)) = false.


(** The geometry of a rectangle as the renderers read it: [x], [y] is the
    left and the top ([left:x; top:y] in the overlay, [y] to [y + h] in the
    summary), so the centre lies half the extent further. *)
Definition rect_centre (r : Rect.t) : option (Q * Q) :=
  match num_val (Rect.x r), num_val (Rect.y r), num_val (Rect.w r), num_val (Rect.h r) with
  | Some x, Some y, Some w, Some h => Some (x + w / 2, y + h / 2)%Q
  | _, _, _, _ => None
  end.

(** Is the centre of [r] the point ([x], [y])? *)
Definition centred_at (r : Rect.t) (x y : json) : bool :=
  match rect_centre r, num_val x, num_val y with
  | Some (cx, cy), Some qx, Some qy => Qeq_bool cx qx && Qeq_bool cy qy
  | _, _, _ => false
  end.

(** Removing a trailing [suffix], as [str.removesuffix]. *)
Definition remove_suffix (s suffix : string) : string :=
  let n := String.length s - String.length suffix in
  if (String.length suffix <=? String.length s)%nat
     && String.eqb (String.substring n (String.length suffix) s) suffix
  then String.substring 0 n s
  else s.

(** ** Rendering *)

(** The interpreter converts an int to text only below this magnitude (at
    most 4300 digits). *)
Definition INT_STR_LIMIT : Z := 10 ^ 4300.

Definition dq : string := String (Ascii.ascii_of_nat 34) EmptyString.
Definition nl : string := String (Ascii.ascii_of_nat 10) EmptyString.

Fixpoint foldM {A B} (f : A → B → result A) (a : A) (l : list B) : result A :=
  match l with
  | [] => mret a
  | b :: l' => a' ← f a b; foldM f a' l'
  end.

(** [a < b] between dictionary keys: numbers by value, strings by code
    point; any other pair raises. *)
Definition key_lt (a b : json) : result bool :=
  match a, b with
  | JStr s, JStr t => Ok (String.ltb s t)
  | _, _ =>
      match xnum_of a, xnum_of b with
      | Some x, Some y => Ok (xnum_ltb x y)
      | _, _ => Err TypeError
      end
  end.

Fixpoint sorted_insert (k : json) (l : list json) : result (list json) :=
  match l with
  | [] => mret [k]
  | k' :: l' =>
      lt ← key_lt k k';
      if lt : bool then mret (k :: l)
      else l'' ← sorted_insert k l'; mret (k' :: l'')
  end.

(** [sorted(keys)] for pairwise different keys *)
Definition py_sorted (keys : list json) : result (list json) :=
  foldM (fun acc k => sorted_insert k acc) [] keys.

(** One collected triple: [(node.kind, node.id, rect)] *)
Definition triple : Type := json * json * Rect.t.

(** A dict with values as keys, for [rects_by_page]. *)
Fixpoint vassoc {A} (k : json) (d : list (json * A)) : option A :=
  match d with
  | [] => None
  | (k', v) :: d' => if py_eq k' k then Some v else vassoc k d'
  end.

Fixpoint vappend {A} (k : json) (v : A) (d : list (json * list A)) : list (json * list A) :=
  match d with
  | [] => [(k, [v])]
  | (k', vs) :: d' => if py_eq k' k then (k', vs ++ [v]) :: d' else (k', vs) :: vappend k v d'
  end.

(** Recursively collect all rects with their node info.  The state is the
    store together with the [results] list the caller passes in; [fuel]
    bounds the depth of the recursion, as the interpreter does. *)
Fixpoint collect_all_rects (fuel : nat) (node : ref) (st : store * list triple)
  : result (store * list triple) :=
  match fuel with
  | O => Err RecursionError
  | S fuel' =>
      match st.1 !! node with
      | None => Err StaleRef
      | Some n =>
          let results :=
            st.2 ++ map (fun rect => (ShadowNode.kind n, ShadowNode.id n, rect))
                        (ShadowNode.rects n) in
          foldM (fun acc child => collect_all_rects fuel' child acc)
                (st.1, results) (ShadowNode.children n)
      end
  end.

(** The literal pieces of the overlay document. *)
Definition HTML_PAGE_OPEN_1 : string :=
  nl +:+ "    <div class=" +:+ dq +:+ "page-container" +:+ dq +:+ ">" +:+ nl +:+
  "        <div class=" +:+ dq +:+ "page-label" +:+ dq +:+ ">Page ".
Definition HTML_PAGE_OPEN_2 : string :=
  "</div>" +:+ nl +:+ "        <div class=" +:+ dq +:+ "page" +:+ dq +:+ ">".
Definition HTML_PAGE_CLOSE : string :=
  nl +:+ "        </div>" +:+ nl +:+ "    </div>".
Definition HTML_FOOT : string :=
  nl +:+ "</body>" +:+ nl +:+ "</html>".
Definition HTML_HEAD : string :=
  String.concat nl
    [ "<!DOCTYPE html>";
      "<html>";
      "<head>";
      "    <meta charset=" +:+ dq +:+ "UTF-8" +:+ dq +:+ ">";
      "    <title>Shadow DOM Debug Overlay</title>";
      "    <style>";
      "        body {";
      "            font-family: -apple-system, BlinkMacSystemFont, 'Segoe UI', Roboto, sans-serif;";
      "            background: #1a1a2e;";
      "            color: #eee;";
      "            padding: 20px;";
      "        }";
      "        h1 { color: #00d4ff; }";
      "        .page-container {";
      "            display: inline-block;";
      "            margin: 20px;";
      "            vertical-align: top;";
      "        }";
      "        .page-label {";
      "            text-align: center;";
      "            margin-bottom: 10px;";
      "            font-weight: bold;";
      "        }";
      "        .page {";
      "            width: 595px;";
      "            height: 842px;";
      "            background: white;";
      "            position: relative;";
      "            border: 2px solid #333;";
      "            box-shadow: 0 4px 20px rgba(0,0,0,0.5);";
      "        }";
      "        .rect {";
      "            position: absolute;";
      "            border: 2px solid rgba(255, 50, 50, 0.8);";
      "            background: rgba(255, 50, 50, 0.15);";
      "            cursor: pointer;";
      "            transition: all 0.2s;";
      "            box-sizing: border-box;";
      "        }";
      "        .rect:hover {";
      "            background: rgba(255, 50, 50, 0.4);";
      "            border-color: #ff0000;";
      "            z-index: 100;";
      "        }";
      "        .rect .tooltip {";
      "            display: none;";
      "            position: absolute;";
      "            top: -30px;";
      "            left: 0;";
      "            background: #222;";
      "            color: #fff;";
      "            padding: 4px 8px;";
      "            border-radius: 4px;";
      "            font-size: 12px;";
      "            white-space: nowrap;";
      "            z-index: 1000;";
      "        }";
      "        .rect:hover .tooltip {";
      "            display: block;";
      "        }";
      "        .legend {";
      "            margin-bottom: 20px;";
      "            padding: 15px;";
      "            background: #16213e;";
      "            border-radius: 8px;";
      "        }";
      "    </style>";
      "</head>";
      "<body>";
      "    <h1>üîç Shadow DOM Debug Overlay</h1>";
      "    <div class=" +:+ dq +:+ "legend" +:+ dq +:+ ">";
      "        <strong>Legend:</strong> Red boxes = Probe regions | Hover for details | ";
      "        Total: " ].

Section Rendering.
(** Python's text for floats and containers ([str]) and its fixed-point
    format [format(v, ".Nf")] depend on the decimal expansion of floats;
    the renderers are modelled over any such pair of functions.  Both may
    raise: [str] of a container that holds an int too long to print,
    [format] of an int too large for a float or of what is no number. *)
Variable repr_other : json → result string.
Variable fmt_fixed : nat → json → result string.

(** [str(v)], as an f-string inserts it.  The text of an int of more than
    4300 digits is refused (the interpreter's default limit on the
    conversion). *)
Definition py_str (v : json) : result string :=
  match v with
  | JNull => Ok "None"
  | JBool true => Ok "True"
  | JBool false => Ok "False"
  | JInt n => if (Z.abs n <? INT_STR_LIMIT)%Z then Ok (pretty n) else Err ValueError
  | JStr s => Ok s
  | _ => repr_other v
  end.

(** Get brief summary for ASCII tree *)
Definition get_summary (self : ShadowNode.t) : result string :=
  match ShadowNode.rects self with
  | [] => mret ""
  | [r] =>
      sp ← py_str (Rect.page r);
      fy ← fmt_fixed 0 (Rect.y r);
      bottom ← py_add (Rect.y r) (Rect.h r);
      fb ← fmt_fixed 0 bottom;
      mret ("(p" +:+ sp +:+ ", y:" +:+ fy +:+ "-" +:+ fb +:+ ")")
  | rs =>
      pset ← foldM (fun acc r => set_add (Rect.page r) acc) [] rs;
      pages ← py_sorted pset;
      match head pages, last pages with
      | Some p0, Some p1 =>
          s0 ← py_str p0;
          s1 ← py_str p1;
          mret ("(p" +:+ s0 +:+ "-p" +:+ s1 +:+ ", "
                +:+ pretty (length rs) +:+ " frags)")
      | _, _ => Err IndexError
      end
  end.

(** The bracketed secondary type of a node line *)
Definition payload_info (self : ShadowNode.t) : result string :=
  if py_truthy (ShadowNode.payload self) then
    ty ← py_get (ShadowNode.payload self) "type" JNull;
    ptype ← (if py_truthy ty then mret ty
             else py_get (ShadowNode.payload self) "kind" (JStr ""));
    if py_truthy ptype && negb (py_eq ptype (ShadowNode.kind self))
    then st ← py_str ptype; mret (" [" +:+ st +:+ "]")
    else mret ""
  else mret "".

(** Generate ASCII tree representation *)
Fixpoint to_tree_string (fuel : nat) (s : store) (self : ref)
         (prefix : string) (is_last : bool) : result string :=
  match fuel with
  | O => Err RecursionError
  | S fuel' =>
      match s !! self with
      | None => Err StaleRef
      | Some n =>
          let connector := if is_last then "‚îî‚îÄ‚îÄ " else "‚îú‚îÄ‚îÄ " in
          let child_prefix := prefix +:+ (if is_last then "    " else "‚îÇ   ") in
          summary ← get_summary n;
          info ← payload_info n;
          sk ← py_str (ShadowNode.kind n);
          si ← py_str (ShadowNode.id n);
          let line :=
            prefix +:+ connector +:+ "[" +:+ sk +:+ ":"
            +:+ si +:+ "]" +:+ info +:+ " " +:+ summary +:+ nl in
          (fix each (cs : list ref) (line : string) : result string :=
             match cs with
             | [] => mret line
             | c :: cs' =>
                 sub ← to_tree_string fuel' s c child_prefix
                         (bool_decide (cs' = []));
                 each cs' (line +:+ sub)
             end) (ShadowNode.children n) line
      end
  end.

(** Print ASCII tree: the text written to standard output. *)
Definition print_tree (fuel : nat) (s : store) (root : ref) : result string :=
  match s !! root with
  | None => Err StaleRef
  | Some n =>
      pages ← py_get (ShadowNode.payload n) "pages" (JInt 1);
      sp ← py_str pages;
      let first := "[DOCUMENT-ROOT] (Pages: " +:+ sp +:+ ")" +:+ nl in
      (fix each (cs : list ref) (out : string) : result string :=
         match cs with
         | [] => mret out
         | c :: cs' =>
             sub ← to_tree_string fuel s c "" (bool_decide (cs' = []));
             each cs' (out +:+ sub)
         end) (ShadowNode.children n) first
  end.

(** Group rects by page. *)
Definition group_by_page (all_rects : list triple)
  : result (list (json * list triple)) :=
  foldM (fun acc (t : triple) =>
           if py_hashable (Rect.page t.2)
           then mret (vappend (Rect.page t.2) t acc)
           else Err TypeError)
        [] all_rects.

(** One positioned region of a page *)
Definition rect_div (t : triple) : result string :=
  let '(kind, node_id, rect) := t in
  left ← fmt_fixed 1 (Rect.x rect);
  top ← fmt_fixed 1 (Rect.y rect);
  width ← fmt_fixed 1 (Rect.w rect);
  height ← fmt_fixed 1 (Rect.h rect);
  sk ← py_str kind;
  si ← py_str node_id;
  mret (nl +:+ "            <div class=" +:+ dq +:+ "rect" +:+ dq +:+ " style=" +:+ dq
        +:+ "left:" +:+ left +:+ "px; top:" +:+ top +:+ "px; width:" +:+ width
        +:+ "px; height:" +:+ height +:+ "px;" +:+ dq +:+ ">" +:+ nl
        +:+ "                <span class=" +:+ dq +:+ "tooltip" +:+ dq +:+ ">["
        +:+ sk +:+ "] " +:+ si +:+ "</span>" +:+ nl
        +:+ "            </div>").

(** The container of one page: label, canvas, regions. *)
Definition page_parts (rects_by_page : list (json * list triple)) (page_num : json)
  : result (list string) :=
  sp ← py_str page_num;
  match vassoc page_num rects_by_page with
  | None => Err KeyError
  | Some ts =>
      divs ← foldM (fun acc t => d ← rect_div t; mret (acc ++ [d])) [] ts;
      mret ([HTML_PAGE_OPEN_1 +:+ sp +:+ HTML_PAGE_OPEN_2]
            ++ divs ++ [HTML_PAGE_CLOSE])
  end.

(** Generate HTML visualization file: the pieces of [html_parts], whose
    concatenation is the text written to the file. *)
Definition export_html_parts (fuel : nat) (s : store) (root : ref)
  : result (list string) :=
  match s !! root with
  | None => Err StaleRef
  | Some n =>
      pages ← py_get (ShadowNode.payload n) "pages" (JInt 1);
      collected ← collect_all_rects fuel root (s, []);
      let all_rects := collected.2 in
      rects_by_page ← group_by_page all_rects;
      sp ← py_str pages;
      let head_part :=
        HTML_HEAD +:+ pretty (length all_rects) +:+ " rects across "
        +:+ sp +:+ " pages" +:+ nl +:+ "    </div>" +:+ nl in
      keys ← py_sorted (map fst rects_by_page);
      panels ← foldM (fun acc k => ps ← page_parts rects_by_page k; mret (acc ++ ps))
                     [] keys;
      mret ([head_part] ++ panels ++ [HTML_FOOT])
  end.

Definition export_html (fuel : nat) (s : store) (root : ref) : result string :=
  parts ← export_html_parts fuel s root;
  mret (String.concat "" parts).
End Rendering.

(** ** Trees, for the specification of the collector *)

(** The tree an object stands for: the object and the trees of its
    children, in stored order. *)
Inductive tree := TNode (n : ShadowNode.t) (kids : list tree).

(** [repr s r t]: in store [s], the object behind [r] and what hangs from
    it is the tree [t]. *)
Inductive repr (s : list ShadowNode.t) : ref → tree → Prop :=
| repr_node r n kids :
    s !! r = Some n →
    Forall2 (repr s) (ShadowNode.children n) kids →
    repr s r (TNode n kids).

(** Pre-order: the parent before its children, the children in stored
    order. *)
Fixpoint preorder (t : tree) : list ShadowNode.t :=
  match t with
  | TNode n kids => n :: flat_map preorder kids
  end.

(** The triples of one node: its rectangles in stored order, each with the
    node's kind and id. *)
Definition node_triples (n : ShadowNode.t) : list triple :=
  map (fun rect => (ShadowNode.kind n, ShadowNode.id n, rect)) (ShadowNode.rects n).

(** The list the specification asks of the collector. *)
Definition preorder_triples (t : tree) : list triple :=
  flat_map node_triples (preorder t).

(** The sum of the rectangle counts over all nodes. *)
Definition rect_count (t : tree) : nat :=
  sum_list (map (fun n => length (ShadowNode.rects n)) (preorder t)).

(** The number of nodes on the longest path from the root down. *)
Fixpoint height (t : tree) : nat :=
  match t with
  | TNode _ kids => S (max_list (map height kids))
  end.

(** ** Scenarios *)

(** Probe records of the usual shape, for the scenarios. *)
Definition mk_location (page x y : Z) : json :=
  JDict [("page", JInt page); ("x", JInt x); ("y", JInt y)].

Definition mk_probe (seq : Z) (id : string) (edge : list (string * json))
           (location : json) : probe :=
  [("_seq", JInt seq); ("id", JStr id); ("payload", JDict edge); ("location", location)].

Definition edge_start : list (string * json) := [("edge", JStr "start")].
Definition edge_end : list (string * json) := [("edge", JStr "end")].

(** Scenario 1 of the specification, and a nested variant with an atomic
    probe inside. *)
Definition scenario_1 : list probe :=
  [mk_probe 0 "p1-start" edge_start (mk_location 1 0 100);
   mk_probe 1 "p1-end" edge_end (mk_location 1 0 140)].

Definition scenario_nested : list probe :=
  [mk_probe 0 "sec-start" edge_start (mk_location 1 0 100);
   mk_probe 1 "p1-start" edge_start (mk_location 1 0 120);
   mk_probe 2 "mark" [] (mk_location 1 5 130);
   mk_probe 3 "p1-end" edge_end (mk_location 1 0 140);
   mk_probe 4 "sec-end" edge_end (mk_location 2 0 90)].

(** Scenario 2: a node that starts on page 1 and ends on page 2. *)
Definition scenario_2 : list probe :=
  [mk_probe 0 "p1-start" edge_start (mk_location 1 0 800);
   mk_probe 1 "p1-end" edge_end (mk_location 2 0 100)].

(** Scenario 4: an [end] without [start]. *)
Definition scenario_4 : list probe :=
  [mk_probe 0 "p1-end" edge_end (mk_location 1 0 140)].

(** A [start] that is never closed, with an atomic probe inside. *)
Definition scenario_unclosed : list probe :=
  [mk_probe 0 "sec-start" edge_start (mk_location 1 0 100);
   mk_probe 1 "mark" [] (mk_location 1 5 130)].

Definition FLOAT_NAN : json := JFloat SpecFloat.S754_nan.

Definition mk_location_y (page : Z) (y : json) : json :=
  JDict [("page", JInt page); ("x", JInt 0); ("y", y)].



Definition FLOAT_HALF : json :=
  JFloat (SpecFloat.S754_finite false 4503599627370496 (-53)).

Definition scenario_huge_same : list probe :=
  [mk_probe 0 "p1-start" edge_start (mk_location_y 1 (JInt (2 ^ 1024)));
   mk_probe 1 "p1-end" edge_end (mk_location_y 1 FLOAT_HALF)].

(** The float nearest to 0.1, and a node opened there and closed on the
    next page. *)
Definition FLOAT_TENTH : json :=
  JFloat (SpecFloat.S754_finite false 7205759403792794 (-56)).

Definition scenario_tenth : list probe :=
  [mk_probe 0 "p1-start" edge_start (mk_location_y 1 FLOAT_TENTH);
   mk_probe 1 "p1-end" edge_end (mk_location_y 2 (JInt 100))].

(** A fresh paired node, as the [start] branch makes it. *)
Definition sample_node : ShadowNode.t :=
  ShadowNode.new (JStr "marker") (JStr "p1") (JInt 0) (JDict edge_start) false.

Definition loc_dict (page x y : Z) : list (string * json) :=
  [("page", JInt page); ("x", JInt x); ("y", JInt y)].

(** Sample probes: an atomic one, one whose marker is not spelled as the
    code expects, and a [start] whose identifier holds the suffix twice. *)
Definition probe_mark : probe := mk_probe 0 "mark" [] (mk_location 1 3 4).
Definition probe_origin : probe := mk_probe 0 "mark" [] (mk_location 1 0 0).
Definition probe_upper : probe :=
  mk_probe 0 "p1-end" [("edge", JStr "END")] (mk_location 1 3 4).
Definition probe_twice : probe :=
  mk_probe 0 "a-start-b-start" edge_start (mk_location 1 0 0).
Definition probe_plain : probe :=
  mk_probe 0 "p1-start" edge_start (mk_location 1 0 100).
Definition probe_bare : probe :=
  mk_probe 0 "p1" edge_start (mk_location 1 0 100).
Definition probe_end : probe :=
  mk_probe 0 "p1-end" edge_end (mk_location 1 0 140).

(** A store with a tree of three nodes: a root with two rectangles, and
    below it a node that has an atomic child. *)
Definition sample_root : ShadowNode.t :=
  ShadowNode.mk (JStr "DOCUMENT") (JStr "ROOT") (JInt 0) [1]
    [Rect.mk (JInt 1) (JInt 0) (JInt 0) (JInt 10) (JInt 10);
     Rect.mk (JInt 2) (JInt 0) (JInt 0) (JInt 10) (JInt 10)]
    (JDict []) false (JInt 1) FLOAT_ZERO FLOAT_ZERO.

Definition sample_mid : ShadowNode.t :=
  ShadowNode.mk (JStr "marker") (JStr "p1") (JInt 0) [2]
    [Rect.mk (JInt 1) (JInt 0) (JInt 100) DEFAULT_RECT_WIDTH (JInt 40)]
    (JDict []) false (JInt 1) (JInt 0) (JInt 100).

Definition sample_leaf : ShadowNode.t :=
  ShadowNode.mk (JStr "marker") (JStr "mark") (JInt 1) []
    [Rect.mk (JInt 1) (JInt 5) (JInt 130) (JInt 10) (JInt 10)]
    (JDict []) true (JInt 1) FLOAT_ZERO FLOAT_ZERO.

Definition sample_store : list ShadowNode.t := [sample_root; sample_mid; sample_leaf].

Definition sample_tree : tree :=
  TNode sample_root [TNode sample_mid [TNode sample_leaf []]].

(** ** Vocabulary of the further properties *)

(** Does probe [p] make a node?  Every probe but an [end] does. *)
Definition creates_node (p : probe) : bool :=
  match marker_of p with
  | MEnd => false
  | _ => true
  end.

(** The fields of a probe record the loop body reads. *)
Definition fields_read : list string := ["id"; "payload"; "location"; "_seq"; "kind"].

(** A rectangle as [close] makes it: of the configured width, and with
    a height that is not below 15. *)
Definition paired_rect_ok (r : Rect.t) : Prop :=
  Rect.w r = DEFAULT_RECT_WIDTH ∧ not_below 15 (Rect.h r).

(** What a node of the tree looks like: an atomic node is a leaf with
    one rectangle, 10 by 10; any other node has at most two rectangles,
    made by [close]. *)
Definition node_census (n : ShadowNode.t) : Prop :=
  if ShadowNode.is_atomic n
  then ShadowNode.children n = []
       ∧ ∃ p x y, ShadowNode.rects n = [Rect.mk p x y (JInt 10) (JInt 10)]
  else length (ShadowNode.rects n) ≤ 2
       ∧ Forall paired_rect_ok (ShadowNode.rects n).

(** All the children lists of a store, one after the other. *)
Definition all_children (s : list ShadowNode.t) : list ref :=
  concat (ShadowNode.children <$> s).

(** The children of every object are in the order of their creation. *)
Definition children_increasing (s : list ShadowNode.t) : Prop :=
  ∀ r n i j ci cj,
    s !! r = Some n → i < j →
    ShadowNode.children n !! i = Some ci → ShadowNode.children n !! j = Some cj →
    ci < cj.

(** The page a probe reports, if its location has one, and the integer
    pages of a sequence of probes. *)
Definition probe_page (p : probe) : option json :=
  match probe_location p with
  | JDict l => assoc "page" l
  | _ => None
  end.

Definition int_page (p : probe) : option Z :=
  match probe_page p with
  | Some (JInt z) => Some z
  | _ => None
  end.

Definition int_pages (probes : list probe) : list Z := omap int_page probes.

(** Two states of the builder that differ at most in the pages seen. *)
Definition same_but_pages (st1 st2 : build_state) : Prop :=
  objs st1 = objs st2 ∧ stack st1 = stack st2
  ∧ pushes st1 = pushes st2 ∧ pops st1 = pops st2.

(** [span s r e]: the object behind [r] and all that hangs from it are the
    objects [r], [r + 1], ..., [e - 1] of the store, and a pre-order walk
    meets them in this order.  [chain s a cs e]: the children [cs], one
    after the other, cover the objects from [a] up to [e] in this way. *)
Inductive span (s : list ShadowNode.t) : ref → nat → Prop :=
| span_node r n e :
    s !! r = Some n → chain s (S r) (ShadowNode.children n) e → span s r e
with chain (s : list ShadowNode.t) : nat → list ref → nat → Prop :=
| chain_nil a : chain s a [] a
| chain_cons a cs m e : span s a m → chain s m cs e → chain s a (a :: cs) e.

(** The open nodes below the open node [c]: each has [c], or the open node
    above it, as its last child, and complete sub-trees before it. *)
Fixpoint open_below (s : list ShadowNode.t) (below : list ref) (c : ref) : Prop :=
  match below with
  | [] => True
  | par :: rest =>
      (∃ n cs, s !! par = Some n ∧ ShadowNode.children n = cs ++ [c]
               ∧ chain s (S par) cs c)
      ∧ open_below s rest par
  end.

(** The stack is the right-most path of the tree: what hangs from the top
    of the stack reaches to the end of the store. *)
Definition open_spans (st : build_state) : Prop :=
  match stack st with
  | [] => False
  | top :: below =>
      (∃ n, objs st !! top = Some n
            ∧ chain (objs st) (S top) (ShadowNode.children n) (length (objs st)))
      ∧ open_below (objs st) below top
  end.

(** The objects [a], ..., [e - 1] of a store *)
Definition slice (s : list ShadowNode.t) (a e : nat) : list ShadowNode.t :=
  take (e - a) (drop a s).

(** A value that is found again as a dict key: hashable, and no NaN.
    (Whether a NaN key is found again depends on the identity of the float
    object, which the model does not have.) *)
Definition py_key (v : json) : bool :=
  py_hashable v && match v with JFloat f => negb (is_nan f) | _ => true end.

(** The triples of [all_rects] whose rectangle is on page [k], in their
    order. *)
Definition on_page (k : json) (all_rects : list triple) : list triple :=
  List.filter (fun t => py_eq k (Rect.page t.2)) all_rects.

(** No two keys of a dict are equal. *)
Definition distinct_keys (ks : list json) : Prop :=
  ∀ i j k k', ks !! i = Some k → ks !! j = Some k' → i ≠ j → py_eq k k' = false.

(** What [rects_by_page] holds after the triples [done] went in. *)
Definition grouped (done : list triple) (acc : list (json * list triple)) : Prop :=
  (∀ k ts, (k, ts) ∈ acc →
           py_key k = true ∧ ts ≠ [] ∧ ts = on_page k done)
  ∧ (∀ t, t ∈ done → ∃ k ts, (k, ts) ∈ acc ∧ py_eq k (Rect.page t.2) = true)
  ∧ distinct_keys acc.*1.

(** A coordinate the renderers can still format after the arithmetic of
    [close] and [get_summary]: a float, or an int below 2^1022 in
    magnitude, so that a sum or a difference of two of them (and of the
    constants of the module) can be taken as a float.  [medium] is what
    such a difference is: a float, or an int below 2^1023. *)
Definition small (v : json) : bool :=
  match v with
  | JInt z => (Z.abs z <? 2 ^ 1022)%Z
  | JFloat _ => true
  | _ => false
  end.

Definition medium (v : json) : bool :=
  match v with
  | JInt z => (Z.abs z <? 2 ^ 1023)%Z
  | JFloat _ => true
  | _ => false
  end.

(** A page number [str] accepts: an int of at most 4300 digits. *)
Definition page_ok (v : json) : bool :=
  match v with
  | JInt z => (Z.abs z <? INT_STR_LIMIT)%Z
  | _ => false
  end.

(** A probe record the renderers can print: of the promised shape, with
    such a page and such coordinates, and with strings where a kind or a
    type is named (in the record and in the payload). *)
Definition location_printable (l : json) : bool :=
  match l with
  | JDict d =>
      opt_all page_ok (assoc "page" d) && opt_all small (assoc "x" d)
      && opt_all small (assoc "y" d)
  | _ => false
  end.

Definition payload_printable (pl : json) : bool :=
  match pl with
  | JDict d => opt_all is_str (assoc "kind" d) && opt_all is_str (assoc "type" d)
  | _ => false
  end.

Definition probe_printable (p : probe) : bool :=
  opt_all is_str (assoc "id" p) && opt_all is_str (assoc "kind" p)
  && opt_all payload_printable (assoc "payload" p)
  && opt_all location_printable (assoc "location" p).

(** A rectangle and a node made of such probes. *)
Definition rect_printable (r : Rect.t) : bool :=
  page_ok (Rect.page r) && small (Rect.x r) && small (Rect.y r)
  && medium (Rect.w r) && medium (Rect.h r).

Definition node_printable (n : ShadowNode.t) : Prop :=
  is_str (ShadowNode.kind n) = true
  ∧ is_str (ShadowNode.id n) = true
  ∧ payload_printable (ShadowNode.payload n) = true
  ∧ page_ok (ShadowNode._start_page n) = true
  ∧ small (ShadowNode._start_x n) = true
  ∧ small (ShadowNode._start_y n) = true
  ∧ Forall (λ r, rect_printable r = true) (ShadowNode.rects n).


(** Stand-ins for the two formatting functions in the examples:
    [fmt_whole] is [format(v, ".Nf")] on whole numbers ([format(7, ".1f")]
    is ["7.0"]), and raises as [format] does on what is no number; its
    text for a float with a fractional part is the whole part only, which
    is not what [format] prints.  The examples format whole numbers. *)
Definition fmt_whole (digits : nat) (v : json) : result string :=
  let frac := match digits with
              | O => ""
              | S _ => "." +:+ String.concat "" (replicate digits "0")
              end in
  match v with
  | JBool b => Ok ((if b then "1" else "0") +:+ frac)
  | JInt z =>
      if (Z.abs z <? FLOAT_INT_LIMIT)%Z then Ok (pretty z +:+ frac)
      else Err OverflowError
  | JFloat f =>
      match float_xnum f with
      | XNaN => Ok "nan"
      | XInf s => Ok (if s then "-inf" else "inf")
      | XFin q => Ok (pretty (Qnum q / Z.pos (Qden q))%Z +:+ frac)
      end
  | JStr _ => Err ValueError
  | _ => Err TypeError
  end.

Definition repr_plain (v : json) : result string := Ok "".

(** What identifies a node: all but its children, its rectangles and the
    start position. *)
Definition same_identity (n n' : ShadowNode.t) : Prop :=
  ShadowNode.kind n' = ShadowNode.kind n
  ∧ ShadowNode.id n' = ShadowNode.id n
  ∧ ShadowNode.seq_start n' = ShadowNode.seq_start n
  ∧ ShadowNode.payload n' = ShadowNode.payload n
  ∧ ShadowNode.is_atomic n' = ShadowNode.is_atomic n.

(** Node [n] carries the fields of probe [p]: its payload, the kind found
    in the payload or else in the record, its sequence number, and its
    identifier, without [-start] when [p] is a [start] probe. *)
Definition made_from (p : probe) (n : ShadowNode.t) : Prop :=
  ∃ d, probe_payload p = JDict d
       ∧ ShadowNode.kind n = probe_kind p d
       ∧ ShadowNode.seq_start n = probe_seq p
       ∧ ShadowNode.payload n = JDict d
       ∧ match marker_of p with
         | MAtomic => ShadowNode.is_atomic n = true ∧ ShadowNode.id n = probe_id p
         | _ => ShadowNode.is_atomic n = false
                ∧ py_replace (probe_id p) "-start" "" = Ok (ShadowNode.id n)
         end.

(** The kind a payload names, if it names one, is equal to itself under
    the [==] of the model, as every value is that neither is NaN nor
    holds one. *)
Definition kind_value_ok (d : list (string * json)) : Prop :=
  ∀ v, assoc "kind" d = Some v → py_eq v v = true.

(** The kind of a node is the kind its payload names, if it names one. *)
Definition kind_from_payload (n : ShadowNode.t) : Prop :=
  ∀ d v, ShadowNode.payload n = JDict d → assoc "kind" d = Some v →
         ShadowNode.kind n = v.

(** A value that is no container: [None], a boolean or a number. *)
Definition is_scalar (v : json) : bool :=
  match v with
  | JNull | JBool _ | JInt _ | JFloat _ => true
  | _ => false
  end.

(** * Verification *)

(** ** The error monad *)

Lemma bind_Ok {A B} (m : result A) (f : A → result B) (b : B) :
  m ≫= f = Ok b ↔ ∃ a, m = Ok a ∧ f a = Ok b.
Proof.
  destruct m as [a|e]; simpl; split.
  - intros H. exists a. done.
  - intros (a' & [= <-] & H). done.
  - discriminate.
  - intros (a' & [=] & _).
Qed.

Ltac bind_inv H :=
  let a := fresh "a" in
  let Ha := fresh "Hbind" in
  apply bind_Ok in H; destruct H as (a & Ha & H).

(** ** Facts about the store *)

Lemma modify_Ok r f (s s' : store) :
  modify r f s = Ok s' ↔ ∃ n n', s !! r = Some n ∧ f n = Ok n' ∧ s' = <[r := n']> s.
Proof.
  unfold modify. destruct (s !! r) as [n|]; split.
  - intros H. bind_inv H. injection H as <-. by exists n, a.
  - intros (n0 & n' & [= <-] & Hf & ->). by rewrite Hf.
  - discriminate.
  - intros (n0 & n' & [=] & _).
Qed.

(** ** The four ways an iteration can go *)

Lemma step_start st p d seen top below par new_id node :
  probe_payload p = JDict d →
  classify (dict_get d "edge" JNull) = MStart →
  note_page (probe_location p) (pages_seen st) = Ok seen →
  stack st = top :: below →
  objs st !! top = Some par →
  py_replace (probe_id p) "-start" "" = Ok new_id →
  ShadowNode.set_start
    (ShadowNode.new (probe_kind p d) new_id (probe_seq p) (JDict d) false)
    (probe_location p) = Ok node →
  step st p =
    Ok (BuildState (attach (objs st) top par node) (length (objs st) :: stack st)
                   seen (S (pushes st)) (pops st)).
Proof.
  intros Hpl Hcl Hseen Hst Hpar Hid Hnode. unfold classify in Hcl.
  destruct (py_eq (dict_get d "edge" JNull) (JStr "start")) eqn:Hs;
    [|by destruct (py_eq _ (JStr "end"))].
  unfold step. fold (probe_payload p) (probe_location p) (probe_id p) (probe_seq p).
  rewrite Hpl. simpl. rewrite Hseen. simpl. rewrite Hst, Hs.
  rewrite Hid. simpl.
  unfold probe_kind in Hnode. rewrite Hnode. simpl.
  unfold modify. rewrite Hpar. simpl. by rewrite <- Hst.
Qed.

Lemma step_end_pop st p d seen top below closed closed' :
  probe_payload p = JDict d →
  classify (dict_get d "edge" JNull) = MEnd →
  note_page (probe_location p) (pages_seen st) = Ok seen →
  stack st = top :: below →
  below ≠ [] →
  objs st !! top = Some closed →
  ShadowNode.close closed (probe_location p) = Ok closed' →
  step st p =
    Ok (BuildState (<[top := closed']> (objs st)) below seen (pushes st) (S (pops st))).
Proof.
  intros Hpl Hcl Hseen Hst Hne Hpar Hclose. unfold classify in Hcl.
  destruct (py_eq (dict_get d "edge" JNull) (JStr "start")) eqn:Hs; [done|].
  destruct (py_eq (dict_get d "edge" JNull) (JStr "end")) eqn:He; [|done].
  unfold step. fold (probe_payload p) (probe_location p) (probe_id p) (probe_seq p).
  rewrite Hpl. simpl. rewrite Hseen. simpl. rewrite Hst, Hs, He.
  destruct below as [|b below']; [done|]. simpl.
  unfold modify. rewrite Hpar. simpl. by rewrite Hclose.
Qed.

Lemma step_end_ignored st p d seen top :
  probe_payload p = JDict d →
  classify (dict_get d "edge" JNull) = MEnd →
  note_page (probe_location p) (pages_seen st) = Ok seen →
  stack st = [top] →
  step st p = Ok (BuildState (objs st) (stack st) seen (pushes st) (pops st)).
Proof.
  intros Hpl Hcl Hseen Hst. unfold classify in Hcl.
  destruct (py_eq (dict_get d "edge" JNull) (JStr "start")) eqn:Hs; [done|].
  destruct (py_eq (dict_get d "edge" JNull) (JStr "end")) eqn:He; [|done].
  unfold step. fold (probe_payload p) (probe_location p) (probe_id p) (probe_seq p).
  rewrite Hpl. simpl. rewrite Hseen. simpl. by rewrite Hst, Hs, He.
Qed.

Lemma step_atomic st p d seen top below par node :
  probe_payload p = JDict d →
  classify (dict_get d "edge" JNull) = MAtomic →
  note_page (probe_location p) (pages_seen st) = Ok seen →
  stack st = top :: below →
  objs st !! top = Some par →
  ShadowNode.add_atomic_rect
    (ShadowNode.new (probe_kind p d) (probe_id p) (probe_seq p) (JDict d) true)
    (probe_location p) = Ok node →
  step st p =
    Ok (BuildState (attach (objs st) top par node) (stack st)
                   seen (pushes st) (pops st)).
Proof.
  intros Hpl Hcl Hseen Hst Hpar Hnode. unfold classify in Hcl.
  destruct (py_eq (dict_get d "edge" JNull) (JStr "start")) eqn:Hs; [done|].
  destruct (py_eq (dict_get d "edge" JNull) (JStr "end")) eqn:He; [done|].
  unfold step. fold (probe_payload p) (probe_location p) (probe_id p) (probe_seq p).
  rewrite Hpl. simpl. rewrite Hseen. simpl. rewrite Hst, Hs, He.
  unfold probe_kind in Hnode. rewrite Hnode. simpl.
  unfold modify. rewrite Hpar. simpl. by rewrite <- Hst.
Qed.

(** Conversely, an iteration that does not raise went one of these ways. *)
Lemma step_inv st p st' :
  step st p = Ok st' →
  ∃ d seen top below,
    probe_payload p = JDict d
    ∧ note_page (probe_location p) (pages_seen st) = Ok seen
    ∧ stack st = top :: below
    ∧ match classify (dict_get d "edge" JNull) with
      | MStart =>
          ∃ par new_id node,
            objs st !! top = Some par
            ∧ py_replace (probe_id p) "-start" "" = Ok new_id
            ∧ ShadowNode.set_start
                (ShadowNode.new (probe_kind p d) new_id (probe_seq p) (JDict d) false)
                (probe_location p) = Ok node
            ∧ st' = BuildState (attach (objs st) top par node)
                               (length (objs st) :: stack st) seen
                               (S (pushes st)) (pops st)
      | MEnd =>
          (below ≠ []
           ∧ ∃ closed closed',
               objs st !! top = Some closed
               ∧ ShadowNode.close closed (probe_location p) = Ok closed'
               ∧ st' = BuildState (<[top := closed']> (objs st)) below seen
                                  (pushes st) (S (pops st)))
          ∨ (below = []
             ∧ st' = BuildState (objs st) (stack st) seen (pushes st) (pops st))
      | MAtomic =>
          ∃ par node,
            objs st !! top = Some par
            ∧ ShadowNode.add_atomic_rect
                (ShadowNode.new (probe_kind p d) (probe_id p) (probe_seq p) (JDict d) true)
                (probe_location p) = Ok node
            ∧ st' = BuildState (attach (objs st) top par node) (stack st) seen
                               (pushes st) (pops st)
      end.
Proof.
  unfold step. fold (probe_payload p) (probe_location p) (probe_id p) (probe_seq p).
  intros H.
  destruct (probe_payload p) as [| | | | | |d] eqn:Hpl; try discriminate H.
  simpl in H. bind_inv H. rename a into seen.
  destruct (stack st) as [|top below] eqn:Hst; [discriminate H|].
  exists d, seen, top, below. split_and!; try done.
  unfold classify.
  destruct (py_eq (dict_get d "edge" JNull) (JStr "start")) eqn:Hs.
  - bind_inv H. rename a into new_id. bind_inv H. rename a into node.
    bind_inv H. apply modify_Ok in Hbind2 as (par & par' & Hpar & Hpar' & ->).
    injection Hpar' as <-. injection H as <-.
    exists par, new_id, node. done.
  - destruct (py_eq (dict_get d "edge" JNull) (JStr "end")) eqn:He.
    + destruct below as [|b below'].
      * right. simpl in H. injection H as <-. done.
      * left. split; [done|]. simpl in H. bind_inv H.
        apply modify_Ok in Hbind0 as (closed & closed' & Hc & Hc' & ->).
        injection H as <-. by exists closed, closed'.
    + bind_inv H. rename a into node. bind_inv H.
      apply modify_Ok in Hbind1 as (par & par' & Hpar & Hpar' & ->).
      injection Hpar' as <-. injection H as <-.
      exists par, node. done.
Qed.

(** ** What the methods change *)

Lemma set_start_Ok n loc n' :
  ShadowNode.set_start n loc = Ok n' →
  ∃ d, loc = JDict d
       ∧ n' = ShadowNode.mk (ShadowNode.kind n) (ShadowNode.id n) (ShadowNode.seq_start n)
                (ShadowNode.children n) (ShadowNode.rects n) (ShadowNode.payload n)
                (ShadowNode.is_atomic n) (dict_get d "page" (JInt 1))
                (dict_get d "x" (JInt 0)) (dict_get d "y" (JInt 0)).
Proof.
  unfold ShadowNode.set_start. destruct loc; try discriminate.
  simpl. intros [= <-]. eauto.
Qed.

Lemma add_atomic_rect_Ok n loc n' :
  ShadowNode.add_atomic_rect n loc = Ok n' →
  ∃ d, loc = JDict d
       ∧ n' = ShadowNode.with_rects n
                (ShadowNode.rects n ++
                 [Rect.mk (dict_get d "page" (JInt 1)) (dict_get d "x" (JInt 0))
                          (dict_get d "y" (JInt 0)) (JInt 10) (JInt 10)]).
Proof.
  unfold ShadowNode.add_atomic_rect. destruct loc; try discriminate.
  simpl. intros [= <-]. eauto.
Qed.

(** [close] appends one rectangle or two and touches nothing else. *)
Lemma close_Ok n loc n' :
  ShadowNode.close n loc = Ok n' →
  ∃ rs, n' = ShadowNode.with_rects n (ShadowNode.rects n ++ rs)
        ∧ (length rs = 1 ∨ length rs = 2).
Proof.
  unfold ShadowNode.close. intros H.
  bind_inv H. bind_inv H. bind_inv H.
  destruct (py_eq _ _).
  - bind_inv H. bind_inv H. injection H as <-. eexists. split; [done|]. by left.
  - bind_inv H. bind_inv H. bind_inv H. bind_inv H. bind_inv H. injection H as <-.
    rewrite <- app_assoc. eexists. split; [done|]. by right.
Qed.

(** ** Facts about the store *)

Lemma attach_length s top par node :
  length (attach s top par node) = S (length s).
Proof. unfold attach. rewrite length_app, length_insert. simpl. lia. Qed.

Lemma attach_lookup_top s top par node :
  s !! top = Some par →
  attach s top par node !! top = Some (ShadowNode.add_child par (length s)).
Proof.
  intros H. unfold attach. pose proof (lookup_lt_Some _ _ _ H).
  rewrite lookup_app_l by (by rewrite length_insert).
  by apply list_lookup_insert_eq.
Qed.

Lemma attach_lookup_new s top par node :
  attach s top par node !! length s = Some node.
Proof.
  unfold attach. rewrite lookup_app_r by (by rewrite length_insert).
  rewrite length_insert. by rewrite Nat.sub_diag.
Qed.

Lemma attach_lookup_old s top par node r :
  r ≠ top → r < length s → attach s top par node !! r = s !! r.
Proof.
  intros Hne Hlt. unfold attach.
  rewrite lookup_app_l by (by rewrite length_insert).
  by apply list_lookup_insert_ne.
Qed.

(** Every object of the store before [attach] is still there, with at
    least the children it had. *)
Lemma attach_extends s top par node r n :
  s !! top = Some par → s !! r = Some n →
  ∃ n', attach s top par node !! r = Some n'
        ∧ ∃ extra, ShadowNode.children n' = ShadowNode.children n ++ extra.
Proof.
  intros Htop Hr. destruct (decide (r = top)) as [->|Hne].
  - rewrite attach_lookup_top by done. eexists. split; [done|].
    assert (n = par) as -> by congruence. simpl. eauto.
  - rewrite attach_lookup_old by (done || by eapply lookup_lt_Some).
    exists n. split; [done|]. exists []. by rewrite app_nil_r.
Qed.

Lemma reach_mono (s s' : list ShadowNode.t) a b :
  (∀ r n, s !! r = Some n →
          ∃ n', s' !! r = Some n'
                ∧ ∃ extra, ShadowNode.children n' = ShadowNode.children n ++ extra) →
  reach s a b → reach s' a b.
Proof.
  intros Hext. induction 1 as [a n Ha|a n c b Ha Hc _ IH].
  - destruct (Hext _ _ Ha) as (n' & Hn' & _). by eapply reach_here.
  - destruct (Hext _ _ Ha) as (n' & Hn' & extra & Hch).
    eapply reach_child; [done| |done]. rewrite Hch. apply elem_of_app. by left.
Qed.

Lemma reach_snoc (s : list ShadowNode.t) a b n c m :
  reach s a b → s !! b = Some n → c ∈ ShadowNode.children n → s !! c = Some m →
  reach s a c.
Proof.
  intros Hr Hb Hc Hm. induction Hr as [a n0 Ha|a n0 c0 b Ha Hc0 _ IH].
  - eapply reach_child; [done..|]. by eapply reach_here.
  - eapply reach_child; [done..|]. by apply IH.
Qed.

Lemma attach_children_ok s top par node :
  children_ok s → s !! top = Some par → ShadowNode.children node = [] →
  children_ok (attach s top par node).
Proof.
  intros Hok Htop Hnil r n c Hr Hc. rewrite attach_length.
  pose proof (lookup_lt_Some _ _ _ Htop) as Hlt.
  destruct (decide (r = top)) as [->|Hne].
  - rewrite attach_lookup_top in Hr by done. injection Hr as <-.
    simpl in Hc. apply elem_of_app in Hc as [Hc|Hc].
    + specialize (Hok _ _ _ Htop Hc). lia.
    + apply list_elem_of_singleton in Hc as ->. lia.
  - destruct (decide (r = length s)) as [->|Hne'].
    + rewrite attach_lookup_new in Hr. injection Hr as <-.
      rewrite Hnil in Hc. by apply elem_of_nil in Hc.
    + assert (r < length s).
      { apply lookup_lt_Some in Hr. rewrite attach_length in Hr. lia. }
      rewrite attach_lookup_old in Hr by done.
      specialize (Hok _ _ _ Hr Hc). lia.
Qed.

Lemma attach_all_reach s top par node :
  all_reach s → s !! top = Some par → all_reach (attach s top par node).
Proof.
  intros Hall Htop r Hr. rewrite attach_length in Hr.
  pose proof (lookup_lt_Some _ _ _ Htop) as Hlt.
  assert (Hmono : ∀ b, reach s root_ref b → reach (attach s top par node) root_ref b).
  { intros b. apply reach_mono. intros. by apply attach_extends. }
  destruct (decide (r = length s)) as [->|Hne].
  - eapply reach_snoc.
    + apply Hmono, (Hall top Hlt).
    + by apply attach_lookup_top.
    + simpl. apply elem_of_app. right. by apply list_elem_of_singleton.
    + apply attach_lookup_new.
  - apply Hmono, Hall. lia.
Qed.

Lemma insert_children_ok (s : list ShadowNode.t) top n n' :
  children_ok s → s !! top = Some n →
  ShadowNode.children n' = ShadowNode.children n →
  children_ok (<[top := n']> s).
Proof.
  intros Hok Htop Hch r m c Hr Hc. rewrite length_insert.
  destruct (decide (r = top)) as [->|Hne].
  - rewrite list_lookup_insert_eq in Hr by (by eapply lookup_lt_Some).
    injection Hr as <-. rewrite Hch in Hc. by eapply Hok.
  - rewrite list_lookup_insert_ne in Hr by done. by eapply Hok.
Qed.

Lemma insert_all_reach (s : list ShadowNode.t) top n n' :
  all_reach s → s !! top = Some n →
  ShadowNode.children n' = ShadowNode.children n →
  all_reach (<[top := n']> s).
Proof.
  intros Hall Htop Hch r Hr. rewrite length_insert in Hr.
  eapply reach_mono; [|by apply Hall].
  intros r0 m Hm. destruct (decide (r0 = top)) as [->|Hne].
  - rewrite list_lookup_insert_eq by (by eapply lookup_lt_Some).
    eexists. split; [done|]. exists []. rewrite app_nil_r. congruence.
  - rewrite list_lookup_insert_ne by done.
    exists m. split; [done|]. exists []. by rewrite app_nil_r.
Qed.

(** ** The loop invariant *)

Lemma inv_init : inv init_state.
Proof.
  split; simpl.
  - done.
  - apply NoDup_singleton.
  - intros r Hr. apply list_elem_of_singleton in Hr as ->. unfold root_ref. lia.
  - intros r n Hr. apply list_elem_of_singleton in Hr as ->. intros [= <-]. done.
  - intros r n Hr Hn. destruct r as [|r]; [|done].
    exfalso. apply Hr. by apply list_elem_of_singleton.
  - done.
  - intros r n c Hn Hc. destruct r as [|r]; [|done].
    injection Hn as <-. by apply elem_of_nil in Hc.
  - intros r Hr. simpl in Hr. assert (r = 0) as -> by lia.
    by eapply reach_here.
Qed.

Lemma new_node_start kind id seq payload loc node :
  ShadowNode.set_start (ShadowNode.new kind id seq payload false) loc = Ok node →
  ShadowNode.children node = [] ∧ ShadowNode.rects node = []
  ∧ ShadowNode.is_atomic node = false ∧ ShadowNode.id node = id
  ∧ ShadowNode.kind node = kind ∧ ShadowNode.payload node = payload.
Proof. intros (d & -> & ->)%set_start_Ok. done. Qed.

Lemma new_node_atomic kind id seq payload loc node :
  ShadowNode.add_atomic_rect (ShadowNode.new kind id seq payload true) loc = Ok node →
  ∃ d, loc = JDict d
       ∧ ShadowNode.children node = []
       ∧ ShadowNode.rects node =
           [Rect.mk (dict_get d "page" (JInt 1)) (dict_get d "x" (JInt 0))
                    (dict_get d "y" (JInt 0)) (JInt 10) (JInt 10)]
       ∧ ShadowNode.is_atomic node = true ∧ ShadowNode.id node = id
       ∧ ShadowNode.kind node = kind ∧ ShadowNode.payload node = payload.
Proof. intros (d & -> & ->)%add_atomic_rect_Ok. exists d. done. Qed.

(** Attaching a fresh object keeps the invariant, whether the object is
    pushed (it is open then) or not (it has its rectangle then). *)
Lemma inv_attach st top below par node seen pu po (push : bool) :
  inv st → stack st = top :: below → objs st !! top = Some par →
  ShadowNode.children node = [] →
  (if push
   then ShadowNode.rects node = [] ∧ ShadowNode.is_atomic node = false
        ∧ pu = S (pushes st)
   else length (ShadowNode.rects node) = 1 ∧ pu = pushes st) →
  po = pops st →
  inv (BuildState (attach (objs st) top par node)
                  (if push then length (objs st) :: stack st else stack st)
                  seen pu po).
Proof.
  intros [Hroot Hnd Hbd Hopen Hdone Hcnt Hch Hre] Hst Hpar Hnil Hpush ->.
  assert (Hfresh : length (objs st) ∉ stack st).
  { intros Hin. apply Hbd in Hin. lia. }
  assert (Htop : top ∈ stack st) by (rewrite Hst; apply list_elem_of_here).
  assert (Hold : ∀ r n, r ≠ length (objs st) → r ≠ top →
                 attach (objs st) top par node !! r = Some n → objs st !! r = Some n).
  { intros r n Hne1 Hne2 Hn. rewrite attach_lookup_old in Hn; [done..|].
    apply lookup_lt_Some in Hn. rewrite attach_length in Hn. lia. }
  assert (Hstk : ∀ r n, r ∈ stack st → attach (objs st) top par node !! r = Some n →
                 ShadowNode.rects n = [] ∧ ShadowNode.is_atomic n = false).
  { intros r n Hin Hn. destruct (decide (r = top)) as [->|Hne].
    - rewrite attach_lookup_top in Hn by done. injection Hn as <-. simpl.
      by apply (Hopen top).
    - apply (Hopen r); [done|]. apply Hold; [|done..]. by intros ->. }
  split; simpl.
  - destruct push; [|done]. by rewrite Hst in *.
  - destruct push; [|done]. by apply NoDup_cons_2.
  - intros r Hr. rewrite attach_length.
    destruct push; [apply elem_of_cons in Hr as [->|Hr]; [lia|]|];
      apply Hbd in Hr; lia.
  - intros r n Hr Hn. destruct push; [|by eapply Hstk].
    apply elem_of_cons in Hr as [->|Hr]; [|by eapply Hstk].
    rewrite attach_lookup_new in Hn. injection Hn as <-. by destruct Hpush as (? & ? & _).
  - intros r n Hr Hn. destruct (decide (r = length (objs st))) as [->|Hne].
    + rewrite attach_lookup_new in Hn. injection Hn as <-.
      destruct push.
      * exfalso. apply Hr, list_elem_of_here.
      * left. by destruct Hpush.
    + assert (r ∉ stack st).
      { destruct push; [|done]. intros Hin. by apply Hr, list_elem_of_further. }
      apply (Hdone r); [done|]. apply Hold; [done| |done]. by intros ->.
  - destruct push; simpl.
    + destruct Hpush as (_ & _ & ->). lia.
    + destruct Hpush as (_ & ->). lia.
  - by apply attach_children_ok.
  - by apply attach_all_reach.
Qed.

Lemma inv_step st p st' : inv st → step st p = Ok st' → inv st'.
Proof.
  intros Hinv (d & seen & top & below & Hpl & Hseen & Hst & Hcase)%step_inv.
  destruct (classify _).
  - destruct Hcase as (par & new_id & node & Hpar & _ & Hnode & ->).
    apply new_node_start in Hnode as (? & ? & ? & _).
    by apply (inv_attach st top below par node seen _ _ true).
  - destruct Hcase as [(Hne & closed & closed' & Hc & Hclose & ->)|(-> & ->)].
    + destruct Hinv as [Hroot Hnd Hbd Hopen Hdone Hcnt Hch Hre].
      apply close_Ok in Hclose as (rs & -> & Hrs).
      rewrite Hst in *.
      apply NoDup_cons in Hnd as [Hnotin Hnd].
      destruct (Hopen top closed) as [Hrects Hatom]; [apply list_elem_of_here|done|].
      split; simpl.
      * destruct below; [done|]. done.
      * done.
      * intros r Hr. rewrite length_insert. by apply Hbd, list_elem_of_further.
      * intros r n Hr Hn. rewrite list_lookup_insert_ne in Hn by (by intros ->).
        apply (Hopen r); [by apply list_elem_of_further|done].
      * intros r n Hr Hn. destruct (decide (r = top)) as [->|Hne'].
        -- rewrite list_lookup_insert_eq in Hn by (by eapply lookup_lt_Some).
           injection Hn as <-. simpl. rewrite Hrects. simpl.
           destruct Hrs as [Hrs|Hrs]; [by left|by right].
        -- rewrite list_lookup_insert_ne in Hn by done.
           apply (Hdone r); [|done]. intros [->|Hin]%elem_of_cons; done.
      * simpl in Hcnt. lia.
      * by eapply insert_children_ok.
      * by eapply insert_all_reach.
    + destruct Hinv. by split.
  - destruct Hcase as (par & node & Hpar & Hnode & ->).
    apply new_node_atomic in Hnode as (dl & _ & ? & Hr & _).
    apply (inv_attach st top below par node seen _ _ false); try done.
    by rewrite Hr.
Qed.

Lemma inv_run probes : ∀ st st', inv st → run st probes = Ok st' → inv st'.
Proof.
  induction probes as [|p probes IH]; simpl; intros st st' Hinv H.
  - by injection H as <-.
  - bind_inv H. eapply IH; [|done]. by eapply inv_step.
Qed.

(** In every state the builder gets into, the stack has a top and the top
    is an object of the store: the claims below that speak of one
    iteration assume no more than this about the state. *)
Lemma run_has_parent probes st :
  run init_state probes = Ok st →
  ∃ top below par, stack st = top :: below ∧ objs st !! top = Some par.
Proof.
  intros Hrun. pose proof (inv_run _ _ _ inv_init Hrun) as Hinv.
  pose proof (inv_root _ Hinv) as Hroot.
  destruct (stack st) as [|top below] eqn:Hst; [done|].
  assert (Hlt : top < length (objs st)).
  { apply (inv_bound _ Hinv). rewrite Hst. apply list_elem_of_here. }
  destruct (lookup_lt_is_Some_2 _ _ Hlt) as (par & Hpar).
  by exists top, below, par.
Qed.

(** ** Well-formed probes never make the builder raise *)

Lemma y_ok_number v : y_ok v = true → is_number v = true.
Proof. by destruct v. Qed.

Lemma y_ok_const : ∀ z, (Z.abs z <? 1000)%Z = true → y_ok (JInt z) = true.
Proof.
  intros z Hz. apply Z.ltb_lt in Hz. apply Z.ltb_lt.
  eapply Z.lt_trans; [exact Hz|]. by vm_compute.
Qed.

Lemma as_float_y_ok v : y_ok v = true → ∃ f, as_float v = Ok f.
Proof.
  destruct v; try discriminate; simpl; intros H; [|eauto].
  unfold float_of_int. rewrite H. eauto.
Qed.

Lemma py_sub_number a b :
  y_ok a = true → y_ok b = true →
  ∃ v, py_sub a b = Ok v ∧ is_number v = true.
Proof.
  intros Ha Hb. destruct (as_float_y_ok a Ha) as (fa & Hfa).
  destruct (as_float_y_ok b Hb) as (fb & Hfb).
  destruct a, b; try discriminate; unfold py_sub; simpl;
    try (by eexists); simpl in *; rewrite ?Hfa, ?Hfb; simpl; by eexists.
Qed.

(** A difference with a float on one side is a float. *)
Lemma py_sub_float_l f b :
  y_ok b = true → ∃ g, py_sub (JFloat f) b = Ok (JFloat g).
Proof.
  intros Hb. destruct (as_float_y_ok b Hb) as (fb & Hfb).
  destruct b; try discriminate; unfold py_sub; simpl in *;
    rewrite ?Hfb; simpl; by eexists.
Qed.

Lemma py_max_number a b :
  is_number a = true → is_number b = true →
  ∃ v, py_max a b = Ok v ∧ is_number v = true.
Proof.
  destruct a, b; try discriminate; intros _ _; unfold py_max; cbn [xnum_of];
    eexists; (split; [done|]); by destruct (xnum_ltb _ _).
Qed.

Lemma close_total n d :
  y_ok (ShadowNode._start_y n) = true →
  y_ok (dict_get d "y" (JInt 0)) = true →
  ∃ n', ShadowNode.close n (JDict d) = Ok n'.
Proof.
  intros Hy0 Hy1. unfold ShadowNode.close. cbn [py_get mbind result_bind].
  destruct (py_eq _ _).
  - destruct (py_sub_number _ _ Hy1 Hy0) as (v & -> & Hv). cbn [mbind result_bind].
    destruct (py_max_number v (JInt 15) Hv eq_refl) as (h & -> & _). by eexists.
  - destruct (py_sub_float_l (float_const 842) _ Hy0) as (g & Hg).
    unfold A4_HEIGHT_PT. rewrite Hg. cbn [mbind result_bind].
    destruct (py_sub_float_l g (JInt 50) (y_ok_const 50 eq_refl)) as (g1 & ->).
    cbn [mbind result_bind].
    destruct (py_max_number (JFloat g1) (JInt 50) eq_refl eq_refl) as (h1 & -> & _).
    cbn [mbind result_bind].
    destruct (py_sub_number _ (JInt 50) Hy1 (y_ok_const 50 eq_refl)) as (v2 & -> & Hv2).
    cbn [mbind result_bind].
    destruct (py_max_number v2 (JInt 50) Hv2 eq_refl) as (h2 & -> & _). by eexists.
Qed.

Lemma probe_wf_payload p : probe_wf p = true → ∃ d, probe_payload p = JDict d.
Proof.
  unfold probe_wf, probe_payload, dict_get. intros H.
  apply andb_prop in H as [H _]. apply andb_prop in H as [_ H].
  destruct (assoc "payload" p) as [[]|]; try discriminate; eauto.
Qed.

Lemma probe_wf_id p : probe_wf p = true → ∃ s, probe_id p = JStr s.
Proof.
  unfold probe_wf, probe_id, dict_get. intros H.
  apply andb_prop in H as [H _]. apply andb_prop in H as [H _].
  destruct (assoc "id" p) as [[]|]; try discriminate; eauto.
Qed.

Lemma probe_wf_location p :
  probe_wf p = true →
  ∃ d, probe_location p = JDict d
       ∧ opt_all is_int (assoc "page" d) = true
       ∧ is_number (dict_get d "y" (JInt 0)) = true.
Proof.
  unfold probe_wf, probe_location, dict_get. intros H.
  apply andb_prop in H as [_ H].
  destruct (assoc "location" p) as [l|]; [|by exists []].
  simpl in H. destruct l as [| | | | | |d]; try discriminate. simpl in H.
  apply andb_prop in H as [H Hy]. apply andb_prop in H as [Hp _].
  exists d. split_and!; [done..|]. by destruct (assoc "y" d).
Qed.

Lemma probe_y_ok_location p d :
  probe_y_ok p = true → probe_location p = JDict d →
  y_ok (dict_get d "y" (JInt 0)) = true.
Proof.
  unfold probe_y_ok, dict_get. intros H Hloc. rewrite Hloc in H.
  destruct (assoc "y" d); [done|]. by apply y_ok_const.
Qed.

Lemma note_page_total d seen :
  opt_all is_int (assoc "page" d) = true →
  ∃ seen', note_page (JDict d) seen = Ok seen'.
Proof.
  intros H. unfold note_page. simpl.
  destruct (assoc "page" d) as [v|] eqn:Hv.
  - rewrite bool_decide_eq_true_2 by eauto. simpl.
    destruct v; try discriminate. unfold set_add. simpl. eauto.
  - rewrite bool_decide_eq_false_2 by (by intros [? [=]]). simpl. eauto.
Qed.

Lemma inv_top_open st top below :
  inv st → stack st = top :: below → below ≠ [] → top ≠ root_ref.
Proof.
  intros Hinv Hst Hne ->. destruct Hinv as [Hroot Hnd _ _ _ _ _ _].
  rewrite Hst in *. apply NoDup_cons in Hnd as [Hnotin _].
  apply Hnotin. destruct below as [|b below]; [done|].
  change (last (b :: below) = Some root_ref) in Hroot.
  apply last_Some in Hroot as [l' ->]. apply elem_of_app. right.
  by apply list_elem_of_singleton.
Qed.

Lemma inv_top_lookup st top below :
  inv st → stack st = top :: below → is_Some (objs st !! top).
Proof.
  intros Hinv Hst. apply lookup_lt_is_Some, (inv_bound _ Hinv).
  rewrite Hst. apply list_elem_of_here.
Qed.

Lemma inv_stack_nonempty st : inv st → ∃ top below, stack st = top :: below.
Proof.
  intros Hinv. pose proof (inv_root _ Hinv) as H.
  destruct (stack st) as [|top below]; [done|eauto].
Qed.

Lemma step_total st p :
  inv st → open_numeric st → probe_wf p = true → probe_y_ok p = true →
  ∃ st', step st p = Ok st' ∧ open_numeric st'.
Proof.
  intros Hinv Hnum Hwf Hrange.
  destruct (probe_wf_payload p Hwf) as (d & Hpl).
  destruct (probe_wf_id p Hwf) as (s & Hid).
  destruct (probe_wf_location p Hwf) as (dl & Hloc & Hpage & _).
  pose proof (probe_y_ok_location p dl Hrange Hloc) as Hy.
  destruct (note_page_total dl (pages_seen st) Hpage) as (seen & Hseen).
  rewrite <- Hloc in Hseen.
  destruct (inv_stack_nonempty st Hinv) as (top & below & Hst).
  destruct (inv_top_lookup st top below Hinv Hst) as (par & Hpar).
  assert (Hkeep : ∀ node r n,
             r ∈ stack st → r ≠ root_ref →
             attach (objs st) top par node !! r = Some n →
             y_ok (ShadowNode._start_y n) = true).
  { intros node r n Hr Hne Hn.
    destruct (decide (r = top)) as [->|Hne'].
    - rewrite attach_lookup_top in Hn by done. injection Hn as <-. simpl.
      by eapply Hnum.
    - rewrite attach_lookup_old in Hn; [by eapply Hnum|done|].
      by apply (inv_bound _ Hinv). }
  destruct (classify (dict_get d "edge" JNull)) eqn:Hcl.
  - eexists. split.
    + eapply step_start; try done.
      * by rewrite Hid.
      * by rewrite Hloc.
    + intros r n Hr Hne Hn. simpl in *.
      apply elem_of_cons in Hr as [->|Hr]; [|by eapply Hkeep].
      rewrite attach_lookup_new in Hn. by injection Hn as <-.
  - destruct below as [|b below'].
    + eexists. split; [by eapply step_end_ignored|]. done.
    + assert (Htop : top ≠ root_ref) by (by eapply inv_top_open).
      assert (Hy0 : y_ok (ShadowNode._start_y par) = true).
      { eapply Hnum; [|done..]. rewrite Hst. apply list_elem_of_here. }
      destruct (close_total par dl Hy0 Hy) as (closed' & Hclose).
      rewrite <- Hloc in Hclose.
      eexists. split; [by eapply step_end_pop|].
      intros r n Hr Hne Hn. simpl in *.
      assert (r ≠ top).
      { intros ->. pose proof (inv_nodup _ Hinv) as Hnd. rewrite Hst in Hnd.
        by apply NoDup_cons in Hnd as [? _]. }
      rewrite list_lookup_insert_ne in Hn by done.
      eapply Hnum; [|done..]. rewrite Hst. by apply list_elem_of_further.
  - eexists. split.
    + eapply step_atomic; try done. by rewrite Hloc.
    + intros r n Hr Hne Hn. simpl in *. by eapply Hkeep.
Qed.

Lemma open_numeric_init : open_numeric init_state.
Proof.
  intros r n Hr Hne. simpl in Hr. by apply list_elem_of_singleton in Hr.
Qed.

(** The loop runs to its end on every sequence of well-formed probes
    whose [y] can enter the split arithmetic. *)
Lemma run_total probes :
  ∀ st, inv st → open_numeric st →
        Forall (λ p, probe_wf p = true) probes →
        Forall (λ p, probe_y_ok p = true) probes →
        ∃ st', run st probes = Ok st'.
Proof.
  induction probes as [|p probes IH]; simpl; intros st Hinv Hnum Hwf Hrange.
  - eauto.
  - apply Forall_cons in Hwf as [Hp Hwf]. apply Forall_cons in Hrange as [Hr Hrange].
    destruct (step_total st p Hinv Hnum Hp Hr) as (st1 & Hstep & Hnum1).
    rewrite Hstep. simpl. apply IH; [|done..]. by eapply inv_step.
Qed.

(** ** The root *)

Lemma root_kept_attach s top par node :
  root_kept s → s !! top = Some par → root_kept (attach s top par node).
Proof.
  intros (n & Hn & Hk & Hi & Hp & Hr) Htop.
  destruct (decide (root_ref = top)) as [<-|Hne].
  - rewrite Hn in Htop. injection Htop as <-.
    eexists. split; [by apply attach_lookup_top|]. done.
  - exists n. split; [|done].
    rewrite attach_lookup_old; [done..|]. by eapply lookup_lt_Some.
Qed.

Lemma root_kept_step st p st' :
  inv st → root_kept (objs st) → step st p = Ok st' → root_kept (objs st').
Proof.
  intros Hinv Hroot (d & seen & top & below & Hpl & Hseen & Hst & Hcase)%step_inv.
  destruct (classify _).
  - destruct Hcase as (par & new_id & node & Hpar & _ & _ & ->).
    by apply root_kept_attach.
  - destruct Hcase as [(Hne & closed & closed' & Hc & Hclose & ->)|(-> & ->)]; [|done].
    destruct Hroot as (n & Hn & Hrest). exists n. split; [|done]. simpl.
    rewrite list_lookup_insert_ne; [done|].
    by eapply inv_top_open.
  - destruct Hcase as (par & node & Hpar & _ & ->). by apply root_kept_attach.
Qed.

Lemma root_kept_run probes :
  ∀ st st', inv st → root_kept (objs st) → run st probes = Ok st' →
            root_kept (objs st').
Proof.
  induction probes as [|p probes IH]; simpl; intros st st' Hinv Hroot H.
  - by injection H as <-.
  - bind_inv H. eapply IH; [| |done].
    + by eapply inv_step.
    + by eapply root_kept_step.
Qed.

Lemma root_kept_init : root_kept (objs init_state).
Proof. by exists root_node. Qed.

(** What [build_shadow_dom] returns, in terms of the state the loop ends
    in: the same store, with the page count written into the payload of the
    root. *)
Lemma build_shadow_dom_run probes st :
  run init_state probes = Ok st →
  ∃ root,
    objs st !! root_ref = Some root
    ∧ build_shadow_dom probes =
        Ok (<[root_ref :=
               ShadowNode.with_payload root
                 (JDict [("pages", JInt (Z.of_nat (length (pages_seen st))))])]>
              (objs st), root_ref).
Proof.
  intros Hrun. unfold build_shadow_dom. rewrite Hrun. simpl.
  destruct (root_kept_run probes _ _ inv_init root_kept_init Hrun)
    as (root & Hroot & _ & _ & Hpl & _).
  exists root. split; [done|]. unfold modify. rewrite Hroot. simpl.
  by rewrite Hpl.
Qed.

Lemma build_shadow_dom_inv probes s r :
  build_shadow_dom probes = Ok (s, r) →
  ∃ st, run init_state probes = Ok st.
Proof.
  unfold build_shadow_dom. intros H. bind_inv H. eauto.
Qed.

(** ** The stack discipline *)

Lemma marker_of_payload p d :
  probe_payload p = JDict d → marker_of p = classify (dict_get d "edge" JNull).
Proof. unfold marker_of. by intros ->. Qed.

Lemma run_well_nested probes :
  ∀ st st' depth,
    inv st → length (stack st) = S depth →
    well_nested_from depth probes = true →
    run st probes = Ok st' → length (stack st') = 1.
Proof.
  induction probes as [|p probes IH]; simpl; intros st st' depth Hinv Hlen Hwn H.
  - injection H as <-. apply Nat.eqb_eq in Hwn. lia.
  - bind_inv H. rename a into st1.
    pose proof (inv_step _ _ _ Hinv Hbind) as Hinv1.
    apply step_inv in Hbind
      as (d & seen & top & below & Hpl & Hseen & Hst & Hcase).
    rewrite (marker_of_payload p d Hpl) in Hwn.
    destruct (classify _).
    + destruct Hcase as (par & new_id & node & _ & _ & _ & ->).
      eapply (IH _ _ (S depth)); [done| |done..]. simpl. lia.
    + destruct depth as [|depth']; [done|].
      destruct Hcase as [(Hne & closed & closed' & _ & _ & ->)|(-> & ->)].
      * eapply (IH _ _ depth'); [done| |done..]. simpl.
        rewrite Hst in Hlen. simpl in Hlen. lia.
      * rewrite Hst in Hlen. simpl in Hlen. lia.
    + destruct Hcase as (par & node & _ & _ & ->).
      eapply (IH _ _ depth); [done| |done..]. done.
Qed.

(** A sequence whose markers follow the grammar is well nested. *)
Lemma balanced_well_nested_from ms :
  balanced ms →
  ∀ ps rest depth,
    marker_of <$> ps = ms →
    well_nested_from depth (ps ++ rest) = well_nested_from depth rest.
Proof.
  induction 1 as [|l Hl IH|l1 l2 H1 IH1 H2 IH2]; intros ps rest depth Hps.
  - by apply fmap_nil_inv in Hps as ->.
  - apply fmap_cons_inv in Hps as (p & ps' & Hp & Hps' & ->).
    simpl. rewrite <- Hp. by apply IH.
  - apply fmap_cons_inv in Hps as (p & ps' & Hp & Hps' & ->).
    symmetry in Hps'.
    apply fmap_app_inv in Hps' as (ps1 & tl & Hps1 & Htl & ->).
    symmetry in Htl.
    apply fmap_cons_inv in Htl as (q & ps2 & Hq & Hps2 & ->).
    simpl. rewrite <- Hp, <- app_assoc.
    rewrite (IH1 ps1 _ (S depth)) by done.
    simpl. rewrite <- Hq. by apply IH2.
Qed.

Lemma balanced_well_nested ps :
  balanced (marker_of <$> ps) → well_nested ps = true.
Proof.
  intros H. unfold well_nested.
  rewrite <- (app_nil_r ps). by rewrite (balanced_well_nested_from _ H ps [] 0).
Qed.

(** ** Arithmetic of the geometry *)
















Lemma xnum_ltb_irrefl q : xnum_ltb (XFin q) (XFin q) = false.
Proof.
  simpl. destruct (Qlt_le_dec q q) as [H|H]; [|done]. by apply Qlt_irrefl in H.
Qed.



Lemma py_max_not_below d c h : py_max d (JInt c) = Ok h → not_below c h.
Proof.
  unfold py_max. destruct (xnum_of d) as [x|] eqn:Hx; [|done]. cbn [xnum_of].
  destruct (xnum_ltb x (XFin (inject_Z c))) eqn:Hlt; intros [= <-].
  - eexists. split; [reflexivity|]. apply xnum_ltb_irrefl.
  - by exists x.
Qed.




(** ** Claims about the geometry of a paired node *)



(** And closing need not produce a rectangle at all: an int that cannot
    be taken as a float raises when it meets a float. *)
Example same_page_close_overflows :
  build_shadow_dom scenario_huge_same = Err OverflowError.
Proof. vm_compute. reflexivity. Qed.



(** A NaN at the closing location gives a second height that is NaN
    (the node was opened at the default position, page 1 and [y = 0.0]). *)
Example cross_page_height_not_a_number :
  ∃ n,
    ShadowNode.close sample_node (mk_location_y 2 FLOAT_NAN) = Ok n
    ∧ Rect.h <$> ShadowNode.rects n = [JFloat (float_const 792); FLOAT_NAN].
Proof. eexists. split; vm_compute; reflexivity. Qed.

(** Floats are rounded: opened at [y = 0.1], the first height is the
    float 791.9 (0x1.8bf3333333333p+9), the nearest to 842.0 - 0.1 less
    50, and the largest int that can be taken as a float is accepted. *)
Example cross_page_height_is_rounded :
  ∃ s node,
    build_shadow_dom scenario_tenth = Ok (s, root_ref)
    ∧ s !! 1 = Some node
    ∧ Rect.h <$> ShadowNode.rects node
      = [JFloat (SpecFloat.S754_finite false 6965626064286515 (-43)); JInt 50].
Proof. eexists _, _. repeat (split; [vm_compute; reflexivity|]). vm_compute. reflexivity. Qed.

Example largest_int_taken_as_float :
  float_of_int (FLOAT_INT_LIMIT - 1)
  = Ok (SpecFloat.S754_finite false 9007199254740991 971)
  ∧ float_of_int FLOAT_INT_LIMIT = Err OverflowError
  ∧ float_of_int (- FLOAT_INT_LIMIT) = Err OverflowError.
Proof. repeat (split; [vm_compute; reflexivity|]). vm_compute. reflexivity. Qed.

Lemma py_eq_str e s : py_eq e (JStr s) = true ↔ e = JStr s.
Proof.
  destruct e as [|[]| | |t| |]; simpl; try (split; [discriminate|done]).
  rewrite String.eqb_eq. split; congruence.
Qed.

Lemma classify_start : classify (JStr "start") = MStart.
Proof. done. Qed.

Lemma classify_end : classify (JStr "end") = MEnd.
Proof. done. Qed.

Lemma classify_other e :
  e ≠ JStr "start" → e ≠ JStr "end" → classify e = MAtomic.
Proof.
  intros Hs He. unfold classify.
  destruct (py_eq e (JStr "start")) eqn:E1; [by apply py_eq_str in E1|].
  destruct (py_eq e (JStr "end")) eqn:E2; [by apply py_eq_str in E2|].
  done.
Qed.

(** ** Claims about the stack *)

(** C1. On a well-nested probe sequence the builder pops (and closes) as
    often as it pushes, and when the sequence is used up the stack holds
    the root and nothing else.  The builder does run to the end when the
    probes have the promised shape and every y that is an int can be taken
    as a float (an int of 2^1024 or so makes the split arithmetic
    raise). *)
Theorem well_nested_balanced (probes : list probe) :
  well_nested probes = true →
  (Forall (λ p, probe_wf p = true) probes →
   Forall (λ p, probe_y_ok p = true) probes →
   ∃ s, build_shadow_dom probes = Ok (s, root_ref))
  ∧ (∀ st, run init_state probes = Ok st →
           pushes st = pops st ∧ stack st = [root_ref]).
Proof.
  intros Hwn. split.
  - intros Hwf Hrange.
    destruct (run_total probes init_state inv_init open_numeric_init Hwf Hrange)
      as (st & Hrun).
    destruct (build_shadow_dom_run probes st Hrun) as (root & _ & ->). eauto.
  - intros st Hrun.
    pose proof (inv_run _ _ _ inv_init Hrun) as Hinv.
    assert (Hlen : length (stack st) = 1).
    { by eapply (run_well_nested probes init_state st 0 inv_init). }
    pose proof (inv_count _ Hinv) as Hcnt.
    pose proof (inv_root _ Hinv) as Hroot.
    split; [lia|].
    destruct (stack st) as [|r [|r' l]]; simpl in *; try done; congruence.
Qed.

(** C6. An [end] probe that arrives while only the root is on the stack
    changes nothing but the set of pages seen: the store (so every node's
    rectangles and children, and the child count of the root) and the stack
    are the same after it, and nothing was popped or closed. *)
Theorem end_at_root_ignored (st : build_state) (p : probe)
        (d : list (string * json)) (seen : list json) :
  probe_payload p = JDict d →
  dict_get d "edge" JNull = JStr "end" →
  stack st = [root_ref] →
  note_page (probe_location p) (pages_seen st) = Ok seen →
  ∃ st', step st p = Ok st'
         ∧ objs st' = objs st
         ∧ stack st' = stack st
         ∧ pushes st' = pushes st
         ∧ pops st' = pops st
         ∧ pages_seen st' = seen.
Proof.
  intros Hpl Hedge Hst Hseen. eexists. split.
  - eapply step_end_ignored; [done| |done..]. rewrite Hedge. apply classify_end.
  - done.
Qed.

(** ** Claims about atomic probes *)

Lemma step_atomic_node st p d l seen top below par :
  probe_payload p = JDict d →
  classify (dict_get d "edge" JNull) = MAtomic →
  probe_location p = JDict l →
  note_page (JDict l) (pages_seen st) = Ok seen →
  stack st = top :: below →
  objs st !! top = Some par →
  step st p =
    Ok (BuildState (attach (objs st) top par (atomic_node p d l)) (stack st)
                   seen (pushes st) (pops st)).
Proof.
  intros Hpl Hcl Hloc Hseen Hst Hpar.
  eapply step_atomic; try done; by rewrite Hloc.
Qed.

Lemma atomic_centre l qx qy :
  num_val (loc_x l) = Some qx → num_val (loc_y l) = Some qy →
  ∃ cx cy,
    rect_centre (Rect.mk (loc_page l) (loc_x l) (loc_y l) (JInt 10) (JInt 10))
    = Some (cx, cy)
    ∧ (cx == qx + 5)%Q ∧ (cy == qy + 5)%Q.
Proof.
  intros Hx Hy. unfold rect_centre. simpl. rewrite Hx, Hy.
  eexists _, _. split; [done|]. split; apply Qplus_comp; done.
Qed.

(** C5 (as the code has it).  A probe without pairing marker makes an
    atomic node with the probe's identifier as it is; the node becomes the
    last child of the node on top of the stack and is not pushed; it has
    exactly one rectangle, 10 wide and 10 high whatever the probe says,
    whose corner (x, y) is the probe's location, so that its centre lies
    5 to the right of and 5 below that location. *)
Theorem atomic_probe (st : build_state) (p : probe) (d l : list (string * json))
        (seen : list json) (top : ref) (below : list ref) (par : ShadowNode.t) :
  probe_payload p = JDict d →
  assoc "edge" d = None →
  probe_location p = JDict l →
  note_page (JDict l) (pages_seen st) = Ok seen →
  stack st = top :: below →
  objs st !! top = Some par →
  ∃ st' node par',
    step st p = Ok st'
    ∧ objs st' !! length (objs st) = Some node
    ∧ ShadowNode.is_atomic node = true
    ∧ ShadowNode.id node = probe_id p
    ∧ ShadowNode.rects node =
        [Rect.mk (loc_page l) (loc_x l) (loc_y l) (JInt 10) (JInt 10)]
    ∧ objs st' !! top = Some par'
    ∧ ShadowNode.children par' = ShadowNode.children par ++ [length (objs st)]
    ∧ stack st' = stack st
    ∧ pushes st' = pushes st
    ∧ (∀ qx qy, num_val (loc_x l) = Some qx → num_val (loc_y l) = Some qy →
         ∃ cx cy, head (ShadowNode.rects node) ≫= rect_centre = Some (cx, cy)
                  ∧ (cx == qx + 5)%Q ∧ (cy == qy + 5)%Q).
Proof.
  intros Hpl Hedge Hloc Hseen Hst Hpar.
  exists (BuildState (attach (objs st) top par (atomic_node p d l)) (stack st)
                     seen (pushes st) (pops st)), (atomic_node p d l),
         (ShadowNode.add_child par (length (objs st))).
  split_and!; try done.
  - eapply step_atomic_node; try done.
    unfold dict_get. by rewrite Hedge.
  - apply attach_lookup_new.
  - by apply attach_lookup_top.
  - intros qx qy Hx Hy. simpl. by apply atomic_centre.
Qed.

(** The rectangle of an atomic probe at (0, 0) is not centred at (0, 0):
    it covers 0..10 in both directions. *)
Lemma atomic_rect_not_centred :
  ∃ s node r,
    build_shadow_dom [probe_origin] = Ok (s, root_ref)
    ∧ s !! 1 = Some node
    ∧ ShadowNode.rects node = [r]
    ∧ centred_at r (JInt 0) (JInt 0) = false.
Proof. eexists _, _, _. repeat (split; [vm_compute; reflexivity|]); vm_compute; reflexivity. Qed.

Lemma assoc_dict_set_ne {A} k k' (v : A) d :
  k ≠ k' → assoc k (dict_set k' v d) = assoc k d.
Proof.
  intros Hne. induction d as [|[k0 v0] d IH]; simpl.
  - by rewrite (proj2 (String.eqb_neq k k')).
  - destruct (String.eqb k' k0) eqn:E; simpl.
    + apply String.eqb_eq in E as ->. by rewrite (proj2 (String.eqb_neq k k0)).
    + destruct (String.eqb k k0); [done|apply IH].
Qed.

(** An iteration reads five fields of the probe record and no other. *)
Lemma step_reads_five_fields st p k v :
  k ∉ ["id"; "payload"; "location"; "_seq"; "kind"] →
  step st (dict_set k v p) = step st p.
Proof.
  intros Hk.
  assert (Hne : ∀ k0, k0 ∈ ["id"; "payload"; "location"; "_seq"; "kind"] → k0 ≠ k).
  { intros k0 Hin ->. done. }
  unfold step, dict_get.
  rewrite !assoc_dict_set_ne; [done|apply Hne, list_elem_of_In; simpl; tauto..].
Qed.

(** C10. The marker is what the payload holds under ["edge"]: whatever
    that value is, unless it is exactly "start" or "end", the probe goes
    the atomic way without raising (the node is atomic, has its one 10 by 10
    rectangle, and the stack is as before); and an ["edge"] entry of the
    probe record itself is never looked at. *)
Theorem unrecognised_edge_is_atomic (st : build_state) (p : probe)
        (d l : list (string * json)) (e : json) (seen : list json)
        (top : ref) (below : list ref) (par : ShadowNode.t) :
  probe_payload p = JDict d →
  dict_get d "edge" JNull = e →
  e ≠ JStr "start" →
  e ≠ JStr "end" →
  probe_location p = JDict l →
  note_page (JDict l) (pages_seen st) = Ok seen →
  stack st = top :: below →
  objs st !! top = Some par →
  (∃ st' node,
     step st p = Ok st'
     ∧ objs st' !! length (objs st) = Some node
     ∧ ShadowNode.is_atomic node = true
     ∧ ShadowNode.rects node =
         [Rect.mk (loc_page l) (loc_x l) (loc_y l) (JInt 10) (JInt 10)]
     ∧ stack st' = stack st
     ∧ pushes st' = pushes st ∧ pops st' = pops st)
  ∧ (∀ v, step st (dict_set "edge" v p) = step st p).
Proof.
  intros Hpl He Hs Hend Hloc Hseen Hst Hpar. split.
  - exists (BuildState (attach (objs st) top par (atomic_node p d l)) (stack st)
                       seen (pushes st) (pops st)), (atomic_node p d l).
    split_and!; try done.
    + eapply step_atomic_node; try done. rewrite He. by apply classify_other.
    + apply attach_lookup_new.
  - intros v. unfold step, dict_get.
    by rewrite !assoc_dict_set_ne.
Qed.

(** ** Claims about the identifier of a paired node *)

Lemma str_find_None_replace old new s :
  str_find old s = None → replace_from old new 0 s = s.
Proof.
  induction s as [|c s IH]; [done|].
  intros H. cbn [str_find] in H. cbn [replace_from].
  destruct (String.prefix old (String c s)); [done|].
  f_equal. apply IH. by destruct (str_find old s).
Qed.

Lemma str_find_suffix_replace base :
  str_find "-start" (base +:+ "-start") = Some (String.length base) →
  replace_from "-start" "" 0 (base +:+ "-start") = base.
Proof.
  induction base as [|c base IH]; [done|].
  change (String c base +:+ "-start") with (String c (base +:+ "-start")).
  intros H. cbn [str_find] in H. cbn [replace_from].
  destruct (String.prefix "-start" (String c (base +:+ "-start"))); [done|].
  f_equal. apply IH.
  destruct (str_find "-start" (base +:+ "-start")); [|done].
  simpl in H. injection H as ->. done.
Qed.

(** C4 (as the code has it).  The node made for a [start] probe has the
    probe's identifier with every occurrence of ["-start"] taken out, the
    occurrences being found from the left and not overlapping.  When
    ["-start"] does not occur the identifier is unchanged, and when its
    only occurrence is at the very end the identifier loses just that
    suffix. *)
Theorem start_node_id (st : build_state) (p : probe) (d l : list (string * json))
        (s : string) (seen : list json) (top : ref) (below : list ref)
        (par : ShadowNode.t) :
  probe_payload p = JDict d →
  dict_get d "edge" JNull = JStr "start" →
  probe_id p = JStr s →
  probe_location p = JDict l →
  note_page (JDict l) (pages_seen st) = Ok seen →
  stack st = top :: below →
  objs st !! top = Some par →
  (∃ st' node,
     step st p = Ok st'
     ∧ objs st' !! length (objs st) = Some node
     ∧ ShadowNode.id node = JStr (str_replace s "-start" "")
     ∧ stack st' = length (objs st) :: stack st)
  ∧ (str_find "-start" s = None → str_replace s "-start" "" = s)
  ∧ (∀ base, s = base +:+ "-start" →
             str_find "-start" s = Some (String.length base) →
             str_replace s "-start" "" = base).
Proof.
  intros Hpl Hedge Hid Hloc Hseen Hst Hpar. split_and!.
  - eexists _, _. split.
    + eapply step_start; try done.
      * rewrite Hedge. apply classify_start.
      * by rewrite Hloc.
      * by rewrite Hid.
      * by rewrite Hloc.
    + simpl. split_and!; [apply attach_lookup_new|done..].
  - apply str_find_None_replace.
  - intros base -> Hfind. by apply str_find_suffix_replace.
Qed.

(** The identifier "a-start-b-start" loses both occurrences, not only the
    trailing one. *)
Lemma start_id_not_suffix_removal :
  ∃ s node,
    build_shadow_dom [probe_twice] = Ok (s, root_ref)
    ∧ s !! 1 = Some node
    ∧ ShadowNode.id node = JStr "a-b"
    ∧ remove_suffix "a-start-b-start" "-start" = "a-start-b"
    ∧ ShadowNode.id node ≠ JStr (remove_suffix "a-start-b-start" "-start").
Proof.
  eexists _, _. split_and!; [vm_compute; reflexivity..|].
  vm_compute. discriminate.
Qed.

(** ** Claims about reachability *)

Lemma extends_refl s : extends s s.
Proof. intros r n Hn. exists n. split; [done|]. exists []. by rewrite app_nil_r. Qed.

Lemma extends_trans s1 s2 s3 : extends s1 s2 → extends s2 s3 → extends s1 s3.
Proof.
  intros H12 H23 r n Hn.
  destruct (H12 _ _ Hn) as (n2 & Hn2 & e2 & Hc2).
  destruct (H23 _ _ Hn2) as (n3 & Hn3 & e3 & Hc3).
  exists n3. split; [done|]. exists (e2 ++ e3). by rewrite Hc3, Hc2, app_assoc.
Qed.

Lemma insert_extends (s : list ShadowNode.t) top n n' :
  s !! top = Some n → ShadowNode.children n' = ShadowNode.children n →
  extends s (<[top := n']> s).
Proof.
  intros Htop Hch r m Hm. destruct (decide (r = top)) as [->|Hne].
  - rewrite list_lookup_insert_eq by (by eapply lookup_lt_Some).
    eexists. split; [done|]. exists []. rewrite app_nil_r. congruence.
  - rewrite list_lookup_insert_ne by done.
    exists m. split; [done|]. exists []. by rewrite app_nil_r.
Qed.

Lemma step_extends st p st' : step st p = Ok st' → extends (objs st) (objs st').
Proof.
  intros (d & seen & top & below & Hpl & Hseen & Hst & Hcase)%step_inv.
  destruct (classify _).
  - destruct Hcase as (par & new_id & node & Hpar & _ & _ & ->).
    intros r n Hn. by apply attach_extends.
  - destruct Hcase as [(Hne & closed & closed' & Hc & Hclose & ->)|(-> & ->)].
    + apply close_Ok in Hclose as (rs & -> & _). by eapply insert_extends.
    + apply extends_refl.
  - destruct Hcase as (par & node & Hpar & _ & ->).
    intros r n Hn. by apply attach_extends.
Qed.

Lemma run_extends probes :
  ∀ st st', run st probes = Ok st' → extends (objs st) (objs st').
Proof.
  induction probes as [|p probes IH]; simpl; intros st st' H.
  - injection H as <-. apply extends_refl.
  - bind_inv H. eapply extends_trans; [by eapply step_extends|by apply IH].
Qed.

Lemma run_app probes1 probes2 st :
  run st (probes1 ++ probes2) = run st probes1 ≫= λ st1, run st1 probes2.
Proof.
  revert st. induction probes1 as [|p probes1 IH]; simpl; intros st; [done|].
  destruct (step st p); simpl; [apply IH|done].
Qed.

(** A sequence that never closes more than it opened leaves the part of
    the stack it found in place. *)
Lemma run_stays_open probes :
  ∀ st st' ext base depth,
    stack st = ext ++ base → depth ≤ length ext →
    stays_open_from depth probes = true →
    run st probes = Ok st' →
    ∃ ext', stack st' = ext' ++ base.
Proof.
  induction probes as [|p probes IH]; simpl; intros st st' ext base depth Hst Hlen Hso H.
  - injection H as <-. eauto.
  - bind_inv H. rename a into st1.
    apply step_inv in Hbind
      as (d & seen & top & below & Hpl & Hseen & Hst1 & Hcase).
    rewrite (marker_of_payload p d Hpl) in Hso.
    destruct (classify _).
    + destruct Hcase as (par & new_id & node & _ & _ & _ & ->).
      eapply (IH _ _ (length (objs st) :: ext) base (S depth)); [|simpl; lia|done..].
      simpl. by rewrite Hst.
    + destruct depth as [|depth']; [done|].
      destruct Hcase as [(Hne & closed & closed' & _ & _ & ->)|(-> & ->)].
      * destruct ext as [|e ext0]; [simpl in Hlen; lia|].
        rewrite Hst in Hst1. injection Hst1 as -> <-.
        eapply (IH _ _ ext0 base depth'); [|simpl in *; lia|done..]. done.
      * eapply (IH _ _ ext base depth'); [|lia|done..]. done.
    + destruct Hcase as (par & node & _ & _ & ->).
      eapply (IH _ _ ext base depth); [|done..]. done.
Qed.

(** ** A paired node in the builder *)

Lemma same_but_children_refl n : same_but_children n n.
Proof. exists []. rewrite app_nil_r. by destruct n. Qed.

Lemma same_but_children_trans n1 n2 n3 :
  same_but_children n1 n2 → same_but_children n2 n3 → same_but_children n1 n3.
Proof.
  intros [e1 ->] [e2 ->]. exists (e1 ++ e2). simpl. by rewrite app_assoc.
Qed.

Lemma same_but_children_add_child n r :
  same_but_children n (ShadowNode.add_child n r).
Proof. by exists [r]. Qed.

(** An object that is on the stack before and after an iteration was only
    given children by it. *)
Lemma step_keeps_open st p st' r n :
  inv st → step st p = Ok st' →
  r ∈ stack st → r ∈ stack st' → objs st !! r = Some n →
  ∃ n', objs st' !! r = Some n' ∧ same_but_children n n'.
Proof.
  intros Hinv (d & seen & top & below & Hpl & Hseen & Hst & Hcase)%step_inv
         Hin Hin' Hn.
  pose proof (inv_bound _ Hinv _ Hin) as Hlt.
  assert (Hattach : ∀ par node, objs st !! top = Some par →
            ∃ n', attach (objs st) top par node !! r = Some n'
                  ∧ same_but_children n n').
  { intros par node Hpar. destruct (decide (r = top)) as [->|Hne].
    - rewrite attach_lookup_top by done. eexists. split; [done|].
      assert (n = par) as -> by congruence. apply same_but_children_add_child.
    - rewrite attach_lookup_old by done. exists n. split; [done|].
      apply same_but_children_refl. }
  destruct (classify _).
  - destruct Hcase as (par & new_id & node & Hpar & _ & _ & ->). by apply Hattach.
  - destruct Hcase as [(Hne & closed & closed' & Hc & Hclose & ->)|(-> & ->)].
    + simpl in *. exists n. split; [|apply same_but_children_refl].
      rewrite list_lookup_insert_ne; [done|]. intros ->.
      pose proof (inv_nodup _ Hinv) as Hnd. rewrite Hst in Hnd.
      by apply NoDup_cons in Hnd as [? _].
    + exists n. split; [done|apply same_but_children_refl].
  - destruct Hcase as (par & node & Hpar & _ & ->). by apply Hattach.
Qed.

(** A well-nested sequence leaves the stack it found as it was, and gives
    the objects on it nothing but children. *)
Lemma run_well_nested_keeps probes :
  ∀ st st' ext base,
    inv st → stack st = ext ++ base → base ≠ [] →
    well_nested_from (length ext) probes = true →
    run st probes = Ok st' →
    stack st' = base
    ∧ ∀ r n, r ∈ base → objs st !! r = Some n →
             ∃ n', objs st' !! r = Some n' ∧ same_but_children n n'.
Proof.
  induction probes as [|p probes IH]; simpl; intros st st' ext base Hinv Hst Hbase Hwn H.
  - injection H as <-. apply Nat.eqb_eq in Hwn.
    destruct ext; [|done]. split; [done|].
    intros r n _ Hn. exists n. split; [done|apply same_but_children_refl].
  - bind_inv H. rename a into st1.
    pose proof (inv_step _ _ _ Hinv Hbind) as Hinv1.
    assert (Hkeep : ∀ r n, r ∈ base → r ∈ stack st1 → objs st !! r = Some n →
              ∃ n', objs st1 !! r = Some n' ∧ same_but_children n n').
    { intros r n Hr Hr1 Hn.
      apply (step_keeps_open st p st1 r n Hinv Hbind); [|done..].
      rewrite Hst. apply elem_of_app. by right. }
    assert (Hgoal : ∀ ext1,
              stack st1 = ext1 ++ base →
              well_nested_from (length ext1) probes = true →
              stack st' = base
              ∧ ∀ r n, r ∈ base → objs st !! r = Some n →
                       ∃ n', objs st' !! r = Some n' ∧ same_but_children n n').
    { intros ext1 Hst1 Hwn1.
      destruct (IH st1 st' ext1 base Hinv1 Hst1 Hbase Hwn1 H) as [Hstack Hobjs].
      split; [done|]. intros r n Hr Hn.
      destruct (Hkeep r n Hr) as (n1 & Hn1 & Hs1); [|done|].
      { rewrite Hst1. apply elem_of_app. by right. }
      destruct (Hobjs r n1 Hr Hn1) as (n2 & Hn2 & Hs2).
      exists n2. split; [done|]. by eapply same_but_children_trans. }
    apply step_inv in Hbind
      as (d & seen & top & below & Hpl & Hseen & Hst0 & Hcase).
    rewrite (marker_of_payload p d Hpl) in Hwn.
    destruct (classify _).
    + destruct Hcase as (par & new_id & node & _ & _ & _ & ->).
      apply (Hgoal (length (objs st) :: ext)); [|done]. simpl. by rewrite Hst.
    + destruct ext as [|e ext0]; [done|]. simpl in Hwn.
      rewrite Hst in Hst0. injection Hst0 as -> <-.
      destruct Hcase as [(Hne & closed & closed' & _ & _ & ->)|(Hnil & ->)].
      * by apply (Hgoal ext0).
      * by destruct ext0, base.
    + destruct Hcase as (par & node & _ & _ & ->).
      by apply (Hgoal ext).
Qed.

(** [close] does not look at the children. *)
Lemma close_same_but_children n n' loc m' :
  same_but_children n n' → ShadowNode.close n' loc = Ok m' →
  ∃ m, ShadowNode.close n loc = Ok m ∧ ShadowNode.rects m' = ShadowNode.rects m.
Proof.
  intros [extra ->]. unfold ShadowNode.close. simpl. intros H.
  bind_inv H. bind_inv H. bind_inv H. rewrite Hbind, Hbind0, Hbind1. simpl.
  destruct (py_eq _ _).
  - bind_inv H. bind_inv H. rewrite Hbind2. simpl. rewrite Hbind3. simpl.
    injection H as <-. eauto.
  - bind_inv H. bind_inv H. bind_inv H. bind_inv H. bind_inv H.
    rewrite Hbind2. simpl. rewrite Hbind3. simpl. rewrite Hbind4. simpl.
    rewrite Hbind5. simpl. rewrite Hbind6. simpl.
    injection H as <-. eauto.
Qed.

(** In the builder, the node made for a [start] probe [p0] that is followed
    by a well-nested sequence and then an [end] probe [p1] is closed by
    [p1]: it has the rectangles that [close] computes from the location of
    [p0], recorded by [set_start], and the location of [p1]; and the stack
    is back to what it was before [p0]. *)
Lemma paired_node_closed_by_matching_end before p0 inner p1 st st' d0 :
  run init_state before = Ok st →
  probe_payload p0 = JDict d0 →
  marker_of p0 = MStart →
  well_nested inner = true →
  marker_of p1 = MEnd →
  run st (p0 :: inner ++ [p1]) = Ok st' →
  ∃ new_id opened closed node,
    py_replace (probe_id p0) "-start" "" = Ok new_id
    ∧ ShadowNode.set_start
        (ShadowNode.new (probe_kind p0 d0) new_id (probe_seq p0) (JDict d0) false)
        (probe_location p0) = Ok opened
    ∧ ShadowNode.close opened (probe_location p1) = Ok closed
    ∧ objs st' !! length (objs st) = Some node
    ∧ ShadowNode.rects node = ShadowNode.rects closed
    ∧ ShadowNode.id node = new_id
    ∧ stack st' = stack st.
Proof.
  intros Hrun Hpl0 Hm0 Hwn Hm1 H.
  pose proof (inv_run _ _ _ inv_init Hrun) as Hinv.
  simpl in H. bind_inv H. rename a into st1.
  pose proof (inv_step _ _ _ Hinv Hbind) as Hinv1.
  apply step_inv in Hbind as (d & seen & top & below & Hpl & Hseen & Hst & Hcase).
  assert (d = d0) as -> by congruence.
  rewrite (marker_of_payload p0 d0 Hpl0) in Hm0. rewrite Hm0 in Hcase.
  destruct Hcase as (par & new_id & opened & Hpar & Hid & Hopened & ->).
  rewrite run_app in H. bind_inv H. rename a into st2.
  pose proof (inv_run _ _ _ Hinv1 Hbind) as Hinv2.
  destruct (run_well_nested_keeps inner _ st2 [] (length (objs st) :: stack st)
              Hinv1 eq_refl ltac:(done) Hwn Hbind) as [Hstack2 Hobjs2].
  destruct (Hobjs2 (length (objs st)) opened) as (opened' & Hopened' & Hsame).
  { apply list_elem_of_here. }
  { simpl. apply attach_lookup_new. }
  simpl in H. bind_inv H. rename a into st3. injection H as <-.
  apply step_inv in Hbind0 as (d1 & seen1 & top1 & below1 & Hpl1 & _ & Hst1 & Hcase).
  rewrite (marker_of_payload p1 d1 Hpl1) in Hm1. rewrite Hm1 in Hcase.
  rewrite Hstack2 in Hst1. injection Hst1 as <- <-.
  destruct Hcase as [(_ & c & c' & Hc & Hclose & ->)|(Hnil & _)].
  - assert (c = opened') as -> by congruence.
    destruct (close_same_but_children _ _ _ _ Hsame Hclose) as (closed & Hclosed & Hrects).
    exists new_id, opened, closed, c'. split_and!; try done.
    + simpl. apply list_lookup_insert_eq. by eapply lookup_lt_Some.
    + apply close_Ok in Hclose as (rs & -> & _). simpl.
      destruct Hsame as [extra ->]. simpl.
      by apply new_node_start in Hopened as (_ & _ & _ & -> & _).
  - pose proof (inv_stack_nonempty _ Hinv) as (t & b & Hs). by rewrite Hs in Hnil.
Qed.

(** C8. A node is found from the root as soon as it exists and is still
    found in the tree the builder returns, with the children it had and
    any it got later.  In particular the node of a [start] probe that is
    never closed is in the returned tree, and it has no rectangle. *)
Theorem created_nodes_stay_reachable (before after : list probe)
        (st : build_state) (s : list ShadowNode.t) :
  run init_state before = Ok st →
  build_shadow_dom (before ++ after) = Ok (s, root_ref) →
  (∀ r n, objs st !! r = Some n →
     reach (objs st) root_ref r
     ∧ ∃ n', s !! r = Some n'
             ∧ reach s root_ref r
             ∧ ∃ extra, ShadowNode.children n' = ShadowNode.children n ++ extra)
  ∧ (∀ p rest,
       after = p :: rest → marker_of p = MStart → stays_open_from 0 rest = true →
       ∃ node, s !! length (objs st) = Some node
               ∧ reach s root_ref (length (objs st))
               ∧ ShadowNode.rects node = []
               ∧ ShadowNode.is_atomic node = false).
Proof.
  intros Hrun Hbuild.
  pose proof (inv_run _ _ _ inv_init Hrun) as Hinv.
  destruct (build_shadow_dom_inv _ _ _ Hbuild) as (st_end & Hend).
  destruct (build_shadow_dom_run _ _ Hend) as (root & Hroot & Hs).
  rewrite Hs in Hbuild. injection Hbuild as <-.
  pose proof (inv_run _ _ _ inv_init Hend) as Hinv_end.
  rewrite run_app, Hrun in Hend. simpl in Hend.
  assert (Hfin : extends (objs st_end)
                   (<[root_ref := ShadowNode.with_payload root
                        (JDict [("pages", JInt (Z.of_nat (length (pages_seen st_end))))])]>
                      (objs st_end))).
  { by eapply insert_extends. }
  assert (Hreach : ∀ r m, objs st_end !! r = Some m →
            reach (<[root_ref := ShadowNode.with_payload root
                        (JDict [("pages", JInt (Z.of_nat (length (pages_seen st_end))))])]>
                      (objs st_end)) root_ref r).
  { intros r m Hm. eapply reach_mono; [exact Hfin|].
    apply (inv_reach _ Hinv_end). by eapply lookup_lt_Some. }
  split.
  - intros r n Hn. split.
    + apply (inv_reach _ Hinv). by eapply lookup_lt_Some.
    + destruct (run_extends _ _ _ Hend _ _ Hn) as (n1 & Hn1 & e1 & Hc1).
      destruct (Hfin _ _ Hn1) as (n2 & Hn2 & e2 & Hc2).
      exists n2. split_and!; [done|by eapply Hreach|].
      exists (e1 ++ e2). by rewrite Hc2, Hc1, app_assoc.
  - intros p rest -> Hstart Hopen. simpl in Hend. bind_inv Hend. rename a into st1.
    apply step_inv in Hbind
      as (d & seen & top & below & Hpl & Hseen & Hst & Hcase).
    rewrite (marker_of_payload p d Hpl) in Hstart. rewrite Hstart in Hcase.
    destruct Hcase as (par & new_id & node & Hpar & _ & _ & ->).
    assert (∃ ext', stack st_end = ext' ++ length (objs st) :: stack st)
      as (ext' & Hstack).
    { eapply (run_stays_open rest _ _ [] _ 0); [|done..]. done. }
    assert (Hin : length (objs st) ∈ stack st_end).
    { rewrite Hstack. apply elem_of_app. right. apply list_elem_of_here. }
    pose proof (inv_bound _ Hinv_end _ Hin) as Hlt.
    destruct (lookup_lt_is_Some_2 _ _ Hlt) as (m & Hm).
    destruct (inv_open _ Hinv_end _ _ Hin Hm) as (Hrects & Hatom).
    assert (Hne : length (objs st) ≠ root_ref).
    { apply lookup_lt_Some in Hpar. unfold root_ref. lia. }
    exists m. split_and!; [|by eapply Hreach|done..].
    by rewrite list_lookup_insert_ne.
Qed.

(** ** Claims about the collector *)

Lemma tree_induction (P : tree → Prop) :
  (∀ n kids, Forall P kids → P (TNode n kids)) → ∀ t, P t.
Proof.
  intros H. fix IH 1. intros [n kids]. apply H.
  induction kids as [|k kids IHk]; constructor; [apply IH|apply IHk].
Qed.

Lemma flat_map_flat_map {A B C} (f : B → list C) (g : A → list B) (l : list A) :
  flat_map f (flat_map g l) = flat_map (fun a => flat_map f (g a)) l.
Proof.
  induction l as [|a l IH]; simpl; [done|].
  by rewrite flat_map_app, IH.
Qed.

Lemma preorder_triples_node n kids :
  preorder_triples (TNode n kids) = node_triples n ++ flat_map preorder_triples kids.
Proof.
  unfold preorder_triples. simpl. by rewrite flat_map_flat_map.
Qed.

Lemma length_flat_map_sum {A B} (f : A → list B) (l : list A) :
  length (flat_map f l) = sum_list (map (fun a => length (f a)) l).
Proof.
  induction l as [|a l IH]; simpl; [done|].
  by rewrite length_app, IH.
Qed.

(** The loop over the children, given that each child is collected as
    specified. *)
Lemma collect_children (s : list ShadowNode.t) fuel :
  ∀ kids cs acc,
    Forall (λ k, ∀ r results, repr s r k →
                 collect_all_rects fuel r (s, results)
                 = Ok (s, results ++ preorder_triples k)) kids →
    Forall2 (repr s) cs kids →
    foldM (fun acc child => collect_all_rects fuel child acc) (s, acc) cs
    = Ok (s, acc ++ flat_map preorder_triples kids).
Proof.
  induction kids as [|k kids IH]; intros cs acc Hall Hrepr.
  - apply Forall2_nil_inv_r in Hrepr as ->. simpl. by rewrite app_nil_r.
  - apply Forall2_cons_inv_r in Hrepr as (c & cs' & Hk & Hrest & ->).
    apply Forall_cons in Hall as [Hc Hall].
    simpl. rewrite (Hc c acc Hk). simpl.
    rewrite (IH cs' _ Hall Hrest). by rewrite app_assoc.
Qed.

Lemma collect_all_rects_spec (s : list ShadowNode.t) :
  ∀ t fuel r results,
    repr s r t → height t ≤ fuel →
    collect_all_rects fuel r (s, results) = Ok (s, results ++ preorder_triples t).
Proof.
  induction t as [n kids IH] using tree_induction.
  intros fuel r results Hrepr Hfuel. inversion Hrepr as [r0 n0 kids0 Hn Hkids]; subst.
  simpl in Hfuel.
  destruct fuel as [|fuel]; [lia|]. simpl. rewrite Hn.
  rewrite preorder_triples_node, app_assoc.
  apply collect_children; [|done].
  apply Forall_forall. intros k Hk r' results' Hr'.
  rewrite Forall_forall in IH. apply IH; [done..|].
  assert (height k ≤ max_list (map height kids)); [|lia].
  apply max_list_elem_of_le, list_elem_of_fmap. eauto.
Qed.

(** C7. Whatever tree hangs from [node], and whatever [results] holds
    already, the collector appends the triples of the tree in pre-order
    (a node's own rectangles in stored order, then its children's, child
    by child in stored order) and leaves the store as it was; the number of
    triples is the sum of the rectangle counts of the nodes; a root without
    rectangles and children gives no triple at all.  The recursion needs a
    depth of the height of the tree. *)
Theorem collect_all_rects_preorder (s : list ShadowNode.t) (node : ref) (t : tree)
        (results : list triple) (fuel : nat) :
  repr s node t →
  height t ≤ fuel →
  collect_all_rects fuel node (s, results) = Ok (s, results ++ preorder_triples t)
  ∧ length (preorder_triples t) = rect_count t
  ∧ (∀ n, t = TNode n [] → ShadowNode.rects n = [] →
          collect_all_rects fuel node (s, []) = Ok (s, [])).
Proof.
  intros Hrepr Hfuel. split_and!.
  - by apply collect_all_rects_spec.
  - unfold preorder_triples, rect_count. rewrite length_flat_map_sum.
    f_equal. apply map_ext. intros n. unfold node_triples. apply length_map.
  - intros n -> Hrects.
    rewrite (collect_all_rects_spec s _ fuel node [] Hrepr Hfuel).
    unfold preorder_triples, node_triples. simpl. by rewrite Hrects.
Qed.

(** The store the builder returns holds a tree, and the number of its
    objects is depth enough to collect it. *)
Lemma children_trees (s : list ShadowNode.t) bound :
  ∀ cs, (∀ c, c ∈ cs → ∃ t, repr s c t ∧ height t ≤ bound) →
        ∃ kids, Forall2 (repr s) cs kids ∧ max_list (map height kids) ≤ bound.
Proof.
  induction cs as [|c cs IH]; intros H.
  - exists []. split; [constructor|simpl; lia].
  - destruct (H c) as (t & Ht & Hh); [apply list_elem_of_here|].
    destruct IH as (kids & Hkids & Hmax).
    { intros c' Hc'. apply H. by apply list_elem_of_further. }
    exists (t :: kids). split; [by constructor|]. simpl. lia.
Qed.

Lemma children_ok_repr (s : list ShadowNode.t) :
  children_ok s →
  ∀ k r, length s - r ≤ k → r < length s →
         ∃ t, repr s r t ∧ height t ≤ length s - r.
Proof.
  intros Hok. induction k as [|k IH]; intros r Hk Hr; [lia|].
  destruct (lookup_lt_is_Some_2 _ _ Hr) as (n & Hn).
  destruct (children_trees s (length s - r - 1) (ShadowNode.children n))
    as (kids & Hkids & Hmax).
  { intros c Hc. pose proof (Hok _ _ _ Hn Hc) as Hlt.
    destruct (IH c) as (t & Ht & Hh); [lia..|].
    exists t. split; [done|lia]. }
  exists (TNode n kids). split; [by constructor|]. simpl. lia.
Qed.

Lemma build_shadow_dom_tree probes s root :
  build_shadow_dom probes = Ok (s, root) →
  ∃ t, repr s root t
       ∧ collect_all_rects (length s) root (s, []) = Ok (s, preorder_triples t).
Proof.
  intros Hbuild.
  destruct (build_shadow_dom_inv _ _ _ Hbuild) as (st & Hrun).
  destruct (build_shadow_dom_run _ _ Hrun) as (rt & Hrt & Hs).
  rewrite Hs in Hbuild. injection Hbuild as <- <-.
  pose proof (inv_run _ _ _ inv_init Hrun) as Hinv.
  assert (Hok : children_ok (<[root_ref := ShadowNode.with_payload rt
             (JDict [("pages", JInt (Z.of_nat (length (pages_seen st))))])]> (objs st))).
  { eapply insert_children_ok; [apply (inv_children _ Hinv)|done..]. }
  destruct (children_ok_repr _ Hok _ root_ref (Nat.le_refl _)) as (t & Ht & Hh).
  { rewrite length_insert. by eapply lookup_lt_Some. }
  exists t. split; [done|].
  rewrite (collect_all_rects_spec _ t _ root_ref [] Ht); [done|].
  unfold root_ref in Hh. by rewrite Nat.sub_0_r in Hh.
Qed.

(** ** Claims about the empty input *)

(** C9. On the empty sequence the builder returns a root of kind
    "DOCUMENT" and id "ROOT" without children, whose payload records 0
    pages.  Both renderers take that root without raising: the overlay is
    the fixed head, with 0 rectangles and 0 pages in its legend, followed at
    once by the closing tags, with no page panel between them; the tree
    printer writes its heading line and nothing else. *)
Theorem empty_input (repr_other : json → result string)
        (fmt_fixed : nat → json → result string) (fuel : nat) :
  ∃ root html,
    build_shadow_dom [] = Ok ([root], root_ref)
    ∧ ShadowNode.kind root = JStr "DOCUMENT"
    ∧ ShadowNode.id root = JStr "ROOT"
    ∧ ShadowNode.children root = []
    ∧ ShadowNode.payload root = JDict [("pages", JInt 0)]
    ∧ export_html_parts repr_other fmt_fixed (S fuel) [root] root_ref
      = Ok [HTML_HEAD +:+ "0 rects across 0 pages" +:+ nl +:+ "    </div>" +:+ nl;
            HTML_FOOT]
    ∧ export_html repr_other fmt_fixed (S fuel) [root] root_ref = Ok html
    ∧ String.prefix "<!DOCTYPE html>" html = true
    ∧ str_contains ("</body>" +:+ nl +:+ "</html>") html = true
    ∧ str_contains ("<div class=" +:+ dq +:+ "page-container") html = false
    ∧ print_tree repr_other fmt_fixed fuel [root] root_ref
      = Ok ("[DOCUMENT-ROOT] (Pages: 0)" +:+ nl).
Proof.
  eexists _, _. split_and!; try reflexivity.
  all: vm_compute; reflexivity.
Qed.

(** ** The claims at concrete inputs *)

Lemma well_nested_balanced_witness :
  well_nested scenario_nested = true
  ∧ Forall (λ p, probe_wf p = true) scenario_nested
  ∧ Forall (λ p, probe_y_ok p = true) scenario_nested
  ∧ (∃ s, build_shadow_dom scenario_nested = Ok (s, root_ref))
  ∧ (∃ st, run init_state scenario_nested = Ok st
           ∧ pushes st = pops st ∧ stack st = [root_ref]).
Proof.
  assert (Hwf : Forall (λ p, probe_wf p = true) scenario_nested)
    by (repeat constructor).
  assert (Hrange : Forall (λ p, probe_y_ok p = true) scenario_nested)
    by (repeat constructor; vm_compute; reflexivity).
  destruct (well_nested_balanced scenario_nested eq_refl) as [Htotal Hbalanced].
  split; [reflexivity|]. split; [exact Hwf|]. split; [exact Hrange|].
  split; [exact (Htotal Hwf Hrange)|].
  eexists. split; [vm_compute; reflexivity|]. apply Hbalanced. vm_compute. reflexivity.
Defined.



Lemma end_at_root_ignored_witness :
  probe_payload probe_end = JDict edge_end
  ∧ dict_get edge_end "edge" JNull = JStr "end"
  ∧ stack init_state = [root_ref]
  ∧ note_page (probe_location probe_end) (pages_seen init_state) = Ok [JInt 1]
  ∧ ∃ st', step init_state probe_end = Ok st'
           ∧ objs st' = objs init_state
           ∧ stack st' = stack init_state
           ∧ pushes st' = pushes init_state
           ∧ pops st' = pops init_state
           ∧ pages_seen st' = [JInt 1].
Proof.
  split_and!; [reflexivity..|].
  apply (end_at_root_ignored init_state probe_end edge_end [JInt 1]); reflexivity.
Defined.

Lemma start_node_id_witness :
  probe_payload probe_plain = JDict edge_start
  ∧ dict_get edge_start "edge" JNull = JStr "start"
  ∧ probe_id probe_plain = JStr "p1-start"
  ∧ probe_location probe_plain = JDict (loc_dict 1 0 100)
  ∧ note_page (JDict (loc_dict 1 0 100)) (pages_seen init_state) = Ok [JInt 1]
  ∧ stack init_state = [root_ref]
  ∧ objs init_state !! root_ref = Some root_node
  ∧ (∃ st' node,
       step init_state probe_plain = Ok st'
       ∧ objs st' !! length (objs init_state) = Some node
       ∧ ShadowNode.id node = JStr (str_replace "p1-start" "-start" "")
       ∧ stack st' = length (objs init_state) :: stack init_state)
  ∧ str_replace "p1-start" "-start" "" = "p1"
  ∧ str_replace "p1" "-start" "" = "p1".
Proof.
  destruct (start_node_id init_state probe_plain edge_start (loc_dict 1 0 100)
              "p1-start" [JInt 1] root_ref [] root_node
              eq_refl eq_refl eq_refl eq_refl eq_refl eq_refl eq_refl)
    as (Hstep & _ & Hsuffix).
  destruct (start_node_id init_state probe_bare edge_start (loc_dict 1 0 100)
              "p1" [JInt 1] root_ref [] root_node
              eq_refl eq_refl eq_refl eq_refl eq_refl eq_refl eq_refl)
    as (_ & Hnone & _).
  repeat (split; [reflexivity|]). split; [exact Hstep|].
  split; [exact (Hsuffix "p1" eq_refl eq_refl)|exact (Hnone eq_refl)].
Defined.

Lemma atomic_probe_witness :
  probe_payload probe_mark = JDict []
  ∧ assoc "edge" ([] : list (string * json)) = None
  ∧ probe_location probe_mark = JDict (loc_dict 1 3 4)
  ∧ note_page (JDict (loc_dict 1 3 4)) (pages_seen init_state) = Ok [JInt 1]
  ∧ stack init_state = [root_ref]
  ∧ objs init_state !! root_ref = Some root_node
  ∧ ∃ st' node par',
      step init_state probe_mark = Ok st'
      ∧ objs st' !! 1 = Some node
      ∧ ShadowNode.is_atomic node = true
      ∧ ShadowNode.id node = JStr "mark"
      ∧ ShadowNode.rects node = [Rect.mk (JInt 1) (JInt 3) (JInt 4) (JInt 10) (JInt 10)]
      ∧ objs st' !! root_ref = Some par'
      ∧ ShadowNode.children par' = [1]
      ∧ stack st' = [root_ref]
      ∧ pushes st' = 0
      ∧ ∃ cx cy, head (ShadowNode.rects node) ≫= rect_centre = Some (cx, cy)
                 ∧ (cx == 3 + 5)%Q ∧ (cy == 4 + 5)%Q.
Proof.
  repeat (split; [reflexivity|]).
  destruct (atomic_probe init_state probe_mark [] (loc_dict 1 3 4) [JInt 1]
              root_ref [] root_node eq_refl eq_refl eq_refl eq_refl eq_refl eq_refl)
    as (st' & node & par' & H1 & H2 & H3 & H4 & H5 & H6 & H7 & H8 & H9 & H10).
  exists st', node, par'.
  exact (conj H1 (conj H2 (conj H3 (conj H4 (conj H5 (conj H6 (conj H7 (conj H8
           (conj H9 (H10 3%Q 4%Q eq_refl eq_refl)))))))))).
Defined.

Lemma unrecognised_edge_is_atomic_witness :
  probe_payload probe_upper = JDict [("edge", JStr "END")]
  ∧ dict_get [("edge", JStr "END")] "edge" JNull = JStr "END"
  ∧ JStr "END" ≠ JStr "start"
  ∧ JStr "END" ≠ JStr "end"
  ∧ probe_location probe_upper = JDict (loc_dict 1 3 4)
  ∧ note_page (JDict (loc_dict 1 3 4)) (pages_seen init_state) = Ok [JInt 1]
  ∧ stack init_state = [root_ref]
  ∧ objs init_state !! root_ref = Some root_node
  ∧ (∃ st' node,
       step init_state probe_upper = Ok st'
       ∧ objs st' !! length (objs init_state) = Some node
       ∧ ShadowNode.is_atomic node = true
       ∧ ShadowNode.rects node =
           [Rect.mk (loc_page (loc_dict 1 3 4)) (loc_x (loc_dict 1 3 4))
                    (loc_y (loc_dict 1 3 4)) (JInt 10) (JInt 10)]
       ∧ stack st' = stack init_state
       ∧ pushes st' = pushes init_state ∧ pops st' = pops init_state)
  ∧ (∀ v, step init_state (dict_set "edge" v probe_upper) = step init_state probe_upper).
Proof.
  repeat (split; [first [reflexivity|discriminate]|]).
  apply (unrecognised_edge_is_atomic init_state probe_upper [("edge", JStr "END")]
           (loc_dict 1 3 4) (JStr "END") [JInt 1] root_ref [] root_node);
    first [reflexivity|discriminate].
Defined.

Lemma collect_all_rects_preorder_witness :
  (repr sample_store root_ref sample_tree
   ∧ height sample_tree ≤ 3
   ∧ collect_all_rects 3 root_ref (sample_store, [])
     = Ok (sample_store, [] ++ preorder_triples sample_tree)
   ∧ length (preorder_triples sample_tree) = rect_count sample_tree)
  ∧ (repr [root_node] root_ref (TNode root_node [])
     ∧ height (TNode root_node []) ≤ 1
     ∧ collect_all_rects 1 root_ref ([root_node], []) = Ok ([root_node], [])).
Proof.
  assert (Hrepr : repr sample_store root_ref sample_tree).
  { apply (repr_node _ 0 sample_root); [reflexivity|].
    constructor; [|constructor].
    apply (repr_node _ 1 sample_mid); [reflexivity|].
    constructor; [|constructor].
    apply (repr_node _ 2 sample_leaf); [reflexivity|constructor]. }
  assert (Hheight : height sample_tree ≤ 3) by (simpl; lia).
  assert (Hempty : repr [root_node] root_ref (TNode root_node [])).
  { apply (repr_node _ 0 root_node); [reflexivity|constructor]. }
  assert (Hone : height (TNode root_node []) ≤ 1) by (simpl; lia).
  destruct (collect_all_rects_preorder sample_store root_ref sample_tree [] 3
              Hrepr Hheight) as (Hcollect & Hcount & _).
  destruct (collect_all_rects_preorder [root_node] root_ref (TNode root_node []) [] 1
              Hempty Hone) as (_ & _ & Hnone).
  split.
  - exact (conj Hrepr (conj Hheight (conj Hcollect Hcount))).
  - exact (conj Hempty (conj Hone (Hnone root_node eq_refl eq_refl))).
Defined.

Lemma created_nodes_stay_reachable_witness :
  ∃ st s,
    run init_state [] = Ok st
    ∧ build_shadow_dom ([] ++ scenario_unclosed) = Ok (s, root_ref)
    ∧ (∀ r n, objs st !! r = Some n →
         reach (objs st) root_ref r
         ∧ ∃ n', s !! r = Some n'
                 ∧ reach s root_ref r
                 ∧ ∃ extra, ShadowNode.children n' = ShadowNode.children n ++ extra)
    ∧ (∃ node, s !! length (objs st) = Some node
               ∧ reach s root_ref (length (objs st))
               ∧ ShadowNode.rects node = []
               ∧ ShadowNode.is_atomic node = false).
Proof.
  eexists _, _. split; [vm_compute; reflexivity|]. split; [vm_compute; reflexivity|].
  destruct (created_nodes_stay_reachable [] scenario_unclosed _ _ eq_refl eq_refl)
    as [Hall Hopen].
  split; [exact Hall|].
  exact (Hopen _ _ eq_refl eq_refl eq_refl).
Defined.

(** ** The scenarios of the specification *)

Example scenario_1_result :
  ∃ s root child,
    build_shadow_dom scenario_1 = Ok (s, root_ref)
    ∧ s !! root_ref = Some root
    ∧ ShadowNode.children root = [1]
    ∧ s !! 1 = Some child
    ∧ ShadowNode.id child = JStr "p1"
    ∧ ShadowNode.rects child =
        [Rect.mk (JInt 1) (JInt 0) (JInt 100) DEFAULT_RECT_WIDTH (JInt 40)].
Proof. eexists _, _, _. repeat (split; [vm_compute; reflexivity|]); vm_compute; reflexivity. Qed.

Example scenario_2_result :
  ∃ s child,
    build_shadow_dom scenario_2 = Ok (s, root_ref)
    ∧ s !! 1 = Some child
    ∧ ShadowNode.rects child =
        [Rect.mk (JInt 1) (JInt 0) (JInt 800) DEFAULT_RECT_WIDTH (JInt 50);
         Rect.mk (JInt 2) (JInt 0) (JInt 50) DEFAULT_RECT_WIDTH (JInt 50)].
Proof. eexists _, _. repeat (split; [vm_compute; reflexivity|]); vm_compute; reflexivity. Qed.

Example scenario_3_result :
  ∃ s root child,
    build_shadow_dom [probe_mark] = Ok (s, root_ref)
    ∧ s !! root_ref = Some root
    ∧ ShadowNode.children root = [1]
    ∧ s !! 1 = Some child
    ∧ ShadowNode.is_atomic child = true
    ∧ ShadowNode.rects child = [Rect.mk (JInt 1) (JInt 3) (JInt 4) (JInt 10) (JInt 10)].
Proof. eexists _, _, _. repeat (split; [vm_compute; reflexivity|]); vm_compute; reflexivity. Qed.

(** The ignored [end] leaves the root without children, but its page is
    counted. *)
Example scenario_4_result :
  ∃ root,
    build_shadow_dom scenario_4 = Ok ([root], root_ref)
    ∧ ShadowNode.children root = []
    ∧ ShadowNode.payload root = JDict [("pages", JInt 1)].
Proof. eexists. repeat (split; [vm_compute; reflexivity|]); vm_compute; reflexivity. Qed.

(** A node closed above the point where it was opened gets the minimum
    height. *)
Example inverted_close :
  ∃ n0 n1,
    ShadowNode.set_start sample_node (JDict (loc_dict 1 0 140)) = Ok n0
    ∧ ShadowNode.close n0 (JDict (loc_dict 1 0 100)) = Ok n1
    ∧ ShadowNode.rects n1 =
        [Rect.mk (JInt 1) (JInt 0) (JInt 140) DEFAULT_RECT_WIDTH (JInt 15)].
Proof. eexists _, _. repeat (split; [vm_compute; reflexivity|]); vm_compute; reflexivity. Qed.

Example scenario_nested_balanced : balanced (marker_of <$> scenario_nested).
Proof.
  apply (balanced_pair [MStart; MAtomic; MEnd] []); [|constructor].
  apply (balanced_pair [MAtomic] []); repeat constructor.
Qed.

(** Probes that are not of the promised shape make the builder raise. *)
Example payload_not_an_object :
  build_shadow_dom [[("id", JStr "a"); ("payload", JStr "x")]] = Err AttributeError.
Proof. reflexivity. Qed.

Example page_not_hashable :
  build_shadow_dom [[("id", JStr "a"); ("location", JDict [("page", JList [JInt 1])])]]
  = Err TypeError.
Proof. reflexivity. Qed.

Example start_id_not_a_string :
  build_shadow_dom [[("id", JInt 7); ("payload", JDict edge_start)]] = Err AttributeError.
Proof. reflexivity. Qed.

(** * Further properties of the code *)

(** ** The builder as a whole *)

(** X1. The builder never raises on probes of the promised shape (the
    identifier a string, payload and location objects, the page an integer,
    x and y numbers, any of them missing) whose y, when it is an int, can
    be taken as a float, whatever their markers and whatever their
    nesting. *)
Theorem well_formed_probes_never_raise (probes : list probe) :
  Forall (λ p, probe_wf p = true) probes →
  Forall (λ p, probe_y_ok p = true) probes →
  ∃ s, build_shadow_dom probes = Ok (s, root_ref).
Proof.
  intros Hwf Hrange.
  destruct (run_total probes init_state inv_init open_numeric_init Hwf Hrange)
    as (st & Hrun).
  destruct (build_shadow_dom_run probes st Hrun) as (root & _ & ->). eauto.
Qed.

Lemma well_formed_probes_never_raise_witness :
  Forall (λ p, probe_wf p = true) (scenario_unclosed ++ scenario_4)
  ∧ Forall (λ p, probe_y_ok p = true) (scenario_unclosed ++ scenario_4)
  ∧ ∃ s, build_shadow_dom (scenario_unclosed ++ scenario_4) = Ok (s, root_ref).
Proof.
  assert (Hwf : Forall (λ p, probe_wf p = true) (scenario_unclosed ++ scenario_4))
    by (repeat constructor).
  assert (Hrange : Forall (λ p, probe_y_ok p = true) (scenario_unclosed ++ scenario_4))
    by (repeat constructor; vm_compute; reflexivity).
  exact (conj Hwf (conj Hrange (well_formed_probes_never_raise _ Hwf Hrange))).
Defined.

(** X2. The root is never popped and never closed: in every state the
    builder gets into, the root is the bottom of the stack and nowhere else
    on it, it still has kind "DOCUMENT", id "ROOT" and no rectangle, and
    the number of open nodes above it is the number of pushes minus the
    number of pops. *)
Theorem root_is_never_popped (probes : list probe) (st : build_state) :
  run init_state probes = Ok st →
  ∃ open root,
    stack st = open ++ [root_ref]
    ∧ (root_ref ∉ open)
    ∧ objs st !! root_ref = Some root
    ∧ ShadowNode.kind root = JStr "DOCUMENT"
    ∧ ShadowNode.id root = JStr "ROOT"
    ∧ ShadowNode.rects root = []
    ∧ pushes st = pops st + length open.
Proof.
  intros Hrun.
  pose proof (inv_run _ _ _ inv_init Hrun) as Hinv.
  destruct (root_kept_run _ _ _ inv_init root_kept_init Hrun)
    as (root & Hroot & Hk & Hi & _ & Hr).
  destruct (proj1 (last_Some _ _) (inv_root _ Hinv)) as [open Hst].
  exists open, root. split_and!; try done.
  - pose proof (inv_nodup _ Hinv) as Hnd. rewrite Hst in Hnd.
    apply NoDup_app in Hnd as (_ & Hdis & _). intros Hin.
    apply (Hdis _ Hin). apply list_elem_of_here.
  - pose proof (inv_count _ Hinv) as Hc. rewrite Hst, length_app in Hc.
    simpl in Hc. lia.
Qed.

Lemma root_is_never_popped_witness :
  ∃ st,
    run init_state (scenario_4 ++ scenario_unclosed ++ scenario_4) = Ok st
    ∧ ∃ open root,
        stack st = open ++ [root_ref]
        ∧ (root_ref ∉ open)
        ∧ objs st !! root_ref = Some root
        ∧ ShadowNode.kind root = JStr "DOCUMENT"
        ∧ ShadowNode.id root = JStr "ROOT"
        ∧ ShadowNode.rects root = []
        ∧ pushes st = pops st + length open.
Proof.
  eexists. split; [vm_compute; reflexivity|].
  apply (root_is_never_popped (scenario_4 ++ scenario_unclosed ++ scenario_4)).
  vm_compute. reflexivity.
Defined.

Lemma run_length probes :
  ∀ st st', run st probes = Ok st' →
            length (objs st') = length (objs st) + length (List.filter creates_node probes).
Proof.
  induction probes as [|p probes IH]; simpl; intros st st' H.
  - injection H as <-. lia.
  - bind_inv H. rename a into st1. rewrite (IH _ _ H).
    apply step_inv in Hbind as (d & seen & top & below & Hpl & _ & _ & Hcase).
    unfold creates_node. rewrite (marker_of_payload p d Hpl).
    destruct (classify _).
    + destruct Hcase as (par & new_id & node & _ & _ & _ & ->). simpl.
      rewrite attach_length. lia.
    + destruct Hcase as [(_ & c & c' & _ & _ & ->)|(_ & ->)]; simpl;
        rewrite ?length_insert; lia.
    + destruct Hcase as (par & node & _ & _ & ->). simpl.
      rewrite attach_length. lia.
Qed.

(** X3. The returned store holds the root and one node for every probe
    that is not an [end]: an [end] probe never makes a node, every other
    probe makes exactly one, and no node is ever dropped. *)
Theorem one_node_per_opening_probe (probes : list probe) (s : list ShadowNode.t) :
  build_shadow_dom probes = Ok (s, root_ref) →
  length s = 1 + length (List.filter creates_node probes).
Proof.
  intros Hbuild.
  destruct (build_shadow_dom_inv _ _ _ Hbuild) as (st & Hrun).
  destruct (build_shadow_dom_run _ _ Hrun) as (rt & _ & Hs).
  rewrite Hs in Hbuild. injection Hbuild as <-.
  rewrite length_insert. by rewrite (run_length _ _ _ Hrun).
Qed.

Lemma one_node_per_opening_probe_witness :
  ∃ s,
    build_shadow_dom scenario_nested = Ok (s, root_ref)
    ∧ length s = 1 + length (List.filter creates_node scenario_nested).
Proof.
  eexists. split; [vm_compute; reflexivity|].
  apply (one_node_per_opening_probe scenario_nested). vm_compute. reflexivity.
Defined.

Lemma run_other_field k v probes :
  k ∉ fields_read →
  ∀ st, run st (dict_set k v <$> probes) = run st probes.
Proof.
  intros Hk. induction probes as [|p probes IH]; intros st; simpl; [done|].
  rewrite (step_reads_five_fields st p k v Hk).
  destruct (step st p); simpl; [apply IH|done].
Qed.

(** X4. The builder looks at five fields of a probe record and at nothing
    else in it: setting any other field, on every probe, to any value
    changes neither the returned tree nor whether the builder raises. *)
Theorem other_fields_are_ignored (k : string) (v : json) (probes : list probe) :
  k ∉ fields_read →
  build_shadow_dom (dict_set k v <$> probes) = build_shadow_dom probes.
Proof.
  intros Hk. unfold build_shadow_dom. by rewrite run_other_field.
Qed.

Lemma other_fields_are_ignored_witness :
  ("edge" ∉ fields_read)
  ∧ build_shadow_dom (dict_set "edge" (JStr "start") <$> scenario_4)
    = build_shadow_dom scenario_4.
Proof.
  assert (Hk : "edge" ∉ fields_read).
  { intros Hin. apply list_elem_of_In in Hin. simpl in Hin.
    repeat (destruct Hin as [Hin|Hin]; [discriminate Hin|]). exact Hin. }
  exact (conj Hk (other_fields_are_ignored "edge" (JStr "start") scenario_4 Hk)).
Defined.

(** ** The nodes of the returned tree *)

Lemma not_below_weaken (c c' : Z) v : (c' <= c)%Z → not_below c v → not_below c' v.
Proof.
  intros Hc (x & Hx & Hlt). exists x. split; [done|].
  destruct x as [|s|q]; simpl in *; [done..|].
  destruct (Qlt_le_dec q (inject_Z c)) as [|Hge]; [done|].
  destruct (Qlt_le_dec q (inject_Z c')) as [Hlt'|]; [|done].
  exfalso. apply (Qlt_irrefl q). eapply Qlt_le_trans; [exact Hlt'|].
  eapply Qle_trans; [|exact Hge]. by rewrite <- Zle_Qle.
Qed.

(** The rectangles [close] appends. *)
Lemma close_rects n loc n' :
  ShadowNode.close n loc = Ok n' →
  ∃ rs, n' = ShadowNode.with_rects n (ShadowNode.rects n ++ rs)
        ∧ (length rs = 1 ∨ length rs = 2)
        ∧ Forall paired_rect_ok rs.
Proof.
  unfold ShadowNode.close. intros H.
  bind_inv H. bind_inv H. bind_inv H.
  destruct (py_eq _ _).
  - bind_inv H. bind_inv H. injection H as <-.
    apply py_max_not_below in Hbind3.
    eexists. split; [done|]. split; [by left|].
    by repeat constructor.
  - bind_inv H. bind_inv H. bind_inv H. bind_inv H. bind_inv H. injection H as <-.
    apply py_max_not_below, (not_below_weaken 50 15) in Hbind4; [|done].
    apply py_max_not_below, (not_below_weaken 50 15) in Hbind6; [|done].
    rewrite <- app_assoc. eexists. split; [done|]. split; [by right|].
    by repeat constructor.
Qed.

Lemma census_attach (s : list ShadowNode.t) top par node :
  (∀ r n, s !! r = Some n → node_census n) →
  s !! top = Some par → ShadowNode.is_atomic par = false →
  node_census node →
  ∀ r n, attach s top par node !! r = Some n → node_census n.
Proof.
  intros Hall Htop Hpar Hnode r n Hn.
  destruct (decide (r = top)) as [->|Hne].
  - rewrite attach_lookup_top in Hn by done. injection Hn as <-.
    specialize (Hall _ _ Htop). unfold node_census in *. simpl.
    by rewrite Hpar in *.
  - destruct (decide (r = length s)) as [->|Hne'].
    + rewrite attach_lookup_new in Hn. by injection Hn as <-.
    + rewrite attach_lookup_old in Hn; [by eapply Hall|done|].
      apply lookup_lt_Some in Hn. rewrite attach_length in Hn. lia.
Qed.

Lemma census_step st p st' :
  inv st → (∀ r n, objs st !! r = Some n → node_census n) →
  step st p = Ok st' →
  ∀ r n, objs st' !! r = Some n → node_census n.
Proof.
  intros Hinv Hall (d & seen & top & below & Hpl & Hseen & Hst & Hcase)%step_inv.
  assert (Htop : top ∈ stack st) by (rewrite Hst; apply list_elem_of_here).
  destruct (classify _).
  - destruct Hcase as (par & new_id & node & Hpar & _ & Hnode & ->).
    apply new_node_start in Hnode as (_ & Hr & Ha & _).
    apply census_attach; [done..|by apply (inv_open _ Hinv top)|].
    unfold node_census. rewrite Ha, Hr. split; [simpl; lia|constructor].
  - destruct Hcase as [(Hne & closed & closed' & Hc & Hclose & ->)|(-> & ->)]; [|done].
    destruct (inv_open _ Hinv _ _ Htop Hc) as (Hr & Ha).
    apply close_rects in Hclose as (rs & -> & Hlen & Hrs).
    intros r n Hn. simpl in Hn. destruct (decide (r = top)) as [->|Hne'].
    + rewrite list_lookup_insert_eq in Hn by (by eapply lookup_lt_Some).
      injection Hn as <-. unfold node_census. simpl. rewrite Ha, Hr. simpl.
      split; [lia|done].
    + rewrite list_lookup_insert_ne in Hn by done. by eapply Hall.
  - destruct Hcase as (par & node & Hpar & Hnode & ->).
    apply new_node_atomic in Hnode as (dl & _ & Hc & Hr & Ha & _).
    apply census_attach; [done..|by apply (inv_open _ Hinv top)|].
    unfold node_census. rewrite Ha. split; [done|]. rewrite Hr. eauto.
Qed.

Lemma census_run probes :
  ∀ st st', inv st → (∀ r n, objs st !! r = Some n → node_census n) →
            run st probes = Ok st' →
            ∀ r n, objs st' !! r = Some n → node_census n.
Proof.
  induction probes as [|p probes IH]; simpl; intros st st' Hinv Hall H.
  - by injection H as <-.
  - bind_inv H. eapply IH; [| |done].
    + by eapply inv_step.
    + by eapply census_step.
Qed.

Lemma census_init : ∀ r n, objs init_state !! r = Some n → node_census n.
Proof.
  intros [|r] n Hn; [|done]. injection Hn as <-.
  unfold node_census. simpl. split; [lia|constructor].
Qed.

(** X5. Every node of the returned tree is of one of two sorts.  An atomic
    node has no children and exactly one rectangle, 10 wide and 10 high.
    Any other node has at most two rectangles, each 400.0 wide and with
    a height that is a number not below 15 (15 or more, or else NaN, which
    it is when the arithmetic on the two y gave NaN).  And a node is
    without rectangle exactly when it is the root or was opened and never
    closed. *)
Theorem node_census_of_the_tree (probes : list probe) (s : list ShadowNode.t) :
  build_shadow_dom probes = Ok (s, root_ref) →
  ∃ st,
    run init_state probes = Ok st
    ∧ ∀ r n, s !! r = Some n →
        node_census n
        ∧ (ShadowNode.rects n = [] ↔ r ∈ stack st).
Proof.
  intros Hbuild.
  destruct (build_shadow_dom_inv _ _ _ Hbuild) as (st & Hrun).
  destruct (build_shadow_dom_run _ _ Hrun) as (rt & Hrt & Hs).
  rewrite Hs in Hbuild. injection Hbuild as <-.
  pose proof (inv_run _ _ _ inv_init Hrun) as Hinv.
  exists st. split; [done|]. intros r n Hn.
  assert (∃ m, objs st !! r = Some m
               ∧ ShadowNode.rects n = ShadowNode.rects m
               ∧ (node_census m → node_census n)) as (m & Hm & Hrects & Hcensus).
  { destruct (decide (r = root_ref)) as [->|Hne].
    - rewrite list_lookup_insert_eq in Hn by (by eapply lookup_lt_Some).
      injection Hn as <-. exists rt. done.
    - rewrite list_lookup_insert_ne in Hn by done. by exists n. }
  split.
  - apply Hcensus. by eapply (census_run probes init_state st inv_init census_init Hrun).
  - rewrite Hrects. split.
    + intros Hnil. destruct (decide (r ∈ stack st)) as [|Hout]; [done|].
      destruct (inv_done _ Hinv _ _ Hout Hm) as [Hl|[_ Hl]]; by rewrite Hnil in Hl.
    + intros Hin. by apply (inv_open _ Hinv r m).
Qed.

Lemma node_census_of_the_tree_witness :
  ∃ s st,
    build_shadow_dom (scenario_unclosed ++ scenario_2) = Ok (s, root_ref)
    ∧ run init_state (scenario_unclosed ++ scenario_2) = Ok st
    ∧ ∀ r n, s !! r = Some n →
        node_census n
        ∧ (ShadowNode.rects n = [] ↔ r ∈ stack st).
Proof.
  destruct (node_census_of_the_tree (scenario_unclosed ++ scenario_2) _
              ltac:(vm_compute; reflexivity)) as (st & Hrun & Hall).
  eexists _, st. split; [vm_compute; reflexivity|]. exact (conj Hrun Hall).
Defined.

(** ** The shape of the returned tree *)

Lemma all_children_add_child (s : list ShadowNode.t) top par r :
  s !! top = Some par →
  all_children (<[top := ShadowNode.add_child par r]> s) ≡ₚ r :: all_children s.
Proof.
  intros Htop. unfold all_children.
  rewrite insert_take_drop by (by eapply lookup_lt_Some).
  rewrite <- (take_drop_middle s top par Htop) at 3.
  rewrite !fmap_app, !fmap_cons, !concat_app, !concat_cons. simpl.
  rewrite <- !app_assoc. simpl. rewrite !app_assoc.
  symmetry. apply Permutation_middle.
Qed.

Lemma all_children_same (s : list ShadowNode.t) top n n' :
  s !! top = Some n → ShadowNode.children n' = ShadowNode.children n →
  all_children (<[top := n']> s) = all_children s.
Proof.
  intros Htop Hch. unfold all_children.
  rewrite list_fmap_insert, Hch. f_equal.
  apply list_insert_id. by rewrite list_lookup_fmap, Htop.
Qed.

Lemma all_children_attach (s : list ShadowNode.t) top par node :
  s !! top = Some par → ShadowNode.children node = [] →
  all_children s ≡ₚ seq 1 (length s - 1) →
  all_children (attach s top par node) ≡ₚ seq 1 (length (attach s top par node) - 1).
Proof.
  intros Htop Hnil Hperm. rewrite attach_length.
  pose proof (lookup_lt_Some _ _ _ Htop) as Hlt.
  replace (S (length s) - 1) with (S (length s - 1)) by lia.
  rewrite seq_S. replace (1 + (length s - 1)) with (length s) by lia.
  unfold attach. unfold all_children at 1.
  rewrite fmap_app, concat_app. simpl. rewrite Hnil. simpl. rewrite app_nil_r.
  fold (all_children (<[top:=ShadowNode.add_child par (length s)]> s)).
  rewrite all_children_add_child by done. rewrite Hperm.
  apply Permutation_cons_append.
Qed.

Lemma increasing_attach (s : list ShadowNode.t) top par node :
  children_ok s → children_increasing s →
  s !! top = Some par → ShadowNode.children node = [] →
  children_increasing (attach s top par node).
Proof.
  intros Hok Hinc Htop Hnil r n i j ci cj Hn Hij Hi Hj.
  destruct (decide (r = top)) as [->|Hne].
  - rewrite attach_lookup_top in Hn by done. injection Hn as <-. simpl in *.
    destruct (decide (j < length (ShadowNode.children par))) as [Hjl|Hjl].
    + rewrite lookup_app_l in Hi by lia. rewrite lookup_app_l in Hj by lia.
      by eapply (Hinc top par i j).
    + assert (cj = length s) as ->.
      { rewrite lookup_app_r in Hj by lia.
        destruct (j - length (ShadowNode.children par)); simpl in Hj; [|done].
        by injection Hj as <-. }
      assert (i < length (ShadowNode.children par)).
      { apply lookup_lt_Some in Hj. rewrite length_app in Hj. simpl in Hj. lia. }
      rewrite lookup_app_l in Hi by done.
      assert (ci ∈ ShadowNode.children par) by (by eapply list_elem_of_lookup_2).
      specialize (Hok _ _ _ Htop H0). lia.
  - destruct (decide (r = length s)) as [->|Hne'].
    + rewrite attach_lookup_new in Hn. injection Hn as <-. by rewrite Hnil in Hi.
    + rewrite attach_lookup_old in Hn; [by eapply (Hinc r n i j)|done|].
      apply lookup_lt_Some in Hn. rewrite attach_length in Hn. lia.
Qed.

Lemma increasing_insert (s : list ShadowNode.t) top n n' :
  children_increasing s → s !! top = Some n →
  ShadowNode.children n' = ShadowNode.children n →
  children_increasing (<[top := n']> s).
Proof.
  intros Hinc Htop Hch r m i j ci cj Hm Hij Hi Hj.
  destruct (decide (r = top)) as [->|Hne].
  - rewrite list_lookup_insert_eq in Hm by (by eapply lookup_lt_Some).
    injection Hm as <-. rewrite Hch in Hi, Hj. by eapply (Hinc top n i j).
  - rewrite list_lookup_insert_ne in Hm by done. by eapply (Hinc r m i j).
Qed.

Lemma shape_step st p st' :
  inv st →
  all_children (objs st) ≡ₚ seq 1 (length (objs st) - 1) →
  children_increasing (objs st) →
  step st p = Ok st' →
  all_children (objs st') ≡ₚ seq 1 (length (objs st') - 1)
  ∧ children_increasing (objs st').
Proof.
  intros Hinv Hperm Hinc (d & seen & top & below & Hpl & Hseen & Hst & Hcase)%step_inv.
  pose proof (inv_children _ Hinv) as Hok.
  destruct (classify _).
  - destruct Hcase as (par & new_id & node & Hpar & _ & Hnode & ->).
    apply new_node_start in Hnode as (Hnil & _). simpl. split.
    + by apply all_children_attach.
    + by apply increasing_attach.
  - destruct Hcase as [(Hne & closed & closed' & Hc & Hclose & ->)|(-> & ->)]; [|done].
    apply close_Ok in Hclose as (rs & -> & _). simpl. split.
    + rewrite length_insert. by erewrite all_children_same.
    + by eapply increasing_insert.
  - destruct Hcase as (par & node & Hpar & Hnode & ->).
    apply new_node_atomic in Hnode as (dl & _ & Hnil & _). simpl. split.
    + by apply all_children_attach.
    + by apply increasing_attach.
Qed.

Lemma shape_run probes :
  ∀ st st',
    inv st →
    all_children (objs st) ≡ₚ seq 1 (length (objs st) - 1) →
    children_increasing (objs st) →
    run st probes = Ok st' →
    all_children (objs st') ≡ₚ seq 1 (length (objs st') - 1)
    ∧ children_increasing (objs st').
Proof.
  induction probes as [|p probes IH]; simpl; intros st st' Hinv Hperm Hinc H.
  - by injection H as <-.
  - bind_inv H. destruct (shape_step _ _ _ Hinv Hperm Hinc Hbind) as [Hp1 Hi1].
    eapply IH; [|done..]. by eapply inv_step.
Qed.

(** X6. The returned store is a tree in document order: the children
    lists of all nodes taken together hold every node but the root exactly
    once and never the root (so every node but the root has one parent and
    one place among its siblings), every child was created after its
    parent, and the children of a node are in the order of their creation. *)
Theorem returned_store_is_a_tree (probes : list probe) (s : list ShadowNode.t) :
  build_shadow_dom probes = Ok (s, root_ref) →
  NoDup (all_children s)
  ∧ (∀ c, c ∈ all_children s ↔ 0 < c < length s)
  ∧ (∀ r n c, s !! r = Some n → c ∈ ShadowNode.children n → r < c)
  ∧ children_increasing s.
Proof.
  intros Hbuild.
  destruct (build_shadow_dom_inv _ _ _ Hbuild) as (st & Hrun).
  destruct (build_shadow_dom_run _ _ Hrun) as (rt & Hrt & Hs).
  rewrite Hs in Hbuild. injection Hbuild as <-.
  pose proof (inv_run _ _ _ inv_init Hrun) as Hinv.
  destruct (shape_run probes init_state st inv_init) as [Hperm Hinc]; [done| |done|].
  { intros r n i j ci cj Hn. destruct r; [|done]. injection Hn as <-. done. }
  assert (Hperm' : all_children
            (<[root_ref := ShadowNode.with_payload rt
                 (JDict [("pages", JInt (Z.of_nat (length (pages_seen st))))])]>
               (objs st))
          ≡ₚ seq 1 (length (objs st) - 1)).
  { by erewrite all_children_same. }
  rewrite length_insert. split_and!.
  - rewrite Hperm'. apply NoDup_seq.
  - intros c. rewrite Hperm', elem_of_seq. lia.
  - intros r n c Hn Hc.
    assert (Hok : children_ok (<[root_ref := ShadowNode.with_payload rt
             (JDict [("pages", JInt (Z.of_nat (length (pages_seen st))))])]> (objs st))).
    { eapply insert_children_ok; [apply (inv_children _ Hinv)|done..]. }
    specialize (Hok _ _ _ Hn Hc). lia.
  - by eapply increasing_insert.
Qed.

Lemma returned_store_is_a_tree_witness :
  ∃ s,
    build_shadow_dom scenario_nested = Ok (s, root_ref)
    ∧ NoDup (all_children s)
    ∧ (∀ c, c ∈ all_children s ↔ 0 < c < length s)
    ∧ (∀ r n c, s !! r = Some n → c ∈ ShadowNode.children n → r < c)
    ∧ children_increasing s.
Proof.
  eexists. split; [vm_compute; reflexivity|].
  apply (returned_store_is_a_tree scenario_nested). vm_compute. reflexivity.
Defined.

(** ** The page count *)

Lemma step_pages st p st' :
  step st p = Ok st' →
  note_page (probe_location p) (pages_seen st) = Ok (pages_seen st').
Proof.
  intros (d & seen & top & below & Hpl & Hseen & Hst & Hcase)%step_inv.
  destruct (classify _).
  - by destruct Hcase as (par & new_id & node & _ & _ & _ & ->).
  - by destruct Hcase as [(_ & c & c' & _ & _ & ->)|(_ & ->)].
  - by destruct Hcase as (par & node & _ & _ & ->).
Qed.

Lemma py_eq_int z z' : py_eq (JInt z) (JInt z') = bool_decide (z = z').
Proof.
  simpl. destruct (Qeq_bool (inject_Z z) (inject_Z z')) eqn:E; symmetry.
  - apply bool_decide_eq_true. by apply inject_Z_injective, Qeq_bool_iff.
  - apply bool_decide_eq_false. intros ->. by rewrite Qeq_bool_refl in E.
Qed.

Lemma existsb_int z zs :
  existsb (py_eq (JInt z)) (JInt <$> zs) = bool_decide (z ∈ zs).
Proof.
  induction zs as [|z' zs IH].
  - symmetry. apply bool_decide_eq_false_2, not_elem_of_nil.
  - rewrite fmap_cons. cbn [existsb]. rewrite py_eq_int, IH.
    destruct (decide (z = z')) as [->|Hne].
    + rewrite bool_decide_eq_true_2 by done. symmetry.
      apply bool_decide_eq_true_2, list_elem_of_here.
    + rewrite (bool_decide_eq_false_2 (z = z')) by done. simpl.
      apply bool_decide_ext. rewrite elem_of_cons. tauto.
Qed.

Lemma note_page_int p zs seen :
  probe_wf p = true →
  note_page (probe_location p) (JInt <$> zs) = Ok seen →
  seen = JInt <$> (match int_page p with
                   | Some z => if decide (z ∈ zs) then zs else zs ++ [z]
                   | None => zs
                   end).
Proof.
  intros Hwf. destruct (probe_wf_location p Hwf) as (d & Hloc & Hpage & _).
  unfold int_page, probe_page. rewrite Hloc. unfold note_page. simpl.
  destruct (assoc "page" d) as [v|] eqn:Hv.
  - rewrite bool_decide_eq_true_2 by eauto. simpl.
    destruct v as [| |z| | | |]; try discriminate Hpage.
    unfold set_add. simpl. fold (py_eq (JInt z)).
    intros [= <-].
    replace (existsb _ (JInt <$> zs)) with (bool_decide (z ∈ zs)).
    2:{ symmetry. apply (existsb_int z zs). }
    destruct (decide (z ∈ zs)).
    + by rewrite bool_decide_eq_true_2.
    + rewrite bool_decide_eq_false_2 by done. by rewrite fmap_app.
  - rewrite bool_decide_eq_false_2 by (by intros [? [=]]). simpl. by intros [= <-].
Qed.

Lemma run_pages probes :
  ∀ st st' zs,
    Forall (λ p, probe_wf p = true) probes →
    pages_seen st = JInt <$> zs → NoDup zs →
    run st probes = Ok st' →
    ∃ zs', pages_seen st' = JInt <$> zs' ∧ NoDup zs'
           ∧ ∀ z, z ∈ zs' ↔ z ∈ zs ∨ z ∈ int_pages probes.
Proof.
  induction probes as [|p probes IH]; simpl; intros st st' zs Hwf Hseen Hnd H.
  - injection H as <-. exists zs. split_and!; [done..|].
    intros z. rewrite elem_of_nil. tauto.
  - apply Forall_cons in Hwf as [Hp Hwf]. bind_inv H. rename a into st1.
    apply step_pages in Hbind. rewrite Hseen in Hbind.
    apply (note_page_int p zs _ Hp) in Hbind.
    unfold int_pages. simpl. fold (int_pages probes).
    destruct (int_page p) as [z0|].
    + destruct (decide (z0 ∈ zs)) as [Hin|Hout].
      * destruct (IH st1 st' zs Hwf Hbind Hnd H) as (zs' & Hs' & Hnd' & Hel).
        exists zs'. split_and!; [done..|]. intros z. rewrite Hel, elem_of_cons.
        intuition (subst; auto).
      * destruct (IH st1 st' (zs ++ [z0]) Hwf Hbind) as (zs' & Hs' & Hnd' & Hel);
          [|done|].
        { apply NoDup_app. split_and!; [done| |apply NoDup_singleton].
          intros x Hx ->%list_elem_of_singleton. done. }
        exists zs'. split_and!; [done..|]. intros z.
        rewrite Hel, elem_of_app, list_elem_of_singleton, elem_of_cons. tauto.
    + destruct (IH st1 st' zs Hwf Hbind Hnd H) as (zs' & Hs' & Hnd' & Hel).
      by exists zs'.
Qed.

(** X7. On probes of the promised shape the root's payload ends up with
    the number of different page numbers the probes report, whatever the
    role of the probe that reports them: a page seen only on an ignored
    [end] or on an atomic probe counts like any other, a probe without page
    adds nothing, and a page reported twice counts once. *)
Theorem page_count_is_distinct_pages (probes : list probe) (s : list ShadowNode.t) :
  Forall (λ p, probe_wf p = true) probes →
  build_shadow_dom probes = Ok (s, root_ref) →
  ∃ root,
    s !! root_ref = Some root
    ∧ ShadowNode.payload root
      = JDict [("pages", JInt (Z.of_nat (length (remove_dups (int_pages probes)))))].
Proof.
  intros Hwf Hbuild.
  destruct (build_shadow_dom_inv _ _ _ Hbuild) as (st & Hrun).
  destruct (build_shadow_dom_run _ _ Hrun) as (rt & Hrt & Hs).
  rewrite Hs in Hbuild. injection Hbuild as <-.
  destruct (run_pages probes init_state st [] Hwf eq_refl (NoDup_nil_2) Hrun)
    as (zs & Hseen & Hnd & Hel).
  eexists. split.
  - apply list_lookup_insert_eq. by eapply lookup_lt_Some.
  - simpl. rewrite Hseen, length_fmap. do 5 f_equal.
    apply Permutation_length, NoDup_Permutation; [done|apply NoDup_remove_dups|].
    intros z. rewrite Hel, elem_of_remove_dups, elem_of_nil. tauto.
Qed.

Lemma page_count_is_distinct_pages_witness :
  Forall (λ p, probe_wf p = true) (scenario_4 ++ scenario_2 ++ [probe_bare])
  ∧ ∃ s root,
      build_shadow_dom (scenario_4 ++ scenario_2 ++ [probe_bare]) = Ok (s, root_ref)
      ∧ s !! root_ref = Some root
      ∧ ShadowNode.payload root
        = JDict [("pages",
                  JInt (Z.of_nat (length (remove_dups
                     (int_pages (scenario_4 ++ scenario_2 ++ [probe_bare]))))))].
Proof.
  assert (Hwf : Forall (λ p, probe_wf p = true) (scenario_4 ++ scenario_2 ++ [probe_bare]))
    by (repeat constructor).
  split; [exact Hwf|].
  eexists.
  destruct (page_count_is_distinct_pages (scenario_4 ++ scenario_2 ++ [probe_bare]) _
              Hwf ltac:(vm_compute; reflexivity)) as (root & Hroot & Hpl).
  exists root. split; [vm_compute; reflexivity|]. exact (conj Hroot Hpl).
Defined.

(** ** A start probe and its matching end *)

(** X8. In the builder, the [end] probe that closes the node of a [start]
    probe is the one that follows a well-nested sequence after it,
    whatever was opened, closed or marked in between: that node then has
    one rectangle at the location of the [start] probe if both probes
    report the same page, and else one there and one on the page of the
    [end] probe at its x and y = 50; and the stack is what it was before
    the [start] probe. *)
Theorem matching_end_closes_the_node (before inner : list probe) (p0 p1 : probe)
        (st st' : build_state) :
  run init_state before = Ok st →
  marker_of p0 = MStart →
  well_nested inner = true →
  marker_of p1 = MEnd →
  run st (p0 :: inner ++ [p1]) = Ok st' →
  ∃ l0 l1 node,
    probe_location p0 = JDict l0
    ∧ probe_location p1 = JDict l1
    ∧ objs st' !! length (objs st) = Some node
    ∧ stack st' = stack st
    ∧ (if py_eq (loc_page l0) (loc_page l1)
       then ∃ h, ShadowNode.rects node =
                   [Rect.mk (loc_page l0) (loc_x l0) (loc_y l0) DEFAULT_RECT_WIDTH h]
       else ∃ h1 h2, ShadowNode.rects node =
                   [Rect.mk (loc_page l0) (loc_x l0) (loc_y l0) DEFAULT_RECT_WIDTH h1;
                    Rect.mk (loc_page l1) (loc_x l1) (JInt 50) DEFAULT_RECT_WIDTH h2]).
Proof.
  intros Hrun Hm0 Hwn Hm1 H.
  assert (∃ d0, probe_payload p0 = JDict d0) as (d0 & Hpl0).
  { simpl in H. bind_inv H.
    apply step_inv in Hbind as (d & _ & _ & _ & Hpl & _). eauto. }
  destruct (paired_node_closed_by_matching_end _ _ _ _ _ _ _ Hrun Hpl0 Hm0 Hwn Hm1 H)
    as (new_id & opened & closed & node & _ & Hopened & Hclose & Hnode & Hrects & _ & Hstack).
  apply set_start_Ok in Hopened as (l0 & Hl0 & ->).
  unfold ShadowNode.close in Hclose. simpl in Hclose.
  bind_inv Hclose. bind_inv Hclose. bind_inv Hclose.
  destruct (probe_location p1) as [| | | | | |l1] eqn:Hl1; try discriminate Hbind.
  simpl in Hbind, Hbind0, Hbind1.
  injection Hbind as <-. injection Hbind0 as <-. injection Hbind1 as <-.
  exists l0, l1, node. split_and!; try done.
  fold (loc_page l0) (loc_page l1) (loc_x l0) (loc_y l0) (loc_x l1) in *.
  rewrite Hrects. destruct (py_eq (loc_page l0) (loc_page l1)).
  - bind_inv Hclose. bind_inv Hclose. injection Hclose as <-. simpl. eauto.
  - bind_inv Hclose. bind_inv Hclose. bind_inv Hclose. bind_inv Hclose. bind_inv Hclose.
    injection Hclose as <-. simpl. eauto.
Qed.

Lemma matching_end_closes_the_node_witness :
  ∃ st st',
    run init_state scenario_4 = Ok st
    ∧ marker_of probe_plain = MStart
    ∧ well_nested scenario_1 = true
    ∧ marker_of probe_end = MEnd
    ∧ run st (probe_plain :: scenario_1 ++ [probe_end]) = Ok st'
    ∧ ∃ l0 l1 node,
        probe_location probe_plain = JDict l0
        ∧ probe_location probe_end = JDict l1
        ∧ objs st' !! length (objs st) = Some node
        ∧ stack st' = stack st
        ∧ (if py_eq (loc_page l0) (loc_page l1)
           then ∃ h, ShadowNode.rects node =
                       [Rect.mk (loc_page l0) (loc_x l0) (loc_y l0) DEFAULT_RECT_WIDTH h]
           else ∃ h1 h2, ShadowNode.rects node =
                       [Rect.mk (loc_page l0) (loc_x l0) (loc_y l0) DEFAULT_RECT_WIDTH h1;
                        Rect.mk (loc_page l1) (loc_x l1) (JInt 50) DEFAULT_RECT_WIDTH h2]).
Proof.
  eexists _, _. split; [vm_compute; reflexivity|].
  split; [reflexivity|]. split; [reflexivity|]. split; [reflexivity|].
  split; [vm_compute; reflexivity|].
  apply (matching_end_closes_the_node scenario_4 scenario_1 probe_plain probe_end);
    vm_compute; reflexivity.
Defined.

(** ** An unmatched end probe *)

Lemma note_page_any loc seen x seen' :
  note_page loc seen = Ok x → ∃ x', note_page loc seen' = Ok x'.
Proof.
  unfold note_page. destruct (py_in "page" loc) as [[]|]; simpl; [|eauto|done].
  destruct (py_getitem loc "page") as [pg|]; simpl; [|done].
  unfold set_add. destruct (py_hashable pg); [eauto|done].
Qed.

Lemma step_same_but_pages st1 st2 p st1' :
  same_but_pages st1 st2 → step st1 p = Ok st1' →
  ∃ st2', step st2 p = Ok st2' ∧ same_but_pages st1' st2'.
Proof.
  intros (Ho & Hs & Hpu & Hpo)
         (d & seen & top & below & Hpl & Hseen & Hst & Hcase)%step_inv.
  destruct (note_page_any _ _ _ (pages_seen st2) Hseen) as (seen2 & Hseen2).
  rewrite Hs in Hst. rewrite Ho, Hs, Hpu, Hpo in Hcase.
  destruct (classify _) eqn:Hcl.
  - destruct Hcase as (par & new_id & node & Hpar & Hid & Hnode & ->).
    eexists. split; [by eapply step_start|]. done.
  - destruct Hcase as [(Hne & closed & closed' & Hc & Hclose & ->)|(-> & ->)].
    + eexists. split; [by eapply step_end_pop|]. done.
    + eexists. split; [by eapply step_end_ignored|]. done.
  - destruct Hcase as (par & node & Hpar & Hnode & ->).
    eexists. split; [by eapply step_atomic|]. done.
Qed.

Lemma run_same_but_pages probes :
  ∀ st1 st2 st1',
    same_but_pages st1 st2 → run st1 probes = Ok st1' →
    ∃ st2', run st2 probes = Ok st2' ∧ same_but_pages st1' st2'.
Proof.
  induction probes as [|p probes IH]; simpl; intros st1 st2 st1' Hsame H.
  - injection H as <-. eauto.
  - bind_inv H. destruct (step_same_but_pages _ _ _ _ Hsame Hbind) as (m & -> & Hm).
    simpl. by eapply IH.
Qed.

(** X9. An [end] probe that arrives when nothing is open leaves no trace in
    the tree: without it the builder returns the same store, object for
    object, except that the page count in the payload of the root may be
    smaller. *)
Theorem unmatched_end_leaves_no_trace (before rest : list probe) (p : probe)
        (st : build_state) (s1 : list ShadowNode.t) :
  run init_state before = Ok st →
  stack st = [root_ref] →
  marker_of p = MEnd →
  build_shadow_dom (before ++ p :: rest) = Ok (s1, root_ref) →
  ∃ s2 root1 root2,
    build_shadow_dom (before ++ rest) = Ok (s2, root_ref)
    ∧ length s1 = length s2
    ∧ (∀ r, r ≠ root_ref → s1 !! r = s2 !! r)
    ∧ s1 !! root_ref = Some root1
    ∧ s2 !! root_ref = Some root2
    ∧ root1 = ShadowNode.with_payload root2 (ShadowNode.payload root1).
Proof.
  intros Hrun Hst Hend Hbuild.
  destruct (build_shadow_dom_inv _ _ _ Hbuild) as (st1 & Hrun1).
  destruct (build_shadow_dom_run _ _ Hrun1) as (rt1 & Hrt1 & Hs1).
  rewrite Hs1 in Hbuild. injection Hbuild as <-.
  rewrite run_app, Hrun in Hrun1. simpl in Hrun1. bind_inv Hrun1. rename a into stp.
  assert (Hsame : same_but_pages stp st).
  { apply step_inv in Hbind as (d & seen & top & below & Hpl & _ & Hst' & Hcase).
    rewrite (marker_of_payload p d Hpl) in Hend. rewrite Hend in Hcase.
    rewrite Hst in Hst'. injection Hst' as <- <-.
    destruct Hcase as [(Hne & _)|(_ & ->)]; done. }
  destruct (run_same_but_pages _ _ _ _ Hsame Hrun1) as (st2 & Hrun2 & Ho & _).
  assert (Hrun2' : run init_state (before ++ rest) = Ok st2).
  { by rewrite run_app, Hrun. }
  destruct (build_shadow_dom_run _ _ Hrun2') as (rt2 & Hrt2 & Hs2).
  rewrite Ho in Hrt1. assert (rt1 = rt2) as -> by congruence.
  eexists _, _, _. split; [exact Hs2|]. rewrite Ho. split_and!.
  - by rewrite !length_insert.
  - intros r Hr. by rewrite !list_lookup_insert_ne.
  - apply list_lookup_insert_eq. by eapply lookup_lt_Some.
  - apply list_lookup_insert_eq. by eapply lookup_lt_Some.
  - done.
Qed.

Lemma unmatched_end_leaves_no_trace_witness :
  ∃ st s1,
    run init_state scenario_1 = Ok st
    ∧ stack st = [root_ref]
    ∧ marker_of probe_end = MEnd
    ∧ build_shadow_dom (scenario_1 ++ probe_end :: scenario_2) = Ok (s1, root_ref)
    ∧ ∃ s2 root1 root2,
        build_shadow_dom (scenario_1 ++ scenario_2) = Ok (s2, root_ref)
        ∧ length s1 = length s2
        ∧ (∀ r, r ≠ root_ref → s1 !! r = s2 !! r)
        ∧ s1 !! root_ref = Some root1
        ∧ s2 !! root_ref = Some root2
        ∧ root1 = ShadowNode.with_payload root2 (ShadowNode.payload root1).
Proof.
  eexists _, _. split; [vm_compute; reflexivity|].
  split; [reflexivity|]. split; [reflexivity|].
  split; [vm_compute; reflexivity|].
  eapply (unmatched_end_leaves_no_trace scenario_1 scenario_2 probe_end);
    vm_compute; reflexivity.
Defined.

(** ** The order of the rectangles *)

Lemma span_chain_ind (s : list ShadowNode.t)
      (P : ref → nat → Prop) (Q : nat → list ref → nat → Prop) :
  (∀ r n e, s !! r = Some n → chain s (S r) (ShadowNode.children n) e →
            Q (S r) (ShadowNode.children n) e → P r e) →
  (∀ a, Q a [] a) →
  (∀ a cs m e, span s a m → P a m → chain s m cs e → Q m cs e → Q a (a :: cs) e) →
  (∀ r e, span s r e → P r e) ∧ (∀ a cs e, chain s a cs e → Q a cs e).
Proof.
  intros Hnode Hnil Hcons. split.
  - exact (fix go_span r e (H : span s r e) {struct H} : P r e :=
             match H with
             | span_node _ r n e Hl Hc => Hnode r n e Hl Hc (go_chain _ _ _ Hc)
             end
           with go_chain a cs e (H : chain s a cs e) {struct H} : Q a cs e :=
             match H with
             | chain_nil _ a => Hnil a
             | chain_cons _ a cs m e Hs Hc =>
                 Hcons a cs m e Hs (go_span _ _ Hs) Hc (go_chain _ _ _ Hc)
             end
           for go_span).
  - exact (fix go_span r e (H : span s r e) {struct H} : P r e :=
             match H with
             | span_node _ r n e Hl Hc => Hnode r n e Hl Hc (go_chain _ _ _ Hc)
             end
           with go_chain a cs e (H : chain s a cs e) {struct H} : Q a cs e :=
             match H with
             | chain_nil _ a => Hnil a
             | chain_cons _ a cs m e Hs Hc =>
                 Hcons a cs m e Hs (go_span _ _ Hs) Hc (go_chain _ _ _ Hc)
             end
           for go_chain).
Qed.

Lemma span_bounds (s : list ShadowNode.t) :
  (∀ r e, span s r e → r < e ≤ length s)
  ∧ (∀ a cs e, chain s a cs e → a ≤ length s → a ≤ e ≤ length s).
Proof.
  apply span_chain_ind.
  - intros r n e Hl _ IH. apply lookup_lt_Some in Hl. lia.
  - intros a. lia.
  - intros a cs m e _ IH1 _ IH2 Ha. lia.
Qed.

Lemma span_lt s r e : span s r e → r < e ≤ length s.
Proof. apply span_bounds. Qed.

Lemma chain_le s a cs e : chain s a cs e → a ≤ length s → a ≤ e ≤ length s.
Proof. apply span_bounds. Qed.

(** A span depends on the objects it covers only. *)
Lemma span_agree (s s' : list ShadowNode.t) :
  (∀ r e, span s r e → (∀ x, r ≤ x < e → s' !! x = s !! x) → span s' r e)
  ∧ (∀ a cs e, chain s a cs e → a ≤ length s →
               (∀ x, a ≤ x < e → s' !! x = s !! x) → chain s' a cs e).
Proof.
  apply span_chain_ind.
  - intros r n e Hl Hc IH Hag.
    pose proof (lookup_lt_Some _ _ _ Hl) as Hr.
    pose proof (chain_le _ _ _ _ Hc ltac:(lia)) as He.
    econstructor.
    + rewrite Hag; [done|lia].
    + apply IH; [lia|]. intros x Hx. apply Hag. lia.
  - intros a _ _. constructor.
  - intros a cs m e Hs IH1 Hc IH2 Ha Hag.
    pose proof (span_lt _ _ _ Hs) as Hm.
    pose proof (chain_le _ _ _ _ Hc ltac:(lia)) as He.
    econstructor.
    + apply IH1. intros x Hx. apply Hag. lia.
    + apply IH2; [lia|]. intros x Hx. apply Hag. lia.
Qed.

Lemma chain_agree s s' a cs e :
  chain s a cs e → a ≤ length s →
  (∀ x, a ≤ x < e → s' !! x = s !! x) → chain s' a cs e.
Proof. apply span_agree. Qed.

Lemma chain_app s cs' e : ∀ cs a m,
  chain s a cs m → chain s m cs' e → chain s a (cs ++ cs') e.
Proof.
  induction cs as [|c cs IH]; simpl; intros a m H1 H2.
  - by inversion H1; subst.
  - inversion H1; subst. econstructor; [done|]. by eapply IH.
Qed.

Lemma open_below_agree s s' below : ∀ c,
  c ≤ length s →
  open_below s below c → (∀ x, x < c → s' !! x = s !! x) → open_below s' below c.
Proof.
  induction below as [|par rest IH]; simpl; intros c Hc H Hag; [done|].
  destruct H as ((n & cs & Hl & Hcs & Hch) & Hrest).
  pose proof (lookup_lt_Some _ _ _ Hl) as Hpar.
  pose proof (chain_le _ _ _ _ Hch ltac:(lia)) as Hle.
  split.
  - exists n, cs. split_and!; [|done|].
    + rewrite Hag; [done|lia].
    + eapply chain_agree; [done|lia|]. intros x Hx. apply Hag. lia.
  - apply IH; [lia|done|]. intros x Hx. apply Hag. lia.
Qed.

Lemma open_spans_init : open_spans init_state.
Proof.
  unfold open_spans. simpl. split; [|done].
  eexists. split; [reflexivity|]. simpl. constructor.
Qed.

Lemma open_spans_attach_below s top par node below :
  s !! top = Some par →
  open_below s below top →
  open_below (attach s top par node) below top.
Proof.
  intros Hpar H. pose proof (lookup_lt_Some _ _ _ Hpar) as Hlt.
  eapply open_below_agree; [|done|]; [lia|].
  intros x Hx. apply attach_lookup_old; lia.
Qed.

Lemma chain_attach s top par node :
  s !! top = Some par →
  chain s (S top) (ShadowNode.children par) (length s) →
  chain (attach s top par node) (S top) (ShadowNode.children par) (length s).
Proof.
  intros Hpar H. pose proof (lookup_lt_Some _ _ _ Hpar) as Hlt.
  eapply chain_agree; [done|lia|].
  intros x Hx. apply attach_lookup_old; lia.
Qed.

Lemma open_spans_step st p st' :
  open_spans st → step st p = Ok st' → open_spans st'.
Proof.
  unfold open_spans.
  intros Hopen (d & seen & top & below & Hpl & Hseen & Hst & Hcase)%step_inv.
  rewrite Hst in Hopen. destruct Hopen as ((n & Hn & Hch) & Hbelow).
  pose proof (lookup_lt_Some _ _ _ Hn) as Hlt.
  destruct (classify _).
  - destruct Hcase as (par & new_id & node & Hpar & _ & Hnode & ->).
    apply new_node_start in Hnode as (Hnil & _). simpl.
    assert (par = n) as -> by congruence.
    rewrite Hst, attach_length. split; [|split].
    + exists node. rewrite attach_lookup_new, Hnil. split; [done|]. constructor.
    + eexists _, _. rewrite attach_lookup_top by done. split_and!; [done|done|].
      by apply chain_attach.
    + by apply open_spans_attach_below.
  - destruct Hcase as [(Hne & closed & closed' & Hc & Hclose & ->)|(-> & ->)].
    + apply close_Ok in Hclose as (rs & -> & _). simpl.
      assert (closed = n) as -> by congruence.
      destruct below as [|par rest]; [done|]. simpl in Hbelow.
      destruct Hbelow as ((np & cs & Hp & Hcs & Hchp) & Hrest).
      pose proof (lookup_lt_Some _ _ _ Hp) as Hplt.
      pose proof (chain_le _ _ _ _ Hchp ltac:(lia)) as Hle.
      rewrite length_insert. split.
      * exists np. rewrite list_lookup_insert_ne by lia. split; [done|].
        rewrite Hcs. eapply chain_app.
        -- eapply chain_agree; [done|lia|].
           intros x Hx. rewrite list_lookup_insert_ne; [done|lia].
        -- econstructor; [|constructor]. econstructor.
           ++ by apply list_lookup_insert_eq.
           ++ simpl. eapply chain_agree; [done|lia|].
              intros x Hx. rewrite list_lookup_insert_ne; [done|lia].
      * eapply open_below_agree; [|done|]; [lia|].
        intros x Hx. rewrite list_lookup_insert_ne; [done|lia].
    + simpl. rewrite Hst. eauto.
  - destruct Hcase as (par & node & Hpar & Hnode & ->).
    apply new_node_atomic in Hnode as (dl & _ & Hnil & _). simpl.
    assert (par = n) as -> by congruence.
    rewrite Hst, attach_length. split.
    + eexists. rewrite attach_lookup_top by done. split; [done|]. simpl.
      eapply chain_app; [by apply chain_attach|].
      econstructor; [|constructor]. econstructor; [apply attach_lookup_new|].
      rewrite Hnil. constructor.
    + by apply open_spans_attach_below.
Qed.

Lemma open_spans_run probes :
  ∀ st st', open_spans st → run st probes = Ok st' → open_spans st'.
Proof.
  induction probes as [|p probes IH]; simpl; intros st st' Hopen H.
  - by injection H as <-.
  - bind_inv H. eapply IH; [|done]. by eapply open_spans_step.
Qed.

Lemma open_below_span s e below : ∀ c,
  open_below s below c → span s c e → ∃ r, last (c :: below) = Some r ∧ span s r e.
Proof.
  induction below as [|par rest IH]; intros c H Hc.
  - exists c. done.
  - destruct H as ((n & cs & Hl & Hcs & Hch) & Hrest).
    destruct (IH par Hrest) as (r & Hlast & Hr).
    + econstructor; [done|]. rewrite Hcs. eapply chain_app; [done|].
      econstructor; [done|constructor].
    + exists r. split; [|done]. by rewrite last_cons_cons.
Qed.

Lemma open_spans_root st :
  inv st → open_spans st → span (objs st) root_ref (length (objs st)).
Proof.
  intros Hinv Hopen. pose proof (inv_root _ Hinv) as Hroot.
  unfold open_spans in Hopen. destruct (stack st) as [|top below]; [done|].
  destruct Hopen as ((n & Hn & Hch) & Hbelow).
  destruct (open_below_span _ (length (objs st)) _ _ Hbelow) as (r & Hlast & Hr).
  - by econstructor.
  - congruence.
Qed.

Lemma slice_nil (s : list ShadowNode.t) a : slice s a a = [].
Proof. unfold slice. by rewrite Nat.sub_diag. Qed.

Lemma slice_cons (s : list ShadowNode.t) r e n :
  s !! r = Some n → r < e → slice s r e = n :: slice s (S r) e.
Proof.
  intros Hl Hlt. unfold slice. rewrite (drop_S _ _ _ Hl).
  replace (e - r) with (S (e - S r)) by lia. done.
Qed.

Lemma slice_app (s : list ShadowNode.t) a m e :
  a ≤ m ≤ e → slice s a e = slice s a m ++ slice s m e.
Proof.
  intros H. unfold slice.
  replace (e - a) with ((m - a) + (e - m)) by lia.
  rewrite <- take_take_drop, drop_drop. do 3 f_equal. lia.
Qed.

Lemma slice_all (s : list ShadowNode.t) : slice s 0 (length s) = s.
Proof. unfold slice. rewrite Nat.sub_0_r. simpl. apply firstn_all. Qed.

Lemma collect_span (s : list ShadowNode.t) :
  (∀ r e, span s r e → ∀ fuel results, e - r ≤ fuel →
     collect_all_rects fuel r (s, results)
     = Ok (s, results ++ flat_map node_triples (slice s r e)))
  ∧ (∀ a cs e, chain s a cs e → a ≤ length s → ∀ fuel results, e - a ≤ fuel →
       foldM (fun acc child => collect_all_rects fuel child acc) (s, results) cs
       = Ok (s, results ++ flat_map node_triples (slice s a e))).
Proof.
  apply span_chain_ind.
  - intros r n e Hl Hc IH fuel results Hfuel.
    pose proof (lookup_lt_Some _ _ _ Hl) as Hr.
    pose proof (chain_le _ _ _ _ Hc ltac:(lia)) as He.
    destruct fuel as [|fuel]; [lia|]. simpl. rewrite Hl.
    rewrite IH by lia. rewrite (slice_cons _ _ _ _ Hl) by lia.
    simpl. by rewrite app_assoc.
  - intros a _ fuel results _. simpl. by rewrite slice_nil, app_nil_r.
  - intros a cs m e Hs IH1 Hc IH2 Ha fuel results Hfuel.
    pose proof (span_lt _ _ _ Hs) as Hm.
    pose proof (chain_le _ _ _ _ Hc ltac:(lia)) as He.
    simpl. rewrite IH1 by lia. simpl. rewrite IH2 by lia.
    rewrite (slice_app s a m e) by lia. by rewrite flat_map_app, app_assoc.
Qed.

Lemma build_shadow_dom_span probes s :
  build_shadow_dom probes = Ok (s, root_ref) → span s root_ref (length s).
Proof.
  intros Hbuild.
  destruct (build_shadow_dom_inv _ _ _ Hbuild) as (st & Hrun).
  destruct (build_shadow_dom_run _ _ Hrun) as (rt & Hrt & Hs).
  rewrite Hs in Hbuild. injection Hbuild as <-.
  pose proof (open_spans_root _ (inv_run _ _ _ inv_init Hrun)
                (open_spans_run _ _ _ open_spans_init Hrun)) as Hspan.
  rewrite length_insert.
  inversion Hspan as [r n e Hl Hc]; subst.
  assert (n = rt) as -> by congruence.
  econstructor.
  - apply list_lookup_insert_eq. by eapply lookup_lt_Some.
  - simpl. eapply chain_agree; [done|by apply lookup_lt_Some in Hl; unfold root_ref; lia|].
    intros x Hx. apply list_lookup_insert_ne. unfold root_ref. lia.
Qed.

(** X10. The collector, run on the tree the builder returns, lists the
    rectangles in the order in which their nodes were created, that is in
    the order of the probes that made the nodes: the result is the
    rectangles of object 0, then those of object 1, and so on through the
    store.  A recursion depth of the number of nodes is enough. *)
Theorem rectangles_in_order_of_creation (probes : list probe)
        (s : list ShadowNode.t) (fuel : nat) (results : list triple) :
  build_shadow_dom probes = Ok (s, root_ref) →
  length s ≤ fuel →
  collect_all_rects fuel root_ref (s, results)
  = Ok (s, results ++ flat_map node_triples s).
Proof.
  intros Hbuild Hfuel.
  destruct (collect_span s) as (Hcollect & _).
  rewrite (Hcollect _ _ (build_shadow_dom_span _ _ Hbuild)) by (unfold root_ref; lia).
  by rewrite slice_all.
Qed.

Lemma rectangles_in_order_of_creation_witness :
  ∃ s, build_shadow_dom scenario_nested = Ok (s, root_ref)
       ∧ length s ≤ 4
       ∧ collect_all_rects 4 root_ref (s, [])
         = Ok (s, [] ++ flat_map node_triples s).
Proof.
  eexists. split; [vm_compute; reflexivity|]. split; [vm_compute; lia|].
  apply (rectangles_in_order_of_creation scenario_nested);
    [vm_compute; reflexivity|vm_compute; lia].
Defined.

(** ** Grouping by page *)

(** On keys [==] is an equivalence. *)
Lemma xnum_eqb_refl x : x ≠ XNaN → xnum_eqb x x = true.
Proof.
  destruct x as [|s|q]; simpl; [done|by destruct s|].
  intros _. apply Qeq_bool_iff. reflexivity.
Qed.

Lemma xnum_eqb_sym x y : xnum_eqb x y = xnum_eqb y x.
Proof.
  destruct x as [|s|p], y as [|t|q]; simpl; try done.
  - by destruct s, t.
  - apply eq_true_iff_eq. rewrite !Qeq_bool_iff. split; intros H; by symmetry.
Qed.

Lemma xnum_eqb_trans x y z :
  xnum_eqb x y = true → xnum_eqb y z = true → xnum_eqb x z = true.
Proof.
  destruct x as [|s|p], y as [|t|q], z as [|u|r]; simpl; try done.
  - by destruct s, t, u.
  - rewrite !Qeq_bool_iff. intros H1 H2. by rewrite H1.
Qed.

Lemma py_key_hashable v : py_key v = true → py_hashable v = true.
Proof. unfold py_key. by intros [? _]%andb_prop. Qed.

Lemma py_eq_refl v : py_key v = true → py_eq v v = true.
Proof.
  destruct v as [|b|n|f|s| |]; simpl; try done; intros H.
  - apply Qeq_bool_iff. reflexivity.
  - apply Qeq_bool_iff. reflexivity.
  - apply xnum_eqb_refl. by destruct f.
  - apply String.eqb_refl.
Qed.

Lemma py_eq_sym a b :
  py_key a = true → py_key b = true → py_eq a b = py_eq b a.
Proof.
  destruct a as [|b1|n1|q1|s1| |], b as [|b2|n2|q2|s2| |]; try done; intros _ _;
    try apply String.eqb_sym;
    cbn [py_eq xnum_of]; apply xnum_eqb_sym.
Qed.

Lemma py_eq_trans a b c :
  py_key a = true → py_key b = true → py_key c = true →
  py_eq a b = true → py_eq b c = true → py_eq a c = true.
Proof.
  destruct a as [|b1|n1|q1|s1| |], b as [|b2|n2|q2|s2| |], c as [|b3|n3|q3|s3| |];
    try done; intros _ _ _;
    try (simpl; rewrite !String.eqb_eq; congruence);
    cbn [py_eq xnum_of]; apply xnum_eqb_trans.
Qed.

Lemma foldM_app {A B} (f : A → B → result A) l1 l2 : ∀ a,
  foldM f a (l1 ++ l2) = foldM f a l1 ≫= λ a', foldM f a' l2.
Proof.
  induction l1 as [|b l1 IH]; simpl; intros a; [done|].
  destruct (f a b); simpl; [apply IH|done].
Qed.

Lemma vappend_miss {A} (x : json) (t : A) acc :
  (∀ k ts, (k, ts) ∈ acc → py_eq k x = false) →
  vappend x t acc = acc ++ [(x, [t])].
Proof.
  induction acc as [|[k ts] acc IH]; simpl; intros H; [done|].
  rewrite (H k ts) by apply list_elem_of_here. f_equal. apply IH.
  intros k' ts' Hin. eapply H. by apply list_elem_of_further.
Qed.

Lemma vappend_hit {A} (x : json) (t : A) pre k0 ts0 post :
  (∀ k ts, (k, ts) ∈ pre → py_eq k x = false) →
  py_eq k0 x = true →
  vappend x t (pre ++ (k0, ts0) :: post) = pre ++ (k0, ts0 ++ [t]) :: post.
Proof.
  induction pre as [|[k ts] pre IH]; simpl; intros H Hk0.
  - by rewrite Hk0.
  - rewrite (H k ts) by apply list_elem_of_here. f_equal. apply IH; [|done].
    intros k' ts' Hin. eapply H. by apply list_elem_of_further.
Qed.

Lemma first_hit {A} (x : json) (acc : list (json * A)) :
  (∀ k ts, (k, ts) ∈ acc → py_eq k x = false)
  ∨ ∃ pre k0 ts0 post,
      acc = pre ++ (k0, ts0) :: post
      ∧ (∀ k ts, (k, ts) ∈ pre → py_eq k x = false)
      ∧ py_eq k0 x = true.
Proof.
  induction acc as [|[k ts] acc IH].
  - left. intros k ts Hin. by apply elem_of_nil in Hin.
  - destruct (py_eq k x) eqn:Hk.
    + right. exists [], k, ts, acc. split_and!; [done| |done].
      intros k' ts' Hin. by apply elem_of_nil in Hin.
    + destruct IH as [IH|(pre & k0 & ts0 & post & -> & Hpre & Hk0)].
      * left. intros k' ts' [[= -> ->]|Hin]%elem_of_cons; eauto.
      * right. exists ((k, ts) :: pre), k0, ts0, post. split_and!; [done| |done].
        intros k' ts' [[= -> ->]|Hin]%elem_of_cons; eauto.
Qed.

Lemma on_page_snoc k l t :
  on_page k (l ++ [t]) = on_page k l ++ (if py_eq k (Rect.page t.2) then [t] else []).
Proof. unfold on_page. rewrite List.filter_app. simpl. by destruct (py_eq _ _). Qed.

Lemma grouped_nil : grouped [] [].
Proof.
  split_and!.
  - intros k ts Hin. by apply elem_of_nil in Hin.
  - intros t Hin. by apply elem_of_nil in Hin.
  - intros i j k k' Hi. done.
Qed.

Lemma py_eq_hashable a b :
  py_key a = true → py_eq a b = true → py_key b = true.
Proof.
  destruct a as [|b1|n1|q1|s1| |], b as [|b2|n2|q2|s2| |]; try done;
    intros _; cbn [py_eq xnum_of]; destruct q2; try done;
    by destruct (float_xnum _).
Qed.

Lemma filter_none {A} (f : A → bool) l :
  (∀ a, a ∈ l → f a = false) → List.filter f l = [].
Proof.
  induction l as [|a l IH]; simpl; intros H; [done|].
  rewrite (H a) by apply list_elem_of_here. apply IH.
  intros a' Hin. apply H. by apply list_elem_of_further.
Qed.

Lemma key_lookup {A} (acc : list (json * A)) i k :
  acc.*1 !! i = Some k → ∃ ts, acc !! i = Some (k, ts).
Proof.
  rewrite list_lookup_fmap. destruct (acc !! i) as [[k' ts]|]; simpl; [|done].
  intros [= ->]. eauto.
Qed.

Lemma grouped_step done acc t :
  grouped done acc → py_key (Rect.page t.2) = true →
  grouped (done ++ [t]) (vappend (Rect.page t.2) t acc).
Proof.
  intros (Hgroups & Hcover & Hdist) Hhash. set (x := Rect.page t.2) in *.
  destruct (first_hit x acc) as [Hmiss|(pre & k0 & ts0 & post & -> & Hpre & Hk0)].
  - rewrite vappend_miss by done. split_and!.
    + intros k ts [Hin|Hin]%elem_of_app.
      * destruct (Hgroups k ts Hin) as (Hk & Hne & ->). split_and!; [done..|].
        rewrite on_page_snoc. fold x. rewrite (Hmiss _ _ Hin). by rewrite app_nil_r.
      * apply list_elem_of_singleton in Hin as [= -> ->]. split_and!; [done..|].
        rewrite on_page_snoc. fold x. rewrite py_eq_refl by done.
        unfold on_page. rewrite filter_none; [done|].
        intros t' Hin. destruct (Hcover t' Hin) as (k & ts & Hk & Heq).
        destruct (Hgroups k ts Hk) as (Hkh & _).
        pose proof (py_eq_hashable _ _ Hkh Heq) as Hth.
        destruct (py_eq x (Rect.page t'.2)) eqn:Hx; [|done].
        assert (py_eq k x = true); [|by rewrite (Hmiss k ts Hk) in *].
        apply (py_eq_trans k (Rect.page t'.2) x); [done..|].
        by rewrite py_eq_sym.
    + intros t' [Hin|Hin]%elem_of_app.
      * destruct (Hcover t' Hin) as (k & ts & Hk & Heq).
        exists k, ts. split; [|done]. apply elem_of_app. by left.
      * apply list_elem_of_singleton in Hin as ->.
        exists x, [t]. split; [|by apply py_eq_refl].
        apply elem_of_app. right. by apply list_elem_of_singleton.
    + rewrite fmap_app. simpl. intros i j k k' Hi Hj Hne.
      destruct (decide (i < length acc.*1)) as [Hil|Hil],
               (decide (j < length acc.*1)) as [Hjl|Hjl].
      * rewrite lookup_app_l in Hi, Hj by done. by eapply Hdist.
      * rewrite lookup_app_l in Hi by done. rewrite lookup_app_r in Hj by lia.
        destruct (j - length acc.*1) as [|?] eqn:Hd; [|done].
        injection Hj as <-. apply key_lookup in Hi as (ts & Hi).
        eapply Hmiss. by eapply list_elem_of_lookup_2.
      * rewrite lookup_app_l in Hj by done. rewrite lookup_app_r in Hi by lia.
        destruct (i - length acc.*1) as [|?] eqn:Hd; [|done].
        injection Hi as <-. apply key_lookup in Hj as (ts & Hj).
        apply list_elem_of_lookup_2 in Hj.
        destruct (Hgroups _ _ Hj) as (Hkh & _).
        rewrite py_eq_sym by done. by eapply Hmiss.
      * rewrite lookup_app_r in Hi, Hj by lia.
        destruct (i - length acc.*1) as [|?] eqn:Hdi; [|done].
        destruct (j - length acc.*1) as [|?] eqn:Hdj; [|done]. lia.
  - rewrite vappend_hit by done.
    assert (Hk0in : (k0, ts0) ∈ pre ++ (k0, ts0) :: post).
    { apply elem_of_app. right. apply list_elem_of_here. }
    destruct (Hgroups _ _ Hk0in) as (Hk0h & Hne0 & Hts0).
    assert (Hpost : ∀ k ts, (k, ts) ∈ post → py_eq k x = false).
    { intros k ts Hin. destruct (py_eq k x) eqn:Hkx; [|done].
      apply list_elem_of_lookup_1 in Hin as (i & Hi).
      assert (Hkh : py_key k = true).
      { eapply Hgroups. apply elem_of_app. right. apply list_elem_of_further.
        by eapply list_elem_of_lookup_2. }
      assert (py_eq k k0 = true) as Hkk.
      { apply (py_eq_trans k x k0); [done..|]. by rewrite py_eq_sym. }
      rewrite (Hdist (length pre + S i) (length pre) k k0) in Hkk; [done| | |lia].
      - rewrite list_lookup_fmap, lookup_app_r by lia.
        replace (length pre + S i - length pre) with (S i) by lia. simpl.
        by rewrite Hi.
      - rewrite list_lookup_fmap, lookup_app_r by lia.
        by rewrite Nat.sub_diag. }
    split_and!.
    + intros k ts [Hin|[[= -> ->]|Hin]%elem_of_cons]%elem_of_app.
      * destruct (Hgroups k ts) as (Hk & Hne & ->).
        { apply elem_of_app. by left. }
        split_and!; [done..|].
        rewrite on_page_snoc. fold x. rewrite (Hpre _ _ Hin). by rewrite app_nil_r.
      * split_and!; [done|by destruct ts0|].
        rewrite on_page_snoc. fold x. by rewrite Hk0, <- Hts0.
      * destruct (Hgroups k ts) as (Hk & Hne & ->).
        { apply elem_of_app. right. by apply list_elem_of_further. }
        split_and!; [done..|].
        rewrite on_page_snoc. fold x. rewrite (Hpost _ _ Hin). by rewrite app_nil_r.
    + intros t' [Hin|Hin]%elem_of_app.
      * destruct (Hcover t' Hin)
          as (k & ts & [Hk|[[= -> ->]|Hk]%elem_of_cons]%elem_of_app & Heq).
        -- exists k, ts. split; [|done]. apply elem_of_app. by left.
        -- exists k0, (ts0 ++ [t]). split; [|done].
           apply elem_of_app. right. apply list_elem_of_here.
        -- exists k, ts. split; [|done].
           apply elem_of_app. right. by apply list_elem_of_further.
      * apply list_elem_of_singleton in Hin as ->.
        exists k0, (ts0 ++ [t]). split; [|done].
        apply elem_of_app. right. apply list_elem_of_here.
    + by rewrite fmap_app, fmap_cons in *.
Qed.

Lemma group_by_page_grouped all_rects :
  Forall (λ t : triple, py_key (Rect.page t.2) = true) all_rects →
  ∃ groups, group_by_page all_rects = Ok groups ∧ grouped all_rects groups.
Proof.
  unfold group_by_page.
  induction all_rects as [|t l IH] using rev_ind; intros Hall.
  - exists []. split; [done|apply grouped_nil].
  - apply Forall_app in Hall as (Hl & Ht). apply Forall_inv in Ht.
    destruct (IH Hl) as (acc & Hacc & Hg).
    exists (vappend (Rect.page t.2) t acc). split.
    + rewrite foldM_app, Hacc. simpl. by rewrite (py_key_hashable _ Ht).
    + by apply grouped_step.
Qed.

(** X11. [export_html] groups the collected rectangles by page without
    losing, repeating or reordering any: when the page of every rectangle
    is hashable and no NaN, the grouping does not raise; every group is not empty
    and holds exactly the triples on the page of its key, in the order in
    which they were collected; every triple is on the page of some key;
    and no two keys are equal. *)
Theorem group_by_page_keeps_every_rect (all_rects : list triple) :
  Forall (λ t : triple, py_key (Rect.page t.2) = true) all_rects →
  ∃ groups,
    group_by_page all_rects = Ok groups
    ∧ (∀ k ts, (k, ts) ∈ groups → ts ≠ [] ∧ ts = on_page k all_rects)
    ∧ (∀ t, t ∈ all_rects →
            ∃ k ts, (k, ts) ∈ groups ∧ py_eq k (Rect.page t.2) = true)
    ∧ distinct_keys groups.*1.
Proof.
  intros Hall.
  destruct (group_by_page_grouped _ Hall) as (groups & Hg & Hgroups & Hcover & Hdist).
  exists groups. split_and!; [done| |done..].
  intros k ts Hin. destruct (Hgroups k ts Hin) as (_ & Hne & Hts). done.
Qed.

Lemma group_by_page_keeps_every_rect_witness :
  Forall (λ t : triple, py_key (Rect.page t.2) = true)
         (flat_map node_triples sample_store)
  ∧ ∃ groups,
      group_by_page (flat_map node_triples sample_store) = Ok groups
      ∧ (∀ k ts, (k, ts) ∈ groups →
                 ts ≠ [] ∧ ts = on_page k (flat_map node_triples sample_store))
      ∧ (∀ t, t ∈ flat_map node_triples sample_store →
              ∃ k ts, (k, ts) ∈ groups ∧ py_eq k (Rect.page t.2) = true)
      ∧ distinct_keys groups.*1.
Proof.
  split; [repeat constructor|].
  apply (group_by_page_keeps_every_rect (flat_map node_triples sample_store)).
  repeat constructor.
Defined.

(** ** Numbers where the renderers expect them *)

Lemma small_y_ok v : small v = true → y_ok v = true.
Proof.
  destruct v; try done. simpl. intros H. apply Z.ltb_lt in H. apply Z.ltb_lt.
  eapply Z.lt_trans; [exact H|]. by vm_compute.
Qed.

Lemma medium_y_ok v : medium v = true → y_ok v = true.
Proof.
  destruct v; try done. simpl. intros H. apply Z.ltb_lt in H. apply Z.ltb_lt.
  eapply Z.lt_trans; [exact H|]. by vm_compute.
Qed.

Lemma small_const z : (Z.abs z <? 1000)%Z = true → small (JInt z) = true.
Proof.
  intros Hz. apply Z.ltb_lt in Hz. apply Z.ltb_lt.
  eapply Z.lt_trans; [exact Hz|]. by vm_compute.
Qed.

Lemma medium_const z : (Z.abs z <? 1000)%Z = true → medium (JInt z) = true.
Proof.
  intros Hz. apply Z.ltb_lt in Hz. apply Z.ltb_lt.
  eapply Z.lt_trans; [exact Hz|]. by vm_compute.
Qed.

Lemma page_ok_const z : (Z.abs z <? 1000)%Z = true → page_ok (JInt z) = true.
Proof.
  intros Hz. apply Z.ltb_lt in Hz. apply Z.ltb_lt.
  eapply Z.lt_trans; [exact Hz|]. by vm_compute.
Qed.

(** What a difference, a sum and a maximum that do not raise can be. *)
Lemma py_sub_Ok_cases a b v :
  py_sub a b = Ok v →
  (∃ x y, a = JInt x ∧ b = JInt y ∧ v = JInt (x - y))
  ∨ (∃ x y, int_val a = Some x ∧ int_val b = Some y ∧ v = JInt (x - y)
            ∧ (is_number a = false ∨ is_number b = false))
  ∨ (∃ f, v = JFloat f).
Proof.
  unfold py_sub. intros H.
  destruct a, b; simpl in H; try discriminate H;
    try (injection H as <-; first [left; by eauto | right; left; by eauto 10]);
    right; right;
    repeat (let a := fresh "a" in let Hb := fresh "Hb" in
            apply bind_Ok in H; destruct H as (a & Hb & H));
    injection H as <-; eauto.
Qed.

Lemma py_sub_medium a b v :
  small a = true → small b = true → py_sub a b = Ok v → medium v = true.
Proof.
  intros Ha Hb [(x & y & -> & -> & ->)|[(x & y & _ & _ & _ & [Hn|Hn])|(f & ->)]]%py_sub_Ok_cases;
    [|by destruct a|by destruct b|done].
  simpl in *. apply Z.ltb_lt in Ha, Hb. apply Z.ltb_lt.
  assert (H : (2 ^ 1023 = 2 * 2 ^ 1022)%Z) by (by vm_compute).
  rewrite H. remember (2 ^ 1022)%Z as A. lia.
Qed.

Lemma py_sub_float_Ok f b v : py_sub (JFloat f) b = Ok v → ∃ g, v = JFloat g.
Proof.
  intros [(x & y & [=] & _)|[(x & y & [=] & _)|H]]%py_sub_Ok_cases. done.
Qed.

Lemma py_max_cases a b v : py_max a b = Ok v → v = a ∨ v = b.
Proof.
  unfold py_max. destruct (xnum_of a), (xnum_of b); try discriminate.
  destruct (xnum_ltb _ _); intros [= <-]; eauto.
Qed.

Lemma py_max_medium a c v :
  medium a = true → (Z.abs c <? 1000)%Z = true → py_max a (JInt c) = Ok v →
  medium v = true.
Proof.
  intros Ha Hc [->| ->]%py_max_cases; [done|by apply medium_const].
Qed.

(** The bottom edge [y + h] of a rectangle can be computed and formatted. *)
Lemma py_add_small y h :
  small y = true → medium h = true → ∃ b, py_add y h = Ok b ∧ y_ok b = true.
Proof.
  intros Hy Hh.
  destruct (as_float_y_ok y (small_y_ok y Hy)) as (fy & Hfy).
  destruct (as_float_y_ok h (medium_y_ok h Hh)) as (fh & Hfh).
  destruct y as [| |y|y| | |], h as [| |h|h| | |]; try discriminate;
    unfold py_add; cbn [int_val is_numeric xnum_of andb];
    try (rewrite Hfy, Hfh; cbn [mbind result_bind mret result_ret]; by eexists).
  eexists. split; [done|]. simpl in *. apply Z.ltb_lt in Hy, Hh. apply Z.ltb_lt.
  assert (H : (2 ^ 1022 + 2 ^ 1023 < FLOAT_INT_LIMIT)%Z) by (by vm_compute).
  remember (2 ^ 1022)%Z as A. remember (2 ^ 1023)%Z as B.
  remember FLOAT_INT_LIMIT as L. lia.
Qed.

Lemma probe_printable_loc p :
  probe_printable p = true →
  ∃ d, probe_location p = JDict d
       ∧ page_ok (loc_page d) = true
       ∧ small (loc_x d) = true
       ∧ small (loc_y d) = true.
Proof.
  unfold probe_printable, probe_location, loc_page, loc_x, loc_y, dict_get. intros H.
  apply andb_prop in H as [_ H].
  destruct (assoc "location" p) as [l|].
  - cbn [opt_all] in H. destruct l as [| | | | | |d]; try discriminate.
    cbn [location_printable] in H.
    apply andb_prop in H as [H Hy]. apply andb_prop in H as [Hp Hx].
    exists d. split_and!; [done|..].
    + destruct (assoc "page" d); [done|]. by apply page_ok_const.
    + destruct (assoc "x" d); [done|]. by apply small_const.
    + destruct (assoc "y" d); [done|]. by apply small_const.
  - exists []. split_and!; [done|..]; cbn [assoc].
    + by apply page_ok_const.
    + by apply small_const.
    + by apply small_const.
Qed.

Lemma probe_printable_payload p d :
  probe_printable p = true → probe_payload p = JDict d →
  payload_printable (JDict d) = true ∧ is_str (probe_kind p d) = true.
Proof.
  unfold probe_printable, probe_payload, probe_kind, dict_get. intros H Hd.
  apply andb_prop in H as [H _]. apply andb_prop in H as [H Hpl].
  apply andb_prop in H as [_ Hk].
  assert (Hpr : payload_printable (JDict d) = true).
  { destruct (assoc "payload" p) as [pl|]; [|by injection Hd as <-].
    by subst pl. }
  split; [done|]. cbn [payload_printable] in Hpr.
  apply andb_prop in Hpr as [Hpk _].
  destruct (assoc "kind" d); [done|]. by destruct (assoc "kind" p).
Qed.

(** Such a probe has the promised shape. *)
Lemma probe_printable_wf p : probe_printable p = true → probe_wf p = true.
Proof.
  unfold probe_printable, probe_wf. intros H.
  apply andb_prop in H as [H Hloc]. apply andb_prop in H as [H Hpl].
  apply andb_prop in H as [Hid _]. rewrite Hid. cbn [andb].
  apply andb_true_intro. split.
  - destruct (assoc "payload" p) as [[]|]; try done.
  - destruct (assoc "location" p) as [[| | | | | |d]|]; try done.
    cbn [opt_all location_printable location_wf] in *.
    apply andb_prop in Hloc as [Hloc Hy]. apply andb_prop in Hloc as [Hp Hx].
    apply andb_true_intro. split; [apply andb_true_intro; split|].
    + by destruct (assoc "page" d) as [[]|].
    + by destruct (assoc "x" d) as [[]|].
    + by destruct (assoc "y" d) as [[]|].
Qed.

Lemma probe_printable_id p : probe_printable p = true → is_str (probe_id p) = true.
Proof.
  unfold probe_printable, probe_id, dict_get. intros H.
  apply andb_prop in H as [H _]. apply andb_prop in H as [H _].
  apply andb_prop in H as [H _]. by destruct (assoc "id" p).
Qed.

Lemma py_replace_str v old new w : py_replace v old new = Ok w → is_str w = true.
Proof. destruct v; try discriminate. by intros [= <-]. Qed.

Lemma rect_printable_mk p x y w h :
  page_ok p = true → small x = true → small y = true →
  medium w = true → medium h = true →
  rect_printable (Rect.mk p x y w h) = true.
Proof. unfold rect_printable. simpl. by intros -> -> -> -> ->. Qed.

Lemma close_printable n d n' :
  node_printable n →
  page_ok (loc_page d) = true → small (loc_x d) = true → small (loc_y d) = true →
  ShadowNode.close n (JDict d) = Ok n' → node_printable n'.
Proof.
  intros (Hk & Hi & Hpl & Hp & Hx & Hy & Hrs) Hdp Hdx Hdy H.
  unfold ShadowNode.close in H. cbn [py_get mbind result_bind] in H.
  fold (loc_page d) (loc_x d) (loc_y d) in H.
  destruct (py_eq _ _).
  - bind_inv H. bind_inv H. injection H as <-.
    apply py_sub_medium in Hbind; [|done..].
    apply py_max_medium in Hbind0; [|done..].
    split_and!; try done. simpl. apply Forall_app. split; [done|].
    repeat constructor. by apply rect_printable_mk.
  - bind_inv H. bind_inv H. bind_inv H. bind_inv H. bind_inv H. injection H as <-.
    apply py_sub_float_Ok in Hbind as (g & ->).
    apply py_sub_float_Ok in Hbind0 as (g1 & ->).
    apply py_max_medium in Hbind1; [|done..].
    apply py_sub_medium in Hbind2; [|done|by apply small_const].
    apply py_max_medium in Hbind3; [|done..].
    split_and!; try done. simpl. rewrite !Forall_app. split_and!; [done|..].
    + repeat constructor. by apply rect_printable_mk.
    + repeat constructor. apply rect_printable_mk; first [done|by apply small_const].
Qed.

Lemma attach_printable s top par node :
  Forall node_printable s → s !! top = Some par → node_printable node →
  Forall node_printable (attach s top par node).
Proof.
  intros Hs Hpar Hnode. unfold attach. apply Forall_app. split.
  - apply Forall_insert; [done|].
    by pose proof (Forall_lookup_1 _ _ _ _ Hs Hpar).
  - by constructor.
Qed.

Lemma node_printable_step st p st' :
  Forall node_printable (objs st) → probe_printable p = true → step st p = Ok st' →
  Forall node_printable (objs st').
Proof.
  intros Hall Hpr (d & seen & top & below & Hpl & Hseen & Hst & Hcase)%step_inv.
  destruct (probe_printable_loc p Hpr) as (l & Hloc & Hlp & Hlx & Hly).
  destruct (probe_printable_payload p d Hpr Hpl) as (Hd & Hkind).
  destruct (classify _).
  - destruct Hcase as (par & new_id & node & Hpar & Hid & Hnode & ->). simpl.
    apply attach_printable; [done..|].
    apply set_start_Ok in Hnode as (l' & Hl' & ->).
    assert (l' = l) as -> by congruence.
    apply py_replace_str in Hid. split_and!; simpl; done.
  - destruct Hcase as [(Hne & closed & closed' & Hc & Hclose & ->)|(-> & ->)]; [|done].
    simpl. apply Forall_insert; [done|]. rewrite Hloc in Hclose.
    eapply close_printable; [|done..]. by eapply Forall_lookup_1.
  - destruct Hcase as (par & node & Hpar & Hnode & ->). simpl.
    apply attach_printable; [done..|].
    apply add_atomic_rect_Ok in Hnode as (l' & Hl' & ->).
    assert (l' = l) as -> by congruence.
    pose proof (probe_printable_id p Hpr) as Hid.
    split_and!; simpl; try done.
    repeat constructor. fold (loc_page l) (loc_x l) (loc_y l).
    apply rect_printable_mk; first [done|by apply medium_const].
Qed.

Lemma node_printable_run probes :
  ∀ st st', Forall node_printable (objs st) →
            Forall (λ p, probe_printable p = true) probes →
            run st probes = Ok st' → Forall node_printable (objs st').
Proof.
  induction probes as [|p probes IH]; simpl; intros st st' Hall Hpr H.
  - by injection H as <-.
  - apply Forall_cons in Hpr as [Hp Hpr]. bind_inv H.
    eapply IH; [|done..]. by eapply node_printable_step.
Qed.

Lemma root_node_printable : node_printable root_node.
Proof.
  split_and!; done.
Qed.

Lemma build_shadow_dom_printable probes s :
  Forall (λ p, probe_printable p = true) probes →
  build_shadow_dom probes = Ok (s, root_ref) → Forall node_printable s.
Proof.
  intros Hpr Hbuild.
  destruct (build_shadow_dom_inv _ _ _ Hbuild) as (st & Hrun).
  destruct (build_shadow_dom_run _ _ Hrun) as (rt & Hrt & Hs).
  rewrite Hs in Hbuild. injection Hbuild as <-.
  assert (Hall : Forall node_printable (objs st)).
  { eapply node_printable_run; [|done..].
    constructor; [apply root_node_printable|constructor]. }
  apply Forall_insert; [done|].
  pose proof (Forall_lookup_1 _ _ _ _ Hall Hrt) as (? & ? & ? & ? & ? & ? & ?).
  split_and!; done.
Qed.

(** The page count the builder writes is at most the number of probes. *)
Lemma note_page_length loc seen seen' :
  note_page loc seen = Ok seen' → length seen' ≤ S (length seen).
Proof.
  unfold note_page. intros H. bind_inv H. destruct a.
  - bind_inv H. unfold set_add in H. destruct (py_hashable _); [|done].
    injection H as <-. destruct (existsb _ _); [lia|].
    rewrite length_app. simpl. lia.
  - injection H as <-. lia.
Qed.

Lemma run_pages_length probes :
  ∀ st st', run st probes = Ok st' →
            length (pages_seen st') ≤ length (pages_seen st) + length probes.
Proof.
  induction probes as [|p probes IH]; simpl; intros st st' H.
  - injection H as <-. lia.
  - bind_inv H. apply IH in H. apply step_pages, note_page_length in Hbind. lia.
Qed.

(** ** The renderers on the tree of the builder *)

Lemma page_ok_key v : page_ok v = true → py_key v = true.
Proof. by destruct v. Qed.

Lemma key_lt_pages a b :
  page_ok a = true → page_ok b = true → ∃ c, key_lt a b = Ok c.
Proof.
  unfold key_lt. destruct a, b; try discriminate; intros _ _.
  cbn [xnum_of]. eauto.
Qed.

Lemma sorted_insert_pages k l :
  page_ok k = true → Forall (λ v, page_ok v = true) l →
  ∃ l', sorted_insert k l = Ok l' ∧ l' ≡ₚ k :: l.
Proof.
  intros Hk. induction l as [|k' l IH]; cbn [sorted_insert]; intros Hl.
  - by exists [k].
  - apply Forall_cons in Hl as [Hk' Hl].
    destruct (key_lt_pages k k' Hk Hk') as ([] & ->); cbn [mbind result_bind].
    + by eexists.
    + destruct (IH Hl) as (l' & -> & Hperm). cbn [mbind result_bind].
      eexists. split; [done|]. rewrite Hperm. apply Permutation_swap.
Qed.

Lemma py_sorted_from l : ∀ acc,
  Forall (λ v, page_ok v = true) acc → Forall (λ v, page_ok v = true) l →
  ∃ l', foldM (fun acc k => sorted_insert k acc) acc l = Ok l' ∧ l' ≡ₚ l ++ acc.
Proof.
  induction l as [|k l IH]; cbn [foldM]; intros acc Hacc Hl.
  - by exists acc.
  - apply Forall_cons in Hl as [Hk Hl].
    destruct (sorted_insert_pages k acc Hk Hacc) as (acc' & -> & Hperm).
    cbn [mbind result_bind].
    destruct (IH acc') as (l' & Hl' & Hperm'); [by rewrite Hperm; constructor|done|].
    exists l'. split; [done|]. rewrite Hperm', Hperm. simpl.
    by rewrite Permutation_middle.
Qed.

Lemma py_sorted_pages l :
  Forall (λ v, page_ok v = true) l → ∃ l', py_sorted l = Ok l' ∧ l' ≡ₚ l.
Proof.
  intros Hl. destruct (py_sorted_from l [] (Forall_nil_2 _) Hl) as (l' & H & Hperm).
  exists l'. split; [done|]. by rewrite app_nil_r in Hperm.
Qed.

Lemma rect_printable_fields r :
  rect_printable r = true →
  page_ok (Rect.page r) = true ∧ small (Rect.x r) = true
  ∧ small (Rect.y r) = true ∧ medium (Rect.w r) = true
  ∧ medium (Rect.h r) = true.
Proof. unfold rect_printable. rewrite !andb_true_iff. tauto. Qed.

Lemma page_set_total rs : ∀ acc,
  Forall (λ r, rect_printable r = true) rs → Forall (λ v, page_ok v = true) acc →
  ∃ pset, foldM (fun acc r => set_add (Rect.page r) acc) acc rs = Ok pset
          ∧ Forall (λ v, page_ok v = true) pset
          ∧ length acc ≤ length pset
          ∧ (rs ≠ [] → pset ≠ []).
Proof.
  induction rs as [|r rs IH]; cbn [foldM]; intros acc Hrs Hacc.
  - by exists acc.
  - apply Forall_cons in Hrs as [Hr Hrs].
    apply rect_printable_fields in Hr as (Hp & _).
    assert (Hadd : set_add (Rect.page r) acc
                   = Ok (if existsb (py_eq (Rect.page r)) acc then acc
                         else acc ++ [Rect.page r])).
    { unfold set_add. by rewrite (py_key_hashable _ (page_ok_key _ Hp)). }
    rewrite Hadd. cbn [mbind result_bind].
    destruct (existsb _ acc) eqn:Hex.
    + destruct (IH acc Hrs Hacc) as (pset & Hps & Hnum & Hlen & _).
      exists pset. split_and!; [done..|]. intros _ ->.
      destruct acc; [done|simpl in Hlen; lia].
    + destruct (IH (acc ++ [Rect.page r]) Hrs) as (pset & Hps & Hnum & Hlen & _).
      { apply Forall_app. split; [done|]. by constructor. }
      rewrite length_app in Hlen. simpl in Hlen.
      exists pset. split_and!; [done..|lia|]. intros _ ->. simpl in Hlen. lia.
Qed.









Section RenderTotal.
Variable repr_other : json → result string.
Variable fmt_fixed : nat → json → result string.
Hypothesis fmt_total : ∀ d v, y_ok v = true → ∃ s, fmt_fixed d v = Ok s.

Lemma py_str_page v : page_ok v = true → ∃ s, py_str repr_other v = Ok s.
Proof. destruct v; try discriminate. simpl. intros ->. eauto. Qed.

Lemma py_str_text v : is_str v = true → ∃ s, py_str repr_other v = Ok s.
Proof. destruct v; try discriminate. simpl. eauto. Qed.

Lemma get_summary_total n :
  Forall (λ r, rect_printable r = true) (ShadowNode.rects n) →
  ∃ s, get_summary repr_other fmt_fixed n = Ok s.
Proof.
  unfold get_summary. intros Hrs.
  destruct (ShadowNode.rects n) as [|r [|r' rs]] eqn:Hrects.
  - by eexists.
  - apply Forall_inv in Hrs.
    apply rect_printable_fields in Hrs as (Hp & _ & Hy & _ & Hh).
    destruct (py_str_page _ Hp) as (sp & ->). cbn [mbind result_bind].
    destruct (fmt_total 0 _ (small_y_ok _ Hy)) as (fy & ->). cbn [mbind result_bind].
    destruct (py_add_small _ _ Hy Hh) as (b & -> & Hb). cbn [mbind result_bind].
    destruct (fmt_total 0 _ Hb) as (fb & ->). cbn [mbind result_bind]. by eexists.
  - destruct (page_set_total (r :: r' :: rs) [] Hrs (Forall_nil_2 _))
      as (pset & -> & Hnum & _ & Hne).
    cbn [mbind result_bind].
    destruct (py_sorted_pages pset Hnum) as (pages & -> & Hperm).
    cbn [mbind result_bind].
    assert (pages ≠ []) as Hpages.
    { intros ->. apply Permutation_nil_l in Hperm. by apply Hne. }
    assert (Hok : Forall (λ v, page_ok v = true) pages) by (by rewrite Hperm).
    destruct pages as [|p0 pages]; [done|]. cbn [head].
    destruct (last (p0 :: pages)) as [p1|] eqn:Hlast.
    2:{ by apply last_None in Hlast. }
    destruct (py_str_page p0) as (s0 & ->); [by apply Forall_inv in Hok|].
    destruct (py_str_page p1) as (s1 & ->).
    { apply last_Some in Hlast as (l' & Hl'). rewrite Hl' in Hok.
      apply Forall_app in Hok as [_ Hok]. by apply Forall_inv in Hok. }
    cbn [mbind result_bind]. by eexists.
Qed.

Lemma payload_info_total n :
  is_str (ShadowNode.kind n) = true →
  payload_printable (ShadowNode.payload n) = true →
  ∃ s, payload_info repr_other n = Ok s.
Proof.
  unfold payload_info. destruct (ShadowNode.payload n); try discriminate.
  intros _ Hpr. cbn [payload_printable] in Hpr.
  apply andb_prop in Hpr as [Hk Ht].
  destruct (py_truthy (JDict d)); [|by eexists]. cbn [py_get mbind result_bind].
  assert (Hty : ∃ ptype,
            (if py_truthy (dict_get d "type" JNull)
             then mret (dict_get d "type" JNull)
             else Ok (dict_get d "kind" (JStr ""))) = Ok ptype
            ∧ is_str ptype = true).
  { unfold dict_get. destruct (assoc "type" d) as [ty|].
    - destruct (py_truthy ty); [by eexists|].
      eexists. split; [done|]. by destruct (assoc "kind" d).
    - cbn [py_truthy]. eexists. split; [done|]. by destruct (assoc "kind" d). }
  destruct Hty as (ptype & -> & Hptype). cbn [mbind result_bind].
  destruct (_ && _); [|by eexists].
  destruct (py_str_text ptype Hptype) as (st & ->). by eexists.
Qed.

Lemma to_tree_string_total (s : list ShadowNode.t) :
  Forall node_printable s →
  (∀ r e, span s r e → ∀ fuel prefix is_last, e - r ≤ fuel →
     ∃ out, to_tree_string repr_other fmt_fixed fuel s r prefix is_last = Ok out)
  ∧ (∀ a cs e, chain s a cs e → a ≤ length s → ∀ fuel prefix line, e - a ≤ fuel →
       ∃ out,
         (fix each (cs : list ref) (line : string) : result string :=
            match cs with
            | [] => mret line
            | c :: cs' =>
                sub ← to_tree_string repr_other fmt_fixed fuel s c prefix
                        (bool_decide (cs' = []));
                each cs' (line +:+ sub)
            end) cs line = Ok out).
Proof.
  intros Hall. apply span_chain_ind.
  - intros r n e Hl Hc IH fuel prefix is_last Hfuel.
    pose proof (lookup_lt_Some _ _ _ Hl) as Hr.
    pose proof (chain_le _ _ _ _ Hc ltac:(lia)) as He.
    destruct (Forall_lookup_1 _ _ _ _ Hall Hl) as (Hk & Hi & Hpl & _ & _ & _ & Hrs).
    destruct fuel as [|fuel]; [lia|]. cbn [to_tree_string]. rewrite Hl.
    destruct (get_summary_total n Hrs) as (summary & ->).
    destruct (payload_info_total n Hk Hpl) as (info & ->).
    destruct (py_str_text _ Hk) as (sk & ->).
    destruct (py_str_text _ Hi) as (si & ->).
    cbn [mbind result_bind]. apply IH; lia.
  - intros a _ fuel prefix line _. by eexists.
  - intros a cs m e Hs IH1 Hc IH2 Ha fuel prefix line Hfuel.
    pose proof (span_lt _ _ _ Hs) as Hm.
    pose proof (chain_le _ _ _ _ Hc ltac:(lia)) as He.
    destruct (IH1 fuel prefix (bool_decide (cs = []))) as (sub & ->); [lia|].
    cbn [mbind result_bind]. apply IH2; lia.
Qed.





End RenderTotal.

Lemma fmt_whole_total d v : y_ok v = true → ∃ str, fmt_whole d v = Ok str.
Proof.
  destruct v; try discriminate; simpl.
  - intros ->. by eexists.
  - intros _. destruct (float_xnum f); by eexists.
Qed.

(** The page count of the root can be printed. *)
Lemma root_pages_printable probes s :
  (Z.of_nat (length probes) < INT_STR_LIMIT)%Z →
  build_shadow_dom probes = Ok (s, root_ref) →
  ∃ n c, s !! root_ref = Some n
         ∧ ShadowNode.payload n = JDict [("pages", JInt c)]
         ∧ page_ok (JInt c) = true.
Proof.
  intros Hlen Hbuild.
  destruct (build_shadow_dom_inv _ _ _ Hbuild) as (st & Hrun).
  destruct (build_shadow_dom_run _ _ Hrun) as (rt & Hrt & Hs).
  rewrite Hs in Hbuild. injection Hbuild as <-.
  eexists _, _. split_and!.
  - apply list_lookup_insert_eq. by eapply lookup_lt_Some.
  - done.
  - apply run_pages_length in Hrun. simpl in Hrun.
    unfold page_ok. apply Z.ltb_lt. remember INT_STR_LIMIT as L. lia.
Qed.

(** X12. [print_tree] builds every line of its text without raising, on
    the tree the builder makes of probes the renderers can print: records
    of the promised shape whose pages are ints of at most 4300 digits,
    whose int coordinates are below 2^1022 in magnitude, and whose kinds
    and types are strings.  Every summary then finds a page to print,
    numbers to add and to format, and pages that sort.  A recursion depth
    of the number of nodes is enough; [format] with a fixed number of
    digits is taken to succeed on a float and on an int that can be taken
    as a float; the list holds fewer than 10^4300 probes.  (What the
    terminal does with the text is not part of the model.) *)
Theorem print_tree_builds_its_text (repr_other : json → result string)
        (fmt_fixed : nat → json → result string)
        (probes : list probe) (s : list ShadowNode.t) (fuel : nat) :
  (∀ d v, y_ok v = true → ∃ str, fmt_fixed d v = Ok str) →
  Forall (λ p, probe_printable p = true) probes →
  (Z.of_nat (length probes) < INT_STR_LIMIT)%Z →
  build_shadow_dom probes = Ok (s, root_ref) →
  length s ≤ fuel →
  ∃ out, print_tree repr_other fmt_fixed fuel s root_ref = Ok out.
Proof.
  intros Hfmt Hpr Hlen Hbuild Hfuel.
  pose proof (build_shadow_dom_printable _ _ Hpr Hbuild) as Hall.
  pose proof (build_shadow_dom_span _ _ Hbuild) as Hspan.
  destruct (root_pages_printable _ _ Hlen Hbuild) as (n & c & Hl & Hpl & Hc).
  inversion Hspan as [r n' e Hl' Hchain]; subst.
  assert (n' = n) as -> by congruence.
  unfold print_tree. rewrite Hl, Hpl. cbn [py_get mbind result_bind].
  change (dict_get [("pages", JInt c)] "pages" (JInt 1)) with (JInt c).
  destruct (py_str_page repr_other _ Hc) as (sp & ->). cbn [mbind result_bind].
  destruct (to_tree_string_total repr_other fmt_fixed Hfmt s Hall) as (_ & Heach).
  pose proof (lookup_lt_Some _ _ _ Hl) as Hlt.
  apply (Heach _ _ _ Hchain); unfold root_ref in *; lia.
Qed.

Lemma print_tree_builds_its_text_witness :
  ∃ s,
    (∀ d v, y_ok v = true → ∃ str, fmt_whole d v = Ok str)
    ∧ Forall (λ p, probe_printable p = true) scenario_nested
    ∧ (Z.of_nat (length scenario_nested) < INT_STR_LIMIT)%Z
    ∧ build_shadow_dom scenario_nested = Ok (s, root_ref)
    ∧ length s ≤ 4
    ∧ ∃ out, print_tree repr_plain fmt_whole 4 s root_ref = Ok out.
Proof.
  eexists. split; [exact fmt_whole_total|].
  split; [repeat (constructor; [vm_compute; reflexivity|]); constructor|].
  split; [by vm_compute|].
  split; [vm_compute; reflexivity|]. split; [vm_compute; lia|].
  apply (print_tree_builds_its_text repr_plain fmt_whole scenario_nested);
    [exact fmt_whole_total
    |repeat (constructor; [vm_compute; reflexivity|]); constructor
    |by vm_compute|vm_compute; reflexivity|vm_compute; lia].
Defined.



(** ** The nodes and the probes they come from *)

Lemma same_identity_refl n : same_identity n n.
Proof. done. Qed.

Lemma same_identity_trans n1 n2 n3 :
  same_identity n1 n2 → same_identity n2 n3 → same_identity n1 n3.
Proof. unfold same_identity. intuition congruence. Qed.

Lemma step_identity st p st' :
  step st p = Ok st' →
  ∀ r n, objs st !! r = Some n → ∃ n', objs st' !! r = Some n' ∧ same_identity n n'.
Proof.
  intros (d & seen & top & below & Hpl & Hseen & Hst & Hcase)%step_inv r n Hn.
  pose proof (lookup_lt_Some _ _ _ Hn) as Hlt.
  assert (Hattach : ∀ par node, objs st !! top = Some par →
            ∃ n', attach (objs st) top par node !! r = Some n' ∧ same_identity n n').
  { intros par node Hpar. destruct (decide (r = top)) as [->|Hne].
    - rewrite attach_lookup_top by done. eexists. split; [done|].
      assert (par = n) as -> by congruence. done.
    - rewrite attach_lookup_old by done. eauto using same_identity_refl. }
  destruct (classify _).
  - destruct Hcase as (par & new_id & node & Hpar & _ & _ & ->). simpl. eauto.
  - destruct Hcase as [(Hne & closed & closed' & Hc & Hclose & ->)|(-> & ->)].
    + simpl. apply close_Ok in Hclose as (rs & -> & _).
      destruct (decide (r = top)) as [->|Hne'].
      * rewrite list_lookup_insert_eq by done. eexists. split; [done|].
        assert (closed = n) as -> by congruence. done.
      * rewrite list_lookup_insert_ne by done. eauto using same_identity_refl.
    + simpl. eauto using same_identity_refl.
  - destruct Hcase as (par & node & Hpar & _ & ->). simpl. eauto.
Qed.

Lemma run_identity probes :
  ∀ st st', run st probes = Ok st' →
  ∀ r n, objs st !! r = Some n → ∃ n', objs st' !! r = Some n' ∧ same_identity n n'.
Proof.
  induction probes as [|p probes IH]; simpl; intros st st' H r n Hn.
  - injection H as <-. eauto using same_identity_refl.
  - bind_inv H. destruct (step_identity _ _ _ Hbind r n Hn) as (n1 & Hn1 & Hid1).
    destruct (IH _ _ H r n1 Hn1) as (n' & Hn' & Hid').
    eauto using same_identity_trans.
Qed.

Lemma made_from_identity p n n' : made_from p n → same_identity n n' → made_from p n'.
Proof.
  intros (d & Hpl & Hk & Hs & Hp & Hm) (Hk' & Hi' & Hs' & Hp' & Ha').
  exists d. rewrite Hk', Hs', Hp', Ha', Hi'. done.
Qed.

Lemma step_made_from st p st' :
  step st p = Ok st' → creates_node p = true →
  length (objs st') = S (length (objs st))
  ∧ ∃ n, objs st' !! length (objs st) = Some n ∧ made_from p n.
Proof.
  intros (d & seen & top & below & Hpl & Hseen & Hst & Hcase)%step_inv Hcr.
  unfold creates_node in Hcr. pose proof (marker_of_payload p d Hpl) as Hm.
  destruct (classify _) eqn:Hcl.
  - destruct Hcase as (par & new_id & node & Hpar & Hid & Hnode & ->). simpl.
    rewrite attach_length, attach_lookup_new. split; [done|].
    exists node. split; [done|].
    apply set_start_Ok in Hnode as (l & _ & ->).
    exists d. rewrite Hm. done.
  - by rewrite Hm in Hcr.
  - destruct Hcase as (par & node & Hpar & Hnode & ->). simpl.
    rewrite attach_length, attach_lookup_new. split; [done|].
    exists node. split; [done|].
    apply add_atomic_rect_Ok in Hnode as (l & _ & ->).
    exists d. rewrite Hm. done.
Qed.

Lemma step_no_node st p st' :
  step st p = Ok st' → creates_node p = false →
  length (objs st') = length (objs st).
Proof.
  intros (d & seen & top & below & Hpl & Hseen & Hst & Hcase)%step_inv Hcr.
  unfold creates_node in Hcr. rewrite (marker_of_payload p d Hpl) in Hcr.
  destruct (classify _); try done.
  destruct Hcase as [(Hne & closed & closed' & Hc & Hclose & ->)|(-> & ->)]; simpl.
  - apply length_insert.
  - done.
Qed.

Lemma run_made_from probes :
  ∀ st st' i p,
    run st probes = Ok st' →
    List.filter creates_node probes !! i = Some p →
    ∃ n, objs st' !! (length (objs st) + i) = Some n ∧ made_from p n.
Proof.
  induction probes as [|q probes IH]; simpl; intros st st' i p H Hi; [done|].
  bind_inv H. rename a into st1.
  destruct (creates_node q) eqn:Hq.
  - destruct (step_made_from _ _ _ Hbind Hq) as (Hlen & n & Hn & Hmade).
    destruct i as [|i]; simpl in Hi.
    + injection Hi as <-. rewrite Nat.add_0_r.
      destruct (run_identity _ _ _ H _ _ Hn) as (n' & Hn' & Hid).
      exists n'. split; [done|]. by eapply made_from_identity.
    + destruct (IH _ _ _ _ H Hi) as (n' & Hn' & Hmade').
      exists n'. split; [|done]. rewrite <- Hn'. f_equal. lia.
  - rewrite <- (step_no_node _ _ _ Hbind Hq). by eapply IH.
Qed.

(** X14. The nodes of the returned tree are the probes that are not [end]
    probes, in their order: the node created i-th (object i + 1 of the
    store) carries the payload of the i-th such probe, the kind found in
    that payload or else in the record, its sequence number and its
    identifier (without [-start] for a [start] probe), and is atomic
    exactly when the probe is.  No later probe changes any of this. *)
Theorem nodes_mirror_the_probes (probes : list probe) (s : list ShadowNode.t)
        (i : nat) (p : probe) :
  build_shadow_dom probes = Ok (s, root_ref) →
  List.filter creates_node probes !! i = Some p →
  ∃ n, s !! S i = Some n ∧ made_from p n.
Proof.
  intros Hbuild Hi.
  destruct (build_shadow_dom_inv _ _ _ Hbuild) as (st & Hrun).
  destruct (build_shadow_dom_run _ _ Hrun) as (rt & Hrt & Hs).
  rewrite Hs in Hbuild. injection Hbuild as <-.
  destruct (run_made_from _ _ _ _ _ Hrun Hi) as (n & Hn & Hmade).
  exists n. split; [|done].
  rewrite list_lookup_insert_ne by (unfold root_ref; lia). exact Hn.
Qed.

Lemma nodes_mirror_the_probes_witness :
  ∃ s,
    build_shadow_dom scenario_nested = Ok (s, root_ref)
    ∧ List.filter creates_node scenario_nested !! 2
      = Some (mk_probe 2 "mark" [] (mk_location 1 5 130))
    ∧ ∃ n, s !! 3 = Some n
           ∧ made_from (mk_probe 2 "mark" [] (mk_location 1 5 130)) n.
Proof.
  eexists. split; [vm_compute; reflexivity|]. split; [reflexivity|].
  apply (nodes_mirror_the_probes scenario_nested _ 2); [vm_compute; reflexivity|].
  reflexivity.
Defined.

(** ** What a line of the tree shows *)

(** X15. The summary of a node with two fragments names the lower page
    first and the higher page second, whichever fragment is on which, and
    counts two fragments; no coordinate is formatted for it.  (The pages
    are ints the interpreter can print: of at most 4300 digits.) *)
Theorem summary_of_two_fragments (repr_other : json → result string)
        (fmt_fixed : nat → json → result string)
        (n : ShadowNode.t) (r1 r2 : Rect.t) (a b : Z) :
  ShadowNode.rects n = [r1; r2] →
  Rect.page r1 = JInt a →
  Rect.page r2 = JInt b →
  (Z.abs a < INT_STR_LIMIT)%Z →
  (Z.abs b < INT_STR_LIMIT)%Z →
  get_summary repr_other fmt_fixed n
  = Ok ("(p" +:+ pretty (Z.min a b) +:+ "-p" +:+ pretty (Z.max a b)
        +:+ ", 2 frags)").
Proof.
  intros Hrects Ha Hb Hla Hlb. unfold get_summary. rewrite Hrects.
  apply Z.ltb_lt in Hla, Hlb.
  cbn [foldM]. rewrite Ha, Hb. unfold set_add. cbn [py_hashable existsb app].
  cbn [mbind result_bind mret result_ret existsb].
  rewrite py_eq_int, orb_false_r.
  destruct (decide (b = a)) as [->|Hne].
  - rewrite bool_decide_eq_true_2 by done.
    rewrite Z.min_id, Z.max_id.
    unfold py_sorted.
    cbn [foldM sorted_insert mbind result_bind mret result_ret head last py_str].
    rewrite Hla. reflexivity.
  - rewrite bool_decide_eq_false_2 by done. cbn [app].
    unfold py_sorted.
    cbn [foldM sorted_insert mbind result_bind mret result_ret key_lt xnum_of
         xnum_ltb].
    destruct (Qlt_le_dec (inject_Z b) (inject_Z a)) as [Hlt|Hle].
    + rewrite <- Zlt_Qlt in Hlt.
      rewrite Z.min_r, Z.max_l by lia.
      cbn [mbind result_bind mret result_ret head last py_str].
      rewrite Hla, Hlb. reflexivity.
    + rewrite <- Zle_Qle in Hle.
      rewrite Z.min_l, Z.max_r by lia.
      cbn [mbind result_bind mret result_ret head last py_str].
      rewrite Hla, Hlb. reflexivity.
Qed.

Lemma summary_of_two_fragments_witness :
  ShadowNode.rects sample_root
  = [Rect.mk (JInt 1) (JInt 0) (JInt 0) (JInt 10) (JInt 10);
     Rect.mk (JInt 2) (JInt 0) (JInt 0) (JInt 10) (JInt 10)]
  ∧ Rect.page (Rect.mk (JInt 1) (JInt 0) (JInt 0) (JInt 10) (JInt 10)) = JInt 1
  ∧ Rect.page (Rect.mk (JInt 2) (JInt 0) (JInt 0) (JInt 10) (JInt 10)) = JInt 2
  ∧ (Z.abs 1 < INT_STR_LIMIT)%Z
  ∧ (Z.abs 2 < INT_STR_LIMIT)%Z
  ∧ get_summary repr_plain fmt_whole sample_root
    = Ok ("(p" +:+ pretty (Z.min 1 2) +:+ "-p" +:+ pretty (Z.max 1 2)
          +:+ ", 2 frags)").
Proof.
  split; [reflexivity|]. split; [reflexivity|]. split; [reflexivity|].
  split; [by vm_compute|]. split; [by vm_compute|].
  apply (summary_of_two_fragments repr_plain fmt_whole sample_root
           (Rect.mk (JInt 1) (JInt 0) (JInt 0) (JInt 10) (JInt 10))
           (Rect.mk (JInt 2) (JInt 0) (JInt 0) (JInt 10) (JInt 10)) 1 2);
    [reflexivity..|by vm_compute|by vm_compute].
Defined.

Lemma kind_from_payload_step st p st' :
  Forall kind_from_payload (objs st) → step st p = Ok st' →
  Forall kind_from_payload (objs st').
Proof.
  intros Hall (d & seen & top & below & Hpl & Hseen & Hst & Hcase)%step_inv.
  assert (Hnew : ∀ n, ShadowNode.kind n = probe_kind p d →
                      ShadowNode.payload n = JDict d → kind_from_payload n).
  { intros n Hk Hp d' v Hd' Hv. rewrite Hp in Hd'. injection Hd' as <-.
    rewrite Hk. unfold probe_kind, dict_get. by rewrite Hv. }
  assert (Hattach : ∀ par node, objs st !! top = Some par → kind_from_payload node →
                                Forall kind_from_payload (attach (objs st) top par node)).
  { intros par node Hpar Hnode. unfold attach. apply Forall_app. split.
    - apply Forall_insert; [done|].
      by apply (Forall_lookup_1 _ _ _ _ Hall Hpar).
    - by constructor. }
  destruct (classify _).
  - destruct Hcase as (par & new_id & node & Hpar & _ & Hnode & ->). simpl.
    apply Hattach; [done|]. apply new_node_start in Hnode as (_ & _ & _ & _ & Hk & Hp).
    by apply Hnew.
  - destruct Hcase as [(Hne & closed & closed' & Hc & Hclose & ->)|(-> & ->)]; [|done].
    simpl. apply close_Ok in Hclose as (rs & -> & _).
    apply Forall_insert; [done|]. by apply (Forall_lookup_1 _ _ _ _ Hall Hc).
  - destruct Hcase as (par & node & Hpar & Hnode & ->). simpl.
    apply Hattach; [done|].
    apply new_node_atomic in Hnode as (l & _ & _ & _ & _ & _ & Hk & Hp).
    by apply Hnew.
Qed.

Lemma kind_from_payload_run probes :
  ∀ st st', Forall kind_from_payload (objs st) → run st probes = Ok st' →
            Forall kind_from_payload (objs st').
Proof.
  induction probes as [|p probes IH]; simpl; intros st st' Hall H.
  - by injection H as <-.
  - bind_inv H. eapply IH; [|done]. by eapply kind_from_payload_step.
Qed.

(** X16. On a node of the builder the line of the tree never shows the
    kind of the payload in brackets: the kind of the node is that very
    value, so the fallback [payload.get("kind", "")] either is empty or
    equals the kind.  Unless the payload has a truthy [type], the
    bracketed part is empty.  (The kind is taken to be equal to itself,
    as every value is that neither is NaN nor holds one; a kind that is
    NaN is shown.) *)
Theorem payload_kind_is_never_shown (repr_other : json → result string)
        (probes : list probe) (s : list ShadowNode.t) (r : ref)
        (n : ShadowNode.t) (d : list (string * json)) :
  build_shadow_dom probes = Ok (s, root_ref) →
  s !! r = Some n →
  ShadowNode.payload n = JDict d →
  py_truthy (dict_get d "type" JNull) = false →
  kind_value_ok d →
  payload_info repr_other n = Ok "".
Proof.
  intros Hbuild Hn Hd Hty Hok.
  destruct (build_shadow_dom_inv _ _ _ Hbuild) as (st & Hrun).
  destruct (build_shadow_dom_run _ _ Hrun) as (rt & Hrt & Hs).
  rewrite Hs in Hbuild. injection Hbuild as <-.
  assert (Hall : Forall kind_from_payload (objs st)).
  { eapply kind_from_payload_run; [|done]. repeat constructor. by intros d' v [= <-]. }
  assert (Hkind : kind_from_payload n).
  { destruct (decide (r = root_ref)) as [->|Hne].
    - rewrite list_lookup_insert_eq in Hn by (by eapply lookup_lt_Some).
      injection Hn as <-. by intros d' v [= <-].
    - rewrite list_lookup_insert_ne in Hn by done.
      by apply (Forall_lookup_1 _ _ _ _ Hall Hn). }
  unfold payload_info. rewrite Hd.
  destruct (py_truthy (JDict d)); [|done].
  cbn [py_get mbind result_bind]. rewrite Hty.
  cbn [mbind result_bind mret result_ret].
  destruct (assoc "kind" d) as [v|] eqn:Hv.
  - assert (dict_get d "kind" (JStr "") = v) as ->.
    { unfold dict_get. by rewrite Hv. }
    rewrite (Hkind d v Hd Hv), (Hok v Hv).
    by rewrite andb_false_r.
  - assert (dict_get d "kind" (JStr "") = JStr "") as ->.
    { unfold dict_get. by rewrite Hv. }
    done.
Qed.

Lemma payload_kind_is_never_shown_witness :
  ∃ s n,
    build_shadow_dom [mk_probe 0 "h1" [("kind", JStr "heading")] (mk_location 1 0 0)]
    = Ok (s, root_ref)
    ∧ s !! 1 = Some n
    ∧ ShadowNode.payload n = JDict [("kind", JStr "heading")]
    ∧ py_truthy (dict_get [("kind", JStr "heading")] "type" JNull) = false
    ∧ kind_value_ok [("kind", JStr "heading")]
    ∧ payload_info repr_plain n = Ok "".
Proof.
  assert (Hok : kind_value_ok [("kind", JStr "heading")]).
  { intros v [= <-]. reflexivity. }
  eexists _, _. split; [vm_compute; reflexivity|]. split; [reflexivity|].
  split; [reflexivity|]. split; [reflexivity|]. split; [exact Hok|].
  eapply (payload_kind_is_never_shown repr_plain
            [mk_probe 0 "h1" [("kind", JStr "heading")] (mk_location 1 0 0)] _ 1);
    [vm_compute; reflexivity|reflexivity|reflexivity|reflexivity|exact Hok].
Defined.

(** ** Probes that are not of the promised shape *)

Lemma build_shadow_dom_raises before p rest st e :
  run init_state before = Ok st → step st p = Err e →
  build_shadow_dom (before ++ p :: rest) = Err e.
Proof.
  intros Hrun Hstep. unfold build_shadow_dom.
  rewrite run_app, Hrun. simpl. by rewrite Hstep.
Qed.

(** X17. A probe whose payload is not an object makes the builder raise
    [AttributeError] when its turn comes, whatever else the probe holds
    and whatever follows it. *)
Theorem payload_must_be_an_object (before rest : list probe) (p : probe)
        (st : build_state) :
  run init_state before = Ok st →
  is_dict (probe_payload p) = false →
  build_shadow_dom (before ++ p :: rest) = Err AttributeError.
Proof.
  intros Hrun Hpl. apply (build_shadow_dom_raises _ _ _ st); [done|].
  unfold step. fold (probe_payload p).
  by destruct (probe_payload p).
Qed.

Lemma payload_must_be_an_object_witness :
  ∃ st,
    run init_state scenario_1 = Ok st
    ∧ is_dict (probe_payload [("id", JStr "a"); ("payload", JStr "x")]) = false
    ∧ build_shadow_dom (scenario_1 ++ [("id", JStr "a"); ("payload", JStr "x")]
                                   :: scenario_2)
      = Err AttributeError.
Proof.
  eexists. split; [vm_compute; reflexivity|]. split; [reflexivity|].
  eapply (payload_must_be_an_object scenario_1 scenario_2
            [("id", JStr "a"); ("payload", JStr "x")]);
    [vm_compute; reflexivity|reflexivity].
Defined.

(** X18. A probe whose payload is an object and whose location is [None],
    a boolean or a number makes the builder raise [TypeError] (at the test
    ["page" in location]), whatever its marker. *)
Theorem location_must_be_a_container (before rest : list probe) (p : probe)
        (st : build_state) :
  run init_state before = Ok st →
  is_dict (probe_payload p) = true →
  is_scalar (probe_location p) = true →
  build_shadow_dom (before ++ p :: rest) = Err TypeError.
Proof.
  intros Hrun Hpl Hloc. apply (build_shadow_dom_raises _ _ _ st); [done|].
  unfold step. fold (probe_payload p) (probe_location p).
  destruct (probe_payload p); try discriminate. simpl.
  by destruct (probe_location p).
Qed.

Lemma location_must_be_a_container_witness :
  ∃ st,
    run init_state scenario_1 = Ok st
    ∧ is_dict (probe_payload (mk_probe 2 "m" [] (JInt 3))) = true
    ∧ is_scalar (probe_location (mk_probe 2 "m" [] (JInt 3))) = true
    ∧ build_shadow_dom (scenario_1 ++ mk_probe 2 "m" [] (JInt 3) :: scenario_2)
      = Err TypeError.
Proof.
  eexists. split; [vm_compute; reflexivity|]. split; [reflexivity|].
  split; [reflexivity|].
  eapply (location_must_be_a_container scenario_1 scenario_2 (mk_probe 2 "m" [] (JInt 3)));
    [vm_compute; reflexivity|reflexivity|reflexivity].
Defined.

(** X19. A [start] probe whose identifier is not a string makes the
    builder raise [AttributeError] (at [probe_id.replace]), when its
    location is an object with a hashable page or none. *)
Theorem start_id_must_be_a_string (before rest : list probe) (p : probe)
        (st : build_state) (l : list (string * json)) :
  run init_state before = Ok st →
  marker_of p = MStart →
  is_str (probe_id p) = false →
  probe_location p = JDict l →
  opt_all py_hashable (assoc "page" l) = true →
  build_shadow_dom (before ++ p :: rest) = Err AttributeError.
Proof.
  intros Hrun Hm Hid Hloc Hpage.
  apply (build_shadow_dom_raises _ _ _ st); [done|].
  destruct (inv_stack_nonempty st (inv_run _ _ _ inv_init Hrun)) as (top & below & Hst).
  unfold marker_of in Hm.
  unfold step. fold (probe_payload p) (probe_location p) (probe_id p).
  destruct (probe_payload p) as [| | | | | |d]; try discriminate.
  cbn [py_get mbind result_bind].
  assert (∃ seen, note_page (probe_location p) (pages_seen st) = Ok seen) as (seen & ->).
  { rewrite Hloc. unfold note_page. simpl.
    destruct (assoc "page" l) as [v|] eqn:Hv.
    - rewrite bool_decide_eq_true_2 by eauto. simpl.
      unfold set_add. simpl in Hpage. rewrite Hpage. eauto.
    - rewrite bool_decide_eq_false_2 by (by intros [? [=]]). simpl. eauto. }
  cbn [mbind result_bind]. rewrite Hst.
  unfold classify in Hm.
  destruct (py_eq (dict_get d "edge" JNull) (JStr "start")); [|by destruct (py_eq _ _)].
  by destruct (probe_id p).
Qed.

Lemma start_id_must_be_a_string_witness :
  ∃ st,
    run init_state scenario_1 = Ok st
    ∧ marker_of [("id", JInt 7); ("payload", JDict edge_start)] = MStart
    ∧ is_str (probe_id [("id", JInt 7); ("payload", JDict edge_start)]) = false
    ∧ probe_location [("id", JInt 7); ("payload", JDict edge_start)] = JDict []
    ∧ opt_all py_hashable (assoc "page" []) = true
    ∧ build_shadow_dom
        (scenario_1 ++ [("id", JInt 7); ("payload", JDict edge_start)] :: scenario_2)
      = Err AttributeError.
Proof.
  eexists. split; [vm_compute; reflexivity|]. split; [reflexivity|].
  split; [reflexivity|]. split; [reflexivity|]. split; [reflexivity|].
  eapply (start_id_must_be_a_string scenario_1 scenario_2
            [("id", JInt 7); ("payload", JDict edge_start)] _ []);
    [vm_compute; reflexivity|reflexivity..].
Defined.
